(** * SlicerCaseIterator (HCC variant): a shallow embedding

    The module under study is [SlicerCaseIterator/SlicerCaseIterator.py]: a
    widget ([SlicerCaseIteratorWidget]) that walks the rows of a batch table,
    and a per-case object ([SlicerCaseHCCIteratorLogic]) that matches the files
    of a subject directory against 18 series names, places volumes and
    segmentations in the slice views and saves segmentations on close.

    Python values are embedded as follows.  Integers are [Z].  Strings are
    [string] (8-bit characters, as Python 2 [str]).  [None] is [None].  The
    attributes of the case object that hold nodes live in a [gmap] keyed by the
    attribute name (an absent key is the attribute holding [None]).  Python
    lists updated by index are lists with stdpp's lookup and insert.  The MRML
    scene of the host is an explicit store of nodes addressed by identifier;
    methods that touch it run in a state-and-exception monad. *)

From Stdlib Require Import ZArith QArith Bool Ascii String List Lia.
From stdpp Require Import base option list strings gmap.
Import ListNotations.

Set Warnings "-clear-no-such-hyp".

Local Open Scope Z_scope.

(* ===================================================================== *)
(** ** Python string primitives *)
(* ===================================================================== *)

Module PyStr.

(** [c.lower()] on one 8-bit character: only 'A'..'Z' change. *)
Definition lower_ascii (c : ascii) : ascii :=
  let n := nat_of_ascii c in
  if (Nat.leb 65 n && Nat.leb n 90)%bool then ascii_of_nat (n + 32) else c.

(** [s.lower()] *)
Fixpoint lower (s : string) : string :=
  match s with
  | EmptyString => EmptyString
  | String c r => String (lower_ascii c) (lower r)
  end.

(** [pat in s]: [pat] occurs in [s] as a contiguous run. *)
Fixpoint contains (pat s : string) : bool :=
  if String.prefix pat s then true
  else match s with
       | EmptyString => false
       | String _ r => contains pat r
       end.

(** [s.find(pat)]: the lowest index at which [pat] occurs, [-1] if none. *)
Fixpoint find (pat s : string) : Z :=
  if String.prefix pat s then 0
  else match s with
       | EmptyString => -1
       | String _ r => let k := find pat r in if k <? 0 then -1 else k + 1
       end.

Fixpoint take (n : nat) (s : string) : string :=
  match n, s with
  | S m, String c r => String c (take m r)
  | _, _ => EmptyString
  end.

(** [s[:k]]: a negative [k] counts from the end, and both ends are clamped. *)
Definition slice_to (s : string) (k : Z) : string :=
  let n := Z.of_nat (String.length s) in
  let stop := if k <? 0 then Z.max 0 (n + k) else Z.min k n in
  take (Z.to_nat stop) s.

(** The mathematical reading of "contains": some prefix and suffix around
    the pattern. *)
Definition occurs_in (pat s : string) : Prop :=
  exists pre post : string, s = pre +:+ pat +:+ post.

(** [os.path.basename] on POSIX paths: what follows the last '/'. *)
Fixpoint basename_aux (acc s : string) : string :=
  match s with
  | EmptyString => acc
  | String c r =>
      if Ascii.eqb c "/"%char then basename_aux EmptyString r
      else basename_aux (acc +:+ String c EmptyString) r
  end.
Definition basename (p : string) : string := basename_aux EmptyString p.

Definition is_space (c : ascii) : bool :=
  let n := nat_of_ascii c in
  (Nat.eqb n 32 || (Nat.leb 9 n && Nat.leb n 13))%bool.

Fixpoint lstrip (s : string) : string :=
  match s with
  | String c r => if is_space c then lstrip r else s
  | EmptyString => EmptyString
  end.

Fixpoint rev_string (acc s : string) : string :=
  match s with
  | EmptyString => acc
  | String c r => rev_string (String c acc) r
  end.

(** [s.strip()] *)
Definition strip (s : string) : string :=
  rev_string EmptyString (lstrip (rev_string EmptyString (lstrip s))).

(** [s.split(',')]: always at least one field. *)
Fixpoint split_comma_aux (cur s : string) : list string :=
  match s with
  | EmptyString => [cur]
  | String c r =>
      if Ascii.eqb c ","%char then cur :: split_comma_aux EmptyString r
      else split_comma_aux (cur +:+ String c EmptyString) r
  end.
Definition split_comma (s : string) : list string := split_comma_aux EmptyString s.

End PyStr.

(* ===================================================================== *)
(** ** The host: MRML scene, slice views, file system *)
(* ===================================================================== *)

Definition node_id := nat.

(** One segment of a segmentation.  [segment_voxels] is the array that
    [slicer.util.arrayFromSegment] yields for it; [None] stands for a segment
    without a binary labelmap, on which [arrayFromSegment] raises
    [AttributeError]. *)
Record Segment := mkSegment {
  segment_name : string;
  segment_voxels : option (list Z)
}.

Record SegmentationData := mkSegmentation {
  seg_name : string;
  seg_segments : list Segment;
  seg_display : option node_id;       (* GetDisplayNode() *)
  seg_reference : option node_id      (* reference image geometry role *)
}.

Record DisplayData := mkDisplay {
  disp_visibility : bool;
  disp_only_in_view : option string   (* slice node ID, if restricted *)
}.

Inductive Node :=
| ScalarVolumeNode (name file : string)
| LabelMapVolumeNode (name : string) (exported_from : option node_id)
| SegmentationNode (s : SegmentationData)
| SegmentationDisplayNode (d : DisplayData)
| ViewNode
| TableNode.                          (* the batch table; the widget holds its content *)

Record SliceView := mkSliceView {
  view_name : string;                 (* 'Red', 'Yellow', ... *)
  view_background : option node_id;   (* composite node background volume *)
  view_orientation : string
}.

(** The levels of the [logging] module; [STDOUT] marks the output of [print]. *)
Inductive Level := STDOUT | DEBUG | INFO | WARNING.

(** A file handed to [slicer.util.saveNode]: its path, the labelmap node that
    was saved and the segmentation that node was exported from. *)
Record SavedFile := mkSavedFile {
  saved_path : string;
  saved_node : node_id;
  saved_from : node_id
}.

Record World := mkWorld {
  nodes : list (node_id * Node);      (* the scene, in insertion order *)
  next_id : node_id;
  views : list SliceView;
  selectedModule : string;
  written : list SavedFile;
  log : list (Level * string)
}.

(** What the code asks of the file system, of the host's readers and of the
    interpreter.  The host is taken to load every file it is given.
    [iteritems d] is the order in which the interpreter walks a [dict] that
    holds the items [d] (given here in insertion order): Python 2 walks the
    hash table, so the order is fixed by the keys and their history, and is
    not the insertion order in general.  Every item is met once. *)
Record Host := mkHost {
  listdir : string -> option (list string);     (* None: os.listdir raises *)
  volume_name_of_file : string -> string;       (* name given to a loaded volume *)
  labelmap_segments : string -> list Segment;   (* segments imported from a label file *)
  iteritems : list (string * node_id) -> list (string * node_id);
  iteritems_perm : forall d, iteritems d ≡ₚ d
}.

(* ===================================================================== *)
(** ** State and exception monad *)
(* ===================================================================== *)

Inductive exn := TypeError | UnboundLocalError | AttributeError | IndexError | OSError.

Inductive result (A : Type) :=
| Ok (a : A)
| Raise (e : exn).
Arguments Ok {A} a.
Arguments Raise {A} e.

Definition M (St A : Type) : Type := St -> result A * St.

Definition ret {St A} (a : A) : M St A := fun s => (Ok a, s).
Definition raise {St A} (e : exn) : M St A := fun s => (Raise e, s).
Definition bind {St A B} (c : M St A) (k : A -> M St B) : M St B :=
  fun s => match c s with
           | (Ok a, s') => k a s'
           | (Raise e, s') => (Raise e, s')
           end.
Definition get {St} : M St St := fun s => (Ok s, s).
Definition modify {St} (f : St -> St) : M St unit := fun s => (Ok tt, f s).

#[global] Instance exn_eq_dec : EqDecision exn.
Proof. solve_decision. Defined.

(** [try: c except e: handler] *)
Definition try_except {St A} (c : M St A) (e : exn) (handler : M St A) : M St A :=
  fun s => match c s with
           | (Raise e', s') => if decide (e' = e) then handler s' else (Raise e', s')
           | r => r
           end.

(** [try: c except: handler] (bare except) *)
Definition try_except_all {St A} (c : M St A) (handler : M St A) : M St A :=
  fun s => match c s with
           | (Raise _, s') => handler s'
           | r => r
           end.

Declare Scope py_scope.
Delimit Scope py_scope with py.
Notation "x <- c ;; k" := (bind c (fun x => k))
  (at level 100, c at next level, right associativity) : py_scope.
Notation "c ;; k" := (bind c (fun _ => k))
  (at level 100, right associativity) : py_scope.
Local Open Scope py_scope.

(** [for x in l: body x] *)
Fixpoint for_each {St A} (l : list A) (body : A -> M St unit) : M St unit :=
  match l with
  | [] => ret tt
  | x :: r => body x ;; for_each r body
  end.

(** A loop that carries local variables [B] from one iteration to the next. *)
Fixpoint for_fold {St A B} (l : list A) (body : B -> A -> M St B) (b : B) : M St B :=
  match l with
  | [] => ret b
  | x :: r => b' <- body b x ;; for_fold r body b'
  end.

(** [enumerate(l)] from a given start. *)
Fixpoint enumerate_from {A} (i : Z) (l : list A) : list (Z * A) :=
  match l with
  | [] => []
  | x :: r => (i, x) :: enumerate_from (i + 1) r
  end.
Definition enumerate {A} (l : list A) : list (Z * A) := enumerate_from 0 l.

(** [l[i]] for [i >= 0] on a Python list; out of range raises [IndexError].
    (The code only indexes with the non-negative counters of [enumerate].) *)
Definition py_index {St A} (l : list A) (i : Z) : M St A :=
  match l !! Z.to_nat i with
  | Some x => ret x
  | None => raise IndexError
  end.

(* ===================================================================== *)
(** ** Scene primitives *)
(* ===================================================================== *)

Module Scene.

Definition lookup (w : World) (n : node_id) : option Node :=
  snd <$> List.find (fun p => Nat.eqb (fst p) n) (nodes w).

Definition set_nodes (w : World) (ns : list (node_id * Node)) (nxt : node_id) : World :=
  mkWorld ns nxt (views w) (selectedModule w) (written w) (log w).
Definition set_views (w : World) (vs : list SliceView) : World :=
  mkWorld (nodes w) (next_id w) vs (selectedModule w) (written w) (log w).
Definition set_selectedModule (w : World) (m : string) : World :=
  mkWorld (nodes w) (next_id w) (views w) m (written w) (log w).
Definition add_written (w : World) (f : SavedFile) : World :=
  mkWorld (nodes w) (next_id w) (views w) (selectedModule w) (written w ++ [f]) (log w).
Definition add_log (w : World) (l : Level) (msg : string) : World :=
  mkWorld (nodes w) (next_id w) (views w) (selectedModule w) (written w) (log w ++ [(l, msg)]).

(** [slicer.mrmlScene.AddNode] / [AddNewNodeByClass]: the node gets a fresh
    identifier and goes to the end of the scene. *)
Definition add_node (nd : Node) : M World node_id :=
  fun w => (Ok (next_id w), set_nodes w (nodes w ++ [(next_id w, nd)]) (S (next_id w))).

(** [slicer.mrmlScene.RemoveNode] *)
Definition remove_node (n : node_id) : M World unit :=
  modify (fun w => set_nodes w (List.filter (fun p => negb (Nat.eqb (fst p) n)) (nodes w)) (next_id w)).

(** In-place mutation of the node [n]. *)
Definition update_entry (n : node_id) (f : Node -> Node) (p : node_id * Node)
    : node_id * Node :=
  if Nat.eqb (fst p) n then (fst p, f (snd p)) else p.
Definition update_node (n : node_id) (f : Node -> Node) : M World unit :=
  modify (fun w => set_nodes w (List.map (update_entry n f) (nodes w)) (next_id w)).

Definition print (msg : string) : M World unit := modify (fun w => add_log w STDOUT msg).
Definition logger (l : Level) (msg : string) : M World unit := modify (fun w => add_log w l msg).

(** [node.GetName()] *)
Definition node_name (nd : Node) : string :=
  match nd with
  | ScalarVolumeNode name _ => name
  | LabelMapVolumeNode name _ => name
  | SegmentationNode s => seg_name s
  | SegmentationDisplayNode _ => "SegmentationDisplay"
  | ViewNode => "View"
  | TableNode => "Table"
  end.

(** [GetName()] through a reference held by the case object. *)
Definition GetName (w : World) (n : node_id) : string :=
  match lookup w n with
  | Some nd => node_name nd
  | None => ""
  end.

Definition segmentation (w : World) (n : node_id) : option SegmentationData :=
  match lookup w n with
  | Some (SegmentationNode s) => Some s
  | _ => None
  end.

Definition on_segmentation (f : SegmentationData -> SegmentationData) (nd : Node) : Node :=
  match nd with
  | SegmentationNode s => SegmentationNode (f s)
  | other => other
  end.
Definition on_display (f : DisplayData -> DisplayData) (nd : Node) : Node :=
  match nd with
  | SegmentationDisplayNode d => SegmentationDisplayNode (f d)
  | other => other
  end.

Definition update_segmentation (n : node_id) (f : SegmentationData -> SegmentationData)
    : M World unit :=
  update_node n (on_segmentation f).

Definition update_display (n : node_id) (f : DisplayData -> DisplayData) : M World unit :=
  update_node n (on_display f).

Definition display (w : World) (n : node_id) : option DisplayData :=
  match lookup w n with
  | Some (SegmentationDisplayNode d) => Some d
  | _ => None
  end.

(** [slicer.util.getNodesByClass('vtkMRMLSegmentationNode')], scene order. *)
Definition segmentation_nodes (w : World) : list (node_id * SegmentationData) :=
  omap (fun p => match snd p with
                 | SegmentationNode s => Some (fst p, s)
                 | _ => None
                 end) (nodes w).

(** [slicer.mrmlScene.Clear(0)]: every non-singleton node goes; the slice
    views stay and are reset. *)
Definition clear : M World unit :=
  modify (fun w => set_views (set_nodes w [] (next_id w))
    (List.map (fun v => mkSliceView (view_name v) None (view_orientation v)) (views w))).

End Scene.

(** [os.path.join(a, b)] on POSIX paths. *)
Definition ends_with_slash (a : string) : bool :=
  match PyStr.rev_string EmptyString a with
  | String c _ => Ascii.eqb c "/"%char
  | EmptyString => false
  end.
Definition path_join (a b : string) : string :=
  if String.prefix "/" b then b
  else if (String.eqb a "" || ends_with_slash a)%bool then a +:+ b
  else a +:+ "/" +:+ b.

(** [sorted(l, key=key)] with string keys: a stable insertion sort on the
    byte order of strings. *)
Fixpoint insert_by {A} (key : A -> string) (x : A) (l : list A) : list A :=
  match l with
  | [] => [x]
  | y :: r => if String.leb (key x) (key y) then x :: l else y :: insert_by key x r
  end.
Definition sorted_by {A} (key : A -> string) (l : list A) : list A :=
  List.fold_right (insert_by key) [] l.

(* ===================================================================== *)
(** ** numpy *)
(* ===================================================================== *)

(** What [_saveMasks] holds in [segment_array]: the voxel array of a segment
    (flattened; segment labelmaps hold integers) or the float it falls back
    to. *)
Inductive ndarray :=
| Array (voxels : list Z)
| Scalar (x : Q).

Definition sumZ (l : list Z) : Z := List.fold_right Z.add 0 l.

(** [np.mean]: [None] is nan, the mean of an array without elements.  The
    mean of integer voxels is taken as the exact quotient; it is zero exactly
    when the sum is. *)
Definition np_mean (a : ndarray) : option Q :=
  match a with
  | Scalar x => Some x
  | Array [] => None
  | Array (v :: r) => Some (Qmake (sumZ (v :: r)) (Pos.of_nat (List.length (v :: r))))
  end.

(** [m == 0.0] (nan compares unequal to everything). *)
Definition is_zero (m : option Q) : bool :=
  match m with
  | Some q => Qeq_bool q 0
  | None => false
  end.

(* ===================================================================== *)
(** ** SlicerCaseHCCIteratorLogic *)
(* ===================================================================== *)

(** The case object.  [attrs] holds the 18 volume attributes ([pre_T1_pre],
    ..., [pre_ADC_Eq_1]) and the four label attributes ([pre_T1_label],
    [post_T1_label], [pre_ADC_label], [post_ADC_label]) under their names;
    [__init__] sets all of them to [None], the empty map.  The attributes
    [root], [addIms], [addMas], [GenerateMasks], [GenerateAddMasks] and
    [image_nodes] are stored by [__init__] and read by no method; they are
    left out. *)
Record Case := mkCase {
  attrs : gmap string node_id;
  volumesLoad : list (option node_id);
  labelVolumesLoad : list (option node_id);
  sub_dir : string;
  image_root : option string;          (* None: attribute not yet set *)
  redirect : bool;
  mask_nodes : list (string * node_id); (* OrderedDict, never filled *)
  reader_name : string
}.

Definition set_attrs (c : Case) (a : gmap string node_id) : Case :=
  mkCase a (volumesLoad c) (labelVolumesLoad c) (sub_dir c) (image_root c)
         (redirect c) (mask_nodes c) (reader_name c).
Definition set_volumesLoad (c : Case) (l : list (option node_id)) : Case :=
  mkCase (attrs c) l (labelVolumesLoad c) (sub_dir c) (image_root c)
         (redirect c) (mask_nodes c) (reader_name c).
Definition set_labelVolumesLoad (c : Case) (l : list (option node_id)) : Case :=
  mkCase (attrs c) (volumesLoad c) l (sub_dir c) (image_root c)
         (redirect c) (mask_nodes c) (reader_name c).
Definition set_image_root (c : Case) (d : string) : Case :=
  mkCase (attrs c) (volumesLoad c) (labelVolumesLoad c) (sub_dir c) (Some d)
         (redirect c) (mask_nodes c) (reader_name c).

(** The dictionary [images] of [load_data_to_placeholders], in the order of
    the literal. *)
Definition images : list (string * Z) :=
  [("pre_T1_pre", 0); ("pre_T1_EA", 1); ("pre_T1_EA_sub", 2); ("pre_T1_LA", 3);
   ("pre_T1_LA_sub", 4); ("pre_T1_PV", 5); ("pre_T1_PV_sub", 6); ("pre_ADC", 7);
   ("post_T1_pre", 8); ("post_T1_EA", 9); ("post_T1_EA_sub", 10); ("post_T1_LA", 11);
   ("post_T1_LA_sub", 12); ("post_T1_PV", 13); ("post_T1_PV_sub", 14); ("post_ADC", 15);
   ("post_ADC_Eq_1", 16); ("pre_ADC_Eq_1", 17)].

(** The two patterns tested against the lower-cased file name. *)
Definition volume_pattern (j : string) : string := PyStr.lower j +:+ ".nii.gz".
Definition label_pattern (j reader : string) : string :=
  PyStr.lower j +:+ "_tumor_" +:+ PyStr.lower reader +:+ ".nii.gz".

(** [slicer.util.loadVolume(path, returnNode=True)[1]] *)
Definition loadVolume (h : Host) (path : string) : M World node_id :=
  Scene.add_node (ScalarVolumeNode (volume_name_of_file h path) path).

Definition set_seg_name (n : string) (s : SegmentationData) : SegmentationData :=
  mkSegmentation n (seg_segments s) (seg_display s) (seg_reference s).
Definition set_seg_segments (l : list Segment) (s : SegmentationData) : SegmentationData :=
  mkSegmentation (seg_name s) l (seg_display s) (seg_reference s).
Definition set_seg_display (d : option node_id) (s : SegmentationData) : SegmentationData :=
  mkSegmentation (seg_name s) (seg_segments s) d (seg_reference s).
Definition set_seg_reference (r : option node_id) (s : SegmentationData) : SegmentationData :=
  mkSegmentation (seg_name s) (seg_segments s) (seg_display s) r.
Definition set_visibility (b : bool) (d : DisplayData) : DisplayData :=
  mkDisplay b (disp_only_in_view d).
Definition set_only_in_view (v : option string) (d : DisplayData) : DisplayData :=
  mkDisplay (disp_visibility d) v.

(** [segmentation.AddEmptySegment(name)] *)
Definition AddEmptySegment (name : string) (s : SegmentationData) : SegmentationData :=
  set_seg_segments (seg_segments s ++ [mkSegment name None]) s.

(** Lines 717-726: a label file becomes a hidden segmentation node named
    [j + "_segment"].  The import gives the node its segments and a display
    node; the labelmap node it was read into leaves the scene again, so no
    reference volume remains. *)
Definition load_label (h : Host) (self : Case) (path j : string) : M World node_id :=
  Scene.print ("Reader Name: " +:+ reader_name self) ;;
  ma_node <- Scene.add_node (LabelMapVolumeNode (volume_name_of_file h path) None) ;;
  seg_node <- Scene.add_node (SegmentationNode (mkSegmentation "Segmentation" [] None None)) ;;
  disp <- Scene.add_node (SegmentationDisplayNode (mkDisplay true None)) ;;
  Scene.update_segmentation seg_node
    (fun s => set_seg_display (Some disp) (set_seg_segments (labelmap_segments h path) s)) ;;
  Scene.remove_node ma_node ;;
  Scene.update_segmentation seg_node (set_seg_name (j +:+ "_segment")) ;;
  Scene.update_display disp (set_visibility false) ;;
  ret seg_node.

Definition placeholders : Type := list (node_id * Z) * list (node_id * Z).

(** The body of [for j,count in images.items()] for the file [i]. *)
Definition match_series (h : Host) (self : Case) (subject_dir i file_name : string)
    (acc : placeholders) (jc : string * Z) : M World placeholders :=
  let j := jc.1 in
  let count := jc.2 in
  raws <- (if PyStr.contains (volume_pattern j) file_name
           then img <- loadVolume h (path_join subject_dir i) ;;
                ret (acc.1 ++ [(img, count)])
           else ret acc.1) ;;
  labels <- (if PyStr.contains (label_pattern j (reader_name self)) file_name
             then seg_node <- load_label h self (path_join subject_dir i) j ;;
                  ret (acc.2 ++ [(seg_node, count)])
             else ret acc.2) ;;
  ret (raws, labels).

(** The body of [for i in os.listdir(subject_dir)]. *)
Definition match_file (h : Host) (self : Case) (subject_dir : string)
    (acc : placeholders) (i : string) : M World placeholders :=
  let file_name := PyStr.lower i in
  for_fold images (match_series h self subject_dir i file_name) acc.

Definition os_listdir {St} (h : Host) (d : string) : M St (list string) :=
  match listdir h d with
  | Some l => ret l
  | None => raise OSError
  end.

Definition load_data_to_placeholders (h : Host) (self : Case) (subject_dir : string)
    : M World (Case * placeholders) :=
  let self := set_image_root self subject_dir in
  listing <- os_listdir h subject_dir ;;
  rl <- for_fold listing (match_file h self subject_dir) ([], []) ;;
  ret (self, rl).

(** [x in [a, b]] on integers. *)
Definition py_in (x : Z) (l : list Z) : bool := existsb (Z.eqb x) l.

(** The body of [for i in raws] (lines 645-682): eighteen independent tests. *)
Definition assign_raw (a : gmap string node_id) (i : node_id * Z) : gmap string node_id :=
  let a := if i.2 =? 0 then <["pre_T1_pre" := i.1]> a else a in
  let a := if i.2 =? 1 then <["pre_T1_EA" := i.1]> a else a in
  let a := if i.2 =? 2 then <["pre_T1_EA_sub" := i.1]> a else a in
  let a := if i.2 =? 3 then <["pre_T1_LA" := i.1]> a else a in
  let a := if i.2 =? 4 then <["pre_T1_LA_sub" := i.1]> a else a in
  let a := if i.2 =? 5 then <["pre_T1_PV" := i.1]> a else a in
  let a := if i.2 =? 6 then <["pre_T1_PV_sub" := i.1]> a else a in
  let a := if i.2 =? 7 then <["pre_ADC" := i.1]> a else a in
  let a := if i.2 =? 8 then <["post_T1_pre" := i.1]> a else a in
  let a := if i.2 =? 9 then <["post_T1_EA" := i.1]> a else a in
  let a := if i.2 =? 10 then <["post_T1_EA_sub" := i.1]> a else a in
  let a := if i.2 =? 11 then <["post_T1_LA" := i.1]> a else a in
  let a := if i.2 =? 12 then <["post_T1_LA_sub" := i.1]> a else a in
  let a := if i.2 =? 13 then <["post_T1_PV" := i.1]> a else a in
  let a := if i.2 =? 14 then <["post_T1_PV_sub" := i.1]> a else a in
  let a := if i.2 =? 15 then <["post_ADC" := i.1]> a else a in
  let a := if i.2 =? 16 then <["post_ADC_Eq_1" := i.1]> a else a in
  let a := if i.2 =? 17 then <["pre_ADC_Eq_1" := i.1]> a else a in
  a.

(** The body of [for i in labels] (lines 684-696), with its prints. *)
Definition assign_label (a : gmap string node_id) (i : node_id * Z)
    : M World (gmap string node_id) :=
  a <- (if py_in i.2 [1; 3]
        then Scene.print "Found pre t1 label" ;; ret (<["pre_T1_label" := i.1]> a)
        else ret a) ;;
  a <- (if py_in i.2 [9; 11]
        then Scene.print "Found post t1 label" ;; ret (<["post_T1_label" := i.1]> a)
        else ret a) ;;
  a <- (if py_in i.2 [15; 16]
        then Scene.print "Found post ADC label" ;; ret (<["post_ADC_label" := i.1]> a)
        else ret a) ;;
  a <- (if py_in i.2 [7; 17]
        then Scene.print "Found pre ADC label" ;; ret (<["pre_ADC_label" := i.1]> a)
        else ret a) ;;
  ret a.

Definition select_placeholder_for_view (h : Host) (self : Case) (subject_dir : string)
    : M World Case :=
  r <- load_data_to_placeholders h self subject_dir ;;
  let self := r.1 in
  let raws := r.2.1 in
  let labels := r.2.2 in
  let a := List.fold_left assign_raw raws (attrs self) in
  a <- for_fold labels assign_label a ;;
  ret (set_attrs self a).

(** [seg_name[:seg_name.find("_segment")]] *)
Definition strip_segment (seg_name : string) : string :=
  PyStr.slice_to seg_name (PyStr.find "_segment" seg_name).

(** [l[i] = x] for [i >= 0]; out of range raises [IndexError]. *)
Definition py_setitem {St A} (l : list A) (i : nat) (x : A) : M St (list A) :=
  if Nat.ltb i (List.length l) then ret (<[i := x]> l) else raise IndexError.

(** One of the three live blocks of [correct_volumesLoad]: the view [k] and
    the attribute [alt] holding its alternate volume. *)
Definition correct_view (self : Case) (k : nat) (alt : string)
    (volumesNode_list labelmapNode_list : list (option node_id))
    : M World (list (option node_id)) :=
  lab <- py_index labelmapNode_list (Z.of_nat k) ;;
  match lab with
  | Some seg =>
      w <- get ;;
      let seg_name := Scene.GetName w seg in
      match attrs self !! alt with
      | Some alt_node =>
          if PyStr.contains (strip_segment seg_name) (Scene.GetName w alt_node)
          then py_setitem volumesNode_list k (Some alt_node)
          else ret volumesNode_list
      | None => ret volumesNode_list
      end
  | None => ret volumesNode_list
  end.

(** Lines 744-774.  The block for [labelmapNode_list[3]] and [pre_ADC_Eq_1]
    is commented out in the source and so is absent here. *)
Definition correct_volumesLoad (self : Case)
    (volumesNode_list labelmapNode_list : list (option node_id))
    : M World (list (option node_id)) :=
  volumesNode_list <- correct_view self 0%nat "post_T1_LA" volumesNode_list labelmapNode_list ;;
  volumesNode_list <- correct_view self 1%nat "pre_T1_LA" volumesNode_list labelmapNode_list ;;
  volumesNode_list <- correct_view self 2%nat "post_ADC_Eq_1" volumesNode_list labelmapNode_list ;;
  ret volumesNode_list.

(** The slice node of a view carries the ID ['vtkMRMLSliceNode' + name]. *)
Definition slice_node_id (v : SliceView) : string := "vtkMRMLSliceNode" +:+ view_name v.

Definition update_view (name : string) (f : SliceView -> SliceView) : M World unit :=
  modify (fun w => Scene.set_views w
    (List.map (fun v => if String.eqb (view_name v) name then f v else v) (views w))).

(** The body of the first loop of [_loadImages] (lines 798-810): any failure
    while naming or setting the background is swallowed by the bare except. *)
Definition set_background (self : Case) (iv : Z * string) : M World unit :=
  try_except_all
    (vol <- py_index (volumesLoad self) iv.1 ;;
     match vol with
     | Some v =>
         w <- get ;;
         Scene.print ("Loading Viewer " +:+ iv.2 +:+ " with Background Image " +:+ Scene.GetName w v) ;;
         update_view iv.2 (fun sv => mkSliceView (view_name sv) (Some v) (view_orientation sv))
     | None => raise AttributeError
     end)
    (Scene.print ("Failed Loading Viewer" +:+ iv.2)).

(** The body of the second loop of [_loadImages] (lines 815-847). *)
Definition show_segmentation (self : Case) (iv : Z * SliceView) : M World unit :=
  let i := iv.1 in
  let sliceNode := iv.2 in
  update_view (view_name sliceNode)
    (fun sv => mkSliceView (view_name sv) (view_background sv) "Axial") ;;
  segNode <- py_index (labelVolumesLoad self) i ;;
  vol <- py_index (volumesLoad self) i ;;
  match vol, segNode with
  | None, _ => ret tt
  | Some vol, None =>
      w <- get ;;
      Scene.print ("No segmentation for view " +:+ view_name sliceNode) ;;
      Scene.print ("Making Empty " +:+ Scene.GetName w vol +:+ " Segmentation for view "
                   +:+ view_name sliceNode) ;;
      segNode <- Scene.add_node (SegmentationNode (mkSegmentation "Segmentation" [] None None)) ;;
      Scene.update_segmentation segNode (set_seg_name (Scene.GetName w vol +:+ "_segment")) ;;
      Scene.update_segmentation segNode (set_seg_reference (Some vol)) ;;
      segmentationDisplayNode <- Scene.add_node (SegmentationDisplayNode (mkDisplay true None)) ;;
      Scene.update_segmentation segNode (set_seg_display (Some segmentationDisplayNode)) ;;
      Scene.update_display segmentationDisplayNode (set_only_in_view (Some (slice_node_id sliceNode))) ;;
      Scene.update_segmentation segNode (AddEmptySegment "Target") ;;
      Scene.update_segmentation segNode (AddEmptySegment "Background")
  | Some vol, Some segNode =>
      w <- get ;;
      Scene.print ("For this view: " +:+ view_name sliceNode) ;;
      Scene.print ("Show Exisiting Segment Label: " +:+ Scene.GetName w segNode) ;;
      match Scene.segmentation w segNode ≫= seg_display with
      | Some segmentationDisplayNode =>
          Scene.update_display segmentationDisplayNode (set_visibility true) ;;
          Scene.update_display segmentationDisplayNode
            (set_only_in_view (Some (slice_node_id sliceNode))) ;;
          Scene.update_segmentation segNode (set_seg_reference (Some vol))
      | None => raise AttributeError
      end
  end.

(** Lines 776-870.  Both loops walk the slice views in sorted order: the
    first by view name, the second by slice node ID. *)
Definition _loadImages (h : Host) (self : Case) (subject : string) : M World (Case * bool) :=
  self <- select_placeholder_for_view h self subject ;;
  let self := set_volumesLoad self
    [attrs self !! "post_T1_EA"; attrs self !! "pre_T1_EA";
     attrs self !! "post_ADC"; attrs self !! "pre_ADC"] in
  let self := set_labelVolumesLoad self
    [attrs self !! "post_T1_label"; attrs self !! "pre_T1_label";
     attrs self !! "post_ADC_label"; attrs self !! "pre_ADC_label"] in
  vols <- correct_volumesLoad self (volumesLoad self) (labelVolumesLoad self) ;;
  let self := set_volumesLoad self vols in
  w <- get ;;
  for_each (enumerate (sorted_by id (view_name <$> views w))) (set_background self) ;;
  w <- get ;;
  for_each (enumerate (sorted_by slice_node_id (views w))) (show_segmentation self) ;;
  ret (self, true).

(** What [_getColumnValue] returns: a string, or a list of strings. *)
Inductive ColumnValue :=
| Value (v : string)
| Values (l : list string).

(** The keyword arguments the widget passes to the constructor. *)
Record Settings := mkSettings {
  settings_root : option ColumnValue;
  settings_addIms : option ColumnValue;
  settings_addMas : option ColumnValue;
  settings_csv_dir : option string;
  settings_redirect : bool
}.

(** [SlicerCaseHCCIteratorLogic.__init__] *)
Definition new_Case (h : Host) (subject reader_name : string) (kwargs : Settings)
    : M World Case :=
  let self := mkCase ∅ [] [] subject None (settings_redirect kwargs) [] reader_name in
  r <- _loadImages h self subject ;;
  let self := r.1 in
  (if (r.2 && redirect self)%bool
   then w <- get ;;
        if String.eqb (selectedModule w) "SegmentEditor"
        then ret tt   (* SegmentEditorWidget.enter() *)
        else modify (fun w => Scene.set_selectedModule w "SegmentEditor")
   else ret tt) ;;
  Scene.logger DEBUG ("Case initialized (settings: " +:+ subject +:+ ")") ;;
  ret self.

(** A Python dict with string keys, as the list of its items: storing under
    a key that is present replaces the value in place. *)
Definition dict_set {V} (k : string) (v : V) (d : list (string * V)) : list (string * V) :=
  if existsb (fun p => String.eqb p.1 k) d
  then List.map (fun p => if String.eqb p.1 k then (k, v) else p) d
  else d ++ [(k, v)].

Definition dict_has_key {V} (k : string) (d : list (string * V)) : bool :=
  existsb (fun p => String.eqb p.1 k) d.

(** [str + x] where [x] may be [None]. *)
Definition str_add {St} (a : string) (b : option string) : M St string :=
  match b with
  | Some b => ret (a +:+ b)
  | None => raise TypeError
  end.

(** [slicer.util.arrayFromSegment(node, node.GetSegmentation().GetNthSegmentID(0))]:
    without a first segment, or without voxels in it, the host raises
    [AttributeError]. *)
Definition arrayFromSegment_first (node : node_id) : M World ndarray :=
  w <- get ;;
  match Scene.segmentation w node with
  | Some s =>
      match seg_segments s with
      | sg :: _ =>
          match segment_voxels sg with
          | Some a => ret (Array a)
          | None => raise AttributeError
          end
      | [] => raise AttributeError
      end
  | None => raise AttributeError
  end.

(** [node.GetNodeReference(node.GetReferenceImageGeometryReferenceRole())]:
    the referenced volume if it is still in the scene. *)
Definition masterVolumeNode_of (w : World) (node : node_id) : option node_id :=
  r ← Scene.segmentation w node ≫= seg_reference ;
  match Scene.lookup w r with
  | Some (ScalarVolumeNode _ _) => Some r
  | _ => None
  end.

(** The body of the loop of [_saveMasks] (lines 1028-1071), for one item of
    [nodes.iteritems()].  The local
    variable [name] survives from one iteration to the next; [None] is the
    variable before its first assignment. *)
Definition save_mask (folder : string) (reader_name : option string)
    (name : option string) (item : string * node_id) : M World (option string) :=
  let nodename := item.1 in
  let node := item.2 in
  segment_array <- try_except (arrayFromSegment_first node) AttributeError
    (Scene.print "AttributeError" ;;
     Scene.print "Could Not Calculate Array For First Segment Because It's Empty --> Not Saving" ;;
     ret (Scalar 0)) ;;
  if is_zero (np_mean segment_array) then ret name
  else
    w <- get ;;
    let masterVolumeNode := masterVolumeNode_of w node in
    Scene.print nodename ;;
    name <- match masterVolumeNode with
            | Some mv => ret (Some (Scene.GetName w mv))
            | None =>
                Scene.print "PLEASE ADD THE CORRECT MASTER VOLUME TO AN EXTRA SEGMENT THAT WAS LOADED (LIKELY ADC_EQ_1)" ;;
                ret name
            end ;;
    name <- match reader_name with
            | Some r =>
                match name with
                | Some n => ret (Some (n +:+ "_tumor_" +:+ r))
                | None => raise UnboundLocalError
                end
            | None => ret name
            end ;;
    filename <- match name with
                | Some n => ret (path_join folder n)
                | None => raise UnboundLocalError
                end ;;
    labelmapVolumeNode <- Scene.add_node (LabelMapVolumeNode "LabelMapVolume" (Some node)) ;;
    let filename := filename +:+ ".nii.gz" in
    Scene.print ("About to save " +:+ filename +:+ " as label map from segment") ;;
    modify (fun w => Scene.add_written w (mkSavedFile filename labelmapVolumeNode node)) ;;
    Scene.logger INFO ("Saved node in " +:+ filename) ;;
    ret name.

(** [_saveMasks]: [nodes] is the sequence that [nodes.iteritems()] yields. *)
Definition _saveMasks (nodes : list (string * node_id)) (folder : string)
    (reader_name : option string) : M World unit :=
  for_fold nodes (save_mask folder reader_name) None ;;
  ret tt.

(** [self.image_root]; the attribute exists once [load_data_to_placeholders]
    has run. *)
Definition get_image_root {St} (self : Case) : M St string :=
  match image_root self with
  | Some d => ret d
  | None => raise AttributeError
  end.

(** The two dictionaries of [closeCase] (lines 973-975), as the lists of
    their items in insertion order. *)
Definition loaded_masks_of (w : World) (self : Case) : list (string * node_id) :=
  List.fold_left (fun d kv => dict_set (Scene.GetName w kv.2) kv.2 d) (mask_nodes self) [].
Definition new_masks_of (w : World) (self : Case) : list (string * node_id) :=
  List.fold_left
    (fun d ns => if dict_has_key (seg_name ns.2) (loaded_masks_of w self) then d
                 else dict_set (seg_name ns.2) ns.1 d)
    (Scene.segmentation_nodes w) [].

(** Lines 965-996, run by a host that holds the scene in a state [St]:
    [lift] runs a scene operation there, and [observers] is what the
    observers of the scene's end-of-close event do.
    [slicer.mrmlScene.Clear(0)] raises that event before it returns, so the
    observers run after the scene is cleared and before the view node is
    added.  [reader_name] is a string or [None]. *)
Definition closeCase_observed {St} (lift : forall A, M World A -> M St A)
    (observers : M St unit) (h : Host) (self : Case)
    (save_loaded_masks save_new_masks : bool) (reader_name : option string) : M St unit :=
  lift _
    (let reader_name := if bool_decide (reader_name = Some "") then None else reader_name in
     msg <- str_add "Saving Segmentations for " reader_name ;;
     Scene.print msg ;;
     w <- get ;;
     let loaded_masks := loaded_masks_of w self in
     let new_masks := new_masks_of w self in
     (if save_loaded_masks
      then if Nat.eqb (List.length loaded_masks) 0
           then Scene.logger DEBUG "No loaded masks to save..."
           else Scene.logger INFO "Saving %d loaded masks..." ;;
                folder <- get_image_root self ;;
                _saveMasks (iteritems h loaded_masks) folder reader_name
      else ret tt) ;;
     (if save_new_masks
      then if Nat.eqb (List.length new_masks) 0
           then Scene.logger DEBUG "No new masks to save..."
           else Scene.logger INFO "Saving %d new masks..." ;;
                folder <- get_image_root self ;;
                _saveMasks (iteritems h new_masks) folder reader_name
      else ret tt) ;;
     (* SegmentEditorWidget.exit(): nothing of the modelled state changes *)
     Scene.clear) ;;
  observers ;;
  lift _ (Scene.add_node ViewNode) ;;
  ret tt.

(** [closeCase] on a scene that nothing observes. *)
Definition closeCase (h : Host) (self : Case) (save_loaded_masks save_new_masks : bool)
    (reader_name : option string) : M World unit :=
  closeCase_observed (fun _ c => c) (ret tt) h self save_loaded_masks save_new_masks
    reader_name.

(* ===================================================================== *)
(** ** SlicerCaseIteratorWidget *)
(* ===================================================================== *)

(** The batch table: the directory of the file it was read from (if it came
    from a file), its number of rows and its named columns. *)
Record Table := mkTable {
  table_dir : option string;
  table_rows : Z;
  table_columns : list (string * list string)
}.

(** A value of the dictionary [caseColumns]: one column, or a list of them
    (keys ['addIms'] and ['addMas']). *)
Inductive ColumnEntry :=
| OneColumn (values : list string)
| ColumnList (columns : list (list string)).

(** The widgets the user edits and the code only reads. *)
Record Inputs := mkInputs {
  npStart : Z;                       (* QSpinBox, minimum 1, maximum 999999 *)
  rootSelector_text : string;
  imageSelector_text : string;
  maskSelector_text : string;
  addImsSelector_text : string;
  addMasksSelector_text : string;
  txtReaderName_text : string;
  chkAutoRedirect : bool;
  chkSaveMasks : bool;
  chkSaveNewMasks : bool
}.

(** The widget properties the code writes. *)
Record Gui := mkGui {
  previousButton_enabled : bool;
  nextButton_enabled : bool;
  nextButton_text : string;
  resetButton_enabled : bool;
  resetButton_text : string;
  inputDataCollapsibleButton_collapsed : bool;
  parametersCollapsibleButton_collapsed : bool;
  inputPathSelector_enabled : bool;
  loadBatchButton_enabled : bool;
  batchTableSelector_enabled : bool;
  batchTableView_enabled : bool;
  inputParametersGroupBox_enabled : bool
}.

Definition gui_previousButton_enabled (x : bool) (g : Gui) : Gui :=
  mkGui x (nextButton_enabled g) (nextButton_text g) (resetButton_enabled g) (resetButton_text g) (inputDataCollapsibleButton_collapsed g) (parametersCollapsibleButton_collapsed g) (inputPathSelector_enabled g) (loadBatchButton_enabled g) (batchTableSelector_enabled g) (batchTableView_enabled g) (inputParametersGroupBox_enabled g).
Definition gui_nextButton_enabled (x : bool) (g : Gui) : Gui :=
  mkGui (previousButton_enabled g) x (nextButton_text g) (resetButton_enabled g) (resetButton_text g) (inputDataCollapsibleButton_collapsed g) (parametersCollapsibleButton_collapsed g) (inputPathSelector_enabled g) (loadBatchButton_enabled g) (batchTableSelector_enabled g) (batchTableView_enabled g) (inputParametersGroupBox_enabled g).
Definition gui_nextButton_text (x : string) (g : Gui) : Gui :=
  mkGui (previousButton_enabled g) (nextButton_enabled g) x (resetButton_enabled g) (resetButton_text g) (inputDataCollapsibleButton_collapsed g) (parametersCollapsibleButton_collapsed g) (inputPathSelector_enabled g) (loadBatchButton_enabled g) (batchTableSelector_enabled g) (batchTableView_enabled g) (inputParametersGroupBox_enabled g).
Definition gui_resetButton_enabled (x : bool) (g : Gui) : Gui :=
  mkGui (previousButton_enabled g) (nextButton_enabled g) (nextButton_text g) x (resetButton_text g) (inputDataCollapsibleButton_collapsed g) (parametersCollapsibleButton_collapsed g) (inputPathSelector_enabled g) (loadBatchButton_enabled g) (batchTableSelector_enabled g) (batchTableView_enabled g) (inputParametersGroupBox_enabled g).
Definition gui_resetButton_text (x : string) (g : Gui) : Gui :=
  mkGui (previousButton_enabled g) (nextButton_enabled g) (nextButton_text g) (resetButton_enabled g) x (inputDataCollapsibleButton_collapsed g) (parametersCollapsibleButton_collapsed g) (inputPathSelector_enabled g) (loadBatchButton_enabled g) (batchTableSelector_enabled g) (batchTableView_enabled g) (inputParametersGroupBox_enabled g).
Definition gui_inputDataCollapsibleButton_collapsed (x : bool) (g : Gui) : Gui :=
  mkGui (previousButton_enabled g) (nextButton_enabled g) (nextButton_text g) (resetButton_enabled g) (resetButton_text g) x (parametersCollapsibleButton_collapsed g) (inputPathSelector_enabled g) (loadBatchButton_enabled g) (batchTableSelector_enabled g) (batchTableView_enabled g) (inputParametersGroupBox_enabled g).
Definition gui_parametersCollapsibleButton_collapsed (x : bool) (g : Gui) : Gui :=
  mkGui (previousButton_enabled g) (nextButton_enabled g) (nextButton_text g) (resetButton_enabled g) (resetButton_text g) (inputDataCollapsibleButton_collapsed g) x (inputPathSelector_enabled g) (loadBatchButton_enabled g) (batchTableSelector_enabled g) (batchTableView_enabled g) (inputParametersGroupBox_enabled g).
Definition gui_inputPathSelector_enabled (x : bool) (g : Gui) : Gui :=
  mkGui (previousButton_enabled g) (nextButton_enabled g) (nextButton_text g) (resetButton_enabled g) (resetButton_text g) (inputDataCollapsibleButton_collapsed g) (parametersCollapsibleButton_collapsed g) x (loadBatchButton_enabled g) (batchTableSelector_enabled g) (batchTableView_enabled g) (inputParametersGroupBox_enabled g).
Definition gui_loadBatchButton_enabled (x : bool) (g : Gui) : Gui :=
  mkGui (previousButton_enabled g) (nextButton_enabled g) (nextButton_text g) (resetButton_enabled g) (resetButton_text g) (inputDataCollapsibleButton_collapsed g) (parametersCollapsibleButton_collapsed g) (inputPathSelector_enabled g) x (batchTableSelector_enabled g) (batchTableView_enabled g) (inputParametersGroupBox_enabled g).
Definition gui_batchTableSelector_enabled (x : bool) (g : Gui) : Gui :=
  mkGui (previousButton_enabled g) (nextButton_enabled g) (nextButton_text g) (resetButton_enabled g) (resetButton_text g) (inputDataCollapsibleButton_collapsed g) (parametersCollapsibleButton_collapsed g) (inputPathSelector_enabled g) (loadBatchButton_enabled g) x (batchTableView_enabled g) (inputParametersGroupBox_enabled g).
Definition gui_batchTableView_enabled (x : bool) (g : Gui) : Gui :=
  mkGui (previousButton_enabled g) (nextButton_enabled g) (nextButton_text g) (resetButton_enabled g) (resetButton_text g) (inputDataCollapsibleButton_collapsed g) (parametersCollapsibleButton_collapsed g) (inputPathSelector_enabled g) (loadBatchButton_enabled g) (batchTableSelector_enabled g) x (inputParametersGroupBox_enabled g).
Definition gui_inputParametersGroupBox_enabled (x : bool) (g : Gui) : Gui :=
  mkGui (previousButton_enabled g) (nextButton_enabled g) (nextButton_text g) (resetButton_enabled g) (resetButton_text g) (inputDataCollapsibleButton_collapsed g) (parametersCollapsibleButton_collapsed g) (inputPathSelector_enabled g) (loadBatchButton_enabled g) (batchTableSelector_enabled g) (batchTableView_enabled g) x.

Record Widget := mkWidget {
  csv_dir : option string;
  tableNode : option Table;
  caseColumns : option (gmap string ColumnEntry);
  currentCase : option Case;
  caseCount : Z;
  currentIdx : Z;
  shortcuts : list string;
  observers : list string;
  batchTableSelector_currentNode : option Table;
  inputs : Inputs;
  gui : Gui;
  world : World
}.

Definition set_csv_dir (x : option string) (self : Widget) : Widget :=
  mkWidget x (tableNode self) (caseColumns self) (currentCase self) (caseCount self) (currentIdx self) (shortcuts self) (observers self) (batchTableSelector_currentNode self) (inputs self) (gui self) (world self).
Definition set_tableNode (x : option Table) (self : Widget) : Widget :=
  mkWidget (csv_dir self) x (caseColumns self) (currentCase self) (caseCount self) (currentIdx self) (shortcuts self) (observers self) (batchTableSelector_currentNode self) (inputs self) (gui self) (world self).
Definition set_caseColumns (x : option (gmap string ColumnEntry)) (self : Widget) : Widget :=
  mkWidget (csv_dir self) (tableNode self) x (currentCase self) (caseCount self) (currentIdx self) (shortcuts self) (observers self) (batchTableSelector_currentNode self) (inputs self) (gui self) (world self).
Definition set_currentCase (x : option Case) (self : Widget) : Widget :=
  mkWidget (csv_dir self) (tableNode self) (caseColumns self) x (caseCount self) (currentIdx self) (shortcuts self) (observers self) (batchTableSelector_currentNode self) (inputs self) (gui self) (world self).
Definition set_caseCount (x : Z) (self : Widget) : Widget :=
  mkWidget (csv_dir self) (tableNode self) (caseColumns self) (currentCase self) x (currentIdx self) (shortcuts self) (observers self) (batchTableSelector_currentNode self) (inputs self) (gui self) (world self).
Definition set_currentIdx (x : Z) (self : Widget) : Widget :=
  mkWidget (csv_dir self) (tableNode self) (caseColumns self) (currentCase self) (caseCount self) x (shortcuts self) (observers self) (batchTableSelector_currentNode self) (inputs self) (gui self) (world self).
Definition set_shortcuts (x : list string) (self : Widget) : Widget :=
  mkWidget (csv_dir self) (tableNode self) (caseColumns self) (currentCase self) (caseCount self) (currentIdx self) x (observers self) (batchTableSelector_currentNode self) (inputs self) (gui self) (world self).
Definition set_observers (x : list string) (self : Widget) : Widget :=
  mkWidget (csv_dir self) (tableNode self) (caseColumns self) (currentCase self) (caseCount self) (currentIdx self) (shortcuts self) x (batchTableSelector_currentNode self) (inputs self) (gui self) (world self).
Definition set_batchTableSelector_currentNode (x : option Table) (self : Widget) : Widget :=
  mkWidget (csv_dir self) (tableNode self) (caseColumns self) (currentCase self) (caseCount self) (currentIdx self) (shortcuts self) (observers self) x (inputs self) (gui self) (world self).
Definition set_gui (x : Gui) (self : Widget) : Widget :=
  mkWidget (csv_dir self) (tableNode self) (caseColumns self) (currentCase self) (caseCount self) (currentIdx self) (shortcuts self) (observers self) (batchTableSelector_currentNode self) (inputs self) x (world self).
Definition set_world (x : World) (self : Widget) : Widget :=
  mkWidget (csv_dir self) (tableNode self) (caseColumns self) (currentCase self) (caseCount self) (currentIdx self) (shortcuts self) (observers self) (batchTableSelector_currentNode self) (inputs self) (gui self) x.

(** The user's edits of the input widgets. *)
Definition set_inputs (x : Inputs) (self : Widget) : Widget :=
  mkWidget (csv_dir self) (tableNode self) (caseColumns self) (currentCase self)
           (caseCount self) (currentIdx self) (shortcuts self) (observers self)
           (batchTableSelector_currentNode self) x (gui self) (world self).
Definition set_txtReaderName_text (x : string) (i : Inputs) : Inputs :=
  mkInputs (npStart i) (rootSelector_text i) (imageSelector_text i) (maskSelector_text i)
           (addImsSelector_text i) (addMasksSelector_text i) x
           (chkAutoRedirect i) (chkSaveMasks i) (chkSaveNewMasks i).

Definition lift_world {A} (c : M World A) : M Widget A :=
  fun self => match c (world self) with
              | (r, w) => (r, set_world w self)
              end.

Definition widget_log (l : Level) (msg : string) : M Widget unit :=
  lift_world (Scene.logger l msg).

(** [batchTable.GetColumnByName(name)] *)
Definition GetColumnByName (t : Table) (name : string) : option (list string) :=
  snd <$> List.find (fun c => String.eqb c.1 name) (table_columns t).

(** [column.GetValue(idx)] *)
Definition GetValue (column : list string) (idx : Z) : string :=
  List.nth (Z.to_nat idx) column "".

(** The widget as [setup] leaves it (lines 72-83, 146-274), around a given
    table selection and host state. *)
Definition default_inputs : Inputs :=
  mkInputs 1 "path" "image" "mask" "" "" "" true true true.

Definition setup (table : option Table) (w : World) : Widget :=
  mkWidget None None None None 0 (-1) [] [] table default_inputs
    (mkGui false false "Next Case" (bool_decide (is_Some table)) "Start Batch"
           false false true true true true true)
    w.

Definition modify_gui (f : Gui -> Gui) : M Widget unit :=
  modify (fun self => set_gui (f (gui self)) self).

(** Lines 503-555 *)
Definition _setGUIstate (csv_loaded : bool) : M Widget unit :=
  (if csv_loaded
   then
     modify_gui (gui_resetButton_text "Reset") ;;
     modify_gui (gui_inputDataCollapsibleButton_collapsed true) ;;
     modify_gui (gui_parametersCollapsibleButton_collapsed true) ;;
     self <- get ;;
     (if Nat.eqb (List.length (shortcuts self)) 0
      then modify (fun self => set_shortcuts (shortcuts self ++ ["Ctrl+N"]) self) ;;
           modify (fun self => set_shortcuts (shortcuts self ++ ["Ctrl+P"]) self)
      else widget_log WARNING "Shortcuts already initialized!") ;;
     self <- get ;;
     (if Nat.eqb (List.length (observers self)) 0
      then modify (fun self => set_observers (observers self ++ ["EndCloseEvent"]) self)
      else widget_log WARNING "Event observer already initialized!")
   else
     self <- get ;;
     modify_gui (gui_resetButton_enabled (bool_decide (is_Some (batchTableSelector_currentNode self)))) ;;
     modify_gui (gui_resetButton_text "Start Batch") ;;
     modify (set_shortcuts []) ;;
     modify (set_observers [])) ;;
  modify_gui (gui_previousButton_enabled csv_loaded) ;;
  modify_gui (gui_nextButton_enabled csv_loaded) ;;
  modify_gui (gui_inputPathSelector_enabled (negb csv_loaded)) ;;
  modify_gui (gui_loadBatchButton_enabled (negb csv_loaded)) ;;
  modify_gui (gui_batchTableSelector_enabled (negb csv_loaded)) ;;
  modify_gui (gui_batchTableView_enabled (negb csv_loaded)) ;;
  modify_gui (gui_inputParametersGroupBox_enabled (negb csv_loaded)).

(** "Lock GUI during loading" and "Unlock GUI" *)
Definition lock_gui : M Widget unit :=
  modify_gui (gui_previousButton_enabled false) ;;
  modify_gui (gui_nextButton_enabled false) ;;
  modify_gui (gui_resetButton_enabled false) ;;
  modify_gui (gui_nextButton_text "Loading...").
Definition unlock_gui : M Widget unit :=
  modify_gui (gui_previousButton_enabled true) ;;
  modify_gui (gui_nextButton_enabled true) ;;
  modify_gui (gui_resetButton_enabled true) ;;
  modify_gui (gui_nextButton_text "Next Case").

(** [self.caseColumns[key] = value]; the dictionary exists when this runs. *)
Definition set_column (key : string) (v : ColumnEntry) : M Widget unit :=
  modify (fun self => set_caseColumns (insert key v <$> caseColumns self) self).

(** The blocks of [_startBatch] for the root, image and mask columns. *)
Definition find_column (t : Table) (text key : string) : M Widget unit :=
  if negb (String.eqb text "")
  then match GetColumnByName t text with
       | Some column => set_column key (OneColumn column)
       | None => widget_log WARNING "Unable to find column %s"
       end
  else ret tt.

(** The blocks of [_startBatch] for the comma-separated column lists. *)
Definition find_columns (t : Table) (text key : string) : M Widget unit :=
  if negb (String.eqb text "")
  then
    addIms <- for_fold (PyStr.split_comma text)
      (fun addIms addIm =>
         match GetColumnByName t (PyStr.strip addIm) with
         | Some column => ret (addIms ++ [column])
         | None => widget_log WARNING "Unable to find column %s" ;; ret addIms
         end) [] ;;
    if Nat.ltb 0 (List.length addIms) then set_column key (ColumnList addIms) else ret tt
  else ret tt.

(** Lines 429-500 *)
Definition _startBatch (start : Z) : M Widget bool :=
  modify (set_caseColumns (Some ∅)) ;;
  modify (fun self => set_tableNode (batchTableSelector_currentNode self) self) ;;
  self <- get ;;
  match tableNode self with
  | None => raise AttributeError
  | Some batchTable =>
      modify (set_csv_dir (table_dir batchTable)) ;;
      modify (set_caseCount (table_rows batchTable)) ;;
      self <- get ;;
      if caseCount self <? start
      then widget_log WARNING "No cases to process (%d cases, start %d)" ;; ret false
      else
        let patientColumn := GetColumnByName batchTable "patient" in
        let patientColumn := match patientColumn with
                             | None => GetColumnByName batchTable "ID"
                             | some => some
                             end in
        match patientColumn with
        | Some column => set_column "patient" (OneColumn column)
        | None => ret tt
        end ;;
        find_column batchTable (rootSelector_text (inputs self)) "root" ;;
        find_column batchTable (imageSelector_text (inputs self)) "image" ;;
        find_column batchTable (maskSelector_text (inputs self)) "mask" ;;
        find_columns batchTable (addImsSelector_text (inputs self)) "addIms" ;;
        find_columns batchTable (addMasksSelector_text (inputs self)) "addMas" ;;
        _setGUIstate true ;;
        modify (set_currentIdx (start - 1)) ;;
        ret true
  end.

(** Line 311-313 *)
Definition onChangeTable : M Widget unit :=
  self <- get ;;
  modify_gui (gui_resetButton_enabled (bool_decide (is_Some (batchTableSelector_currentNode self)))).

(** Lines 330-337.  The table node goes back into the scene; setting the
    selector's node raises its change signal. *)
Definition onEndClose : M Widget unit :=
  self <- get ;;
  (match currentCase self with
   | Some _ => modify (set_currentCase None) ;; widget_log INFO "case closed"
   | None => ret tt
   end) ;;
  match tableNode self with
  | Some t =>
      lift_world (Scene.add_node TableNode) ;;
      modify (set_batchTableSelector_currentNode (Some t)) ;;
      onChangeTable
  | None => ret tt
  end.

(** What the widget does when [slicer.mrmlScene.Clear(0)] has emptied the
    scene: the table node left the scene with all other nodes, so the
    selector loses it, and the observers of the end-of-close event run. *)
Definition scene_cleared : M Widget unit :=
  modify (set_batchTableSelector_currentNode None) ;;
  onChangeTable ;;
  self <- get ;;
  for_each (observers self) (fun _ => onEndClose).

(** Lines 419-426.  [None] is the Python [None]. *)
Definition _getColumnValue (self : Widget) (colName : string) (is_list : bool)
    : M Widget (option ColumnValue) :=
  match caseColumns self with
  | None => raise TypeError
  | Some columns =>
      match columns !! colName with
      | None => ret None
      | Some entry =>
          if is_list
          then match entry with
               | ColumnList l => ret (Some (Values ((fun col => GetValue col (currentIdx self)) <$> l)))
               | OneColumn _ => raise TypeError
               end
          else match entry with
               | OneColumn column => ret (Some (Value (GetValue column (currentIdx self))))
               | ColumnList _ => raise AttributeError
               end
      end
  end.

(** Lines 340-416.  Log entries carry the format string; its arguments are
    not interpolated. *)
Definition loadCase (h : Host) (idx_change : Z) : M Widget unit :=
  self <- get ;;
  if currentIdx self <? 0 then ret tt
  else if currentIdx self + idx_change <? 0
  then widget_log WARNING "First case selected, cannot select previous case!"
  else
    (match currentCase self with
     | Some case =>
         closeCase_observed (@lift_world) scene_cleared h case
           (chkSaveMasks (inputs self)) (chkSaveNewMasks (inputs self))
           (Some (txtReaderName_text (inputs self)))
     | None => ret tt
     end) ;;
    modify (fun self => set_currentIdx (currentIdx self + idx_change) self) ;;
    self <- get ;;
    if currentIdx self >=? caseCount self
    then
      _setGUIstate false ;;
      modify (set_currentIdx (-1)) ;;
      modify (set_tableNode None) ;;
      widget_log INFO "########## All Done! ##########"
    else
      lock_gui ;;
      self <- get ;;
      patient <- match caseColumns self with
                 | None => raise TypeError
                 | Some columns =>
                     match columns !! "patient" with
                     | Some (OneColumn column) =>
                         widget_log INFO "Loading next patient (%d/%d): %s..." ;;
                         ret (Some (GetValue column (currentIdx self)))
                     | _ =>
                         widget_log INFO "Loading next patient (%d/%d)..." ;;
                         ret None
                     end
                 end ;;
      root <- _getColumnValue self "root" false ;;
      let root := match root with
                  | None => if negb (String.eqb (rootSelector_text (inputs self)) "")
                            then Some (Value (rootSelector_text (inputs self))) else None
                  | some => some
                  end in
      addIms <- _getColumnValue self "addIms" true ;;
      addMas <- _getColumnValue self "addMas" true ;;
      let settings := mkSettings root addIms addMas
                                 (csv_dir self) (chkAutoRedirect (inputs self)) in
      patient <- match patient with
                 | Some p => ret p
                 | None => raise UnboundLocalError
                 end ;;
      case <- lift_world (new_Case h patient (txtReaderName_text (inputs self)) settings) ;;
      modify (set_currentCase (Some case)) ;;
      unlock_gui ;;
      lift_world (Scene.print ("Patient: " +:+ PyStr.basename patient)).

(** Lines 294-308 *)
Definition onReset (h : Host) : M Widget unit :=
  self <- get ;;
  if currentIdx self <? 0
  then
    lock_gui ;;
    started <- _startBatch (npStart (inputs self)) ;;
    if started then loadCase h 0 else ret tt
  else
    _setGUIstate false ;;
    modify (set_currentCase None) ;;
    modify (set_caseColumns None) ;;
    modify (set_currentIdx (-1)).

(** Lines 316-327 *)
Definition onPrevious (h : Host) : M Widget unit :=
  self <- get ;;
  if currentIdx self <? 0 then ret tt else loadCase h (-1).

Definition onNext (h : Host) : M Widget unit :=
  self <- get ;;
  if currentIdx self <? 0 then ret tt else loadCase h 1.

(** Lines 277-282 *)
Definition cleanup : M Widget unit :=
  self <- get ;;
  if 0 <=? currentIdx self
  then
    _setGUIstate false ;;
    modify (set_currentCase None) ;;
    modify (set_caseColumns None) ;;
    modify (set_currentIdx (-1))
  else ret tt.

(* ===================================================================== *)
(** ** Concrete hosts, scenes and tables *)
(* ===================================================================== *)

(** A host with a single subject directory.  Volumes are named after the
    file, without [.nii.gz]; every label file holds one segment with four
    voxels, two of them set.  Its dicts are walked in insertion order; the
    statements at concrete inputs walk dicts of at most one item, where
    every order is this one. *)
Definition host_of (dir : string) (files : list string) : Host :=
  mkHost (fun d => if String.eqb d dir then Some files else None)
         (fun p => let b := PyStr.basename p in PyStr.slice_to b (PyStr.find ".nii.gz" b))
         (fun _ => [mkSegment "Segment_1" (Some [0; 1; 1; 0])])
         (fun d => d)
         (fun d => Permutation_refl d).

(** The four slice views of the two-over-two layout, and the scene before
    anything is loaded. *)
Definition four_views : list SliceView :=
  [mkSliceView "Red" None ""; mkSliceView "Yellow" None "";
   mkSliceView "Slice4" None ""; mkSliceView "Slice5" None ""].
Definition empty_world : World := mkWorld [] 0%nat four_views "" [] [].

(** The case object as [__init__] has it before [_loadImages] runs. *)
Definition blank_case (subject reader_name : string) : Case :=
  mkCase ∅ [] [] subject None true [] reader_name.

Definition no_settings : Settings := mkSettings None None None None true.

(** A batch table with a [patient] column. *)
Definition table_of (patients : list string) : Table :=
  mkTable None (Z.of_nat (List.length patients)) [("patient", patients)].

(** A widget in an active batch of two rows, with the cursor on row 0. *)
Definition first_row_widget : Widget :=
  set_currentIdx 0 (set_caseCount 2 (setup (Some (table_of ["/data/s1"; "/data/s2"]))
                                           empty_world)).

(** A scene with one loaded volume, and a case whose pre-T1 view has that
    volume and no label. *)
Definition one_volume_world : World :=
  mkWorld [(0%nat, ScalarVolumeNode "pre_T1_EA" "/data/s1/pre_T1_EA.nii.gz")]
          1%nat four_views "" [] [].
Definition one_volume_case : Case :=
  mkCase {["pre_T1_EA" := 0%nat]} [None; Some 0%nat; None; None] [None; None; None; None]
         "/data/s1" (Some "/data/s1") true [] "r".


(* ===================================================================== *)
(** ** Vocabulary of the statements *)
(* ===================================================================== *)

(** The series whose volume attribute is assigned for a given count, read
    off the dictionary [images]. *)
Definition series_of_count (count : Z) : option string :=
  fst <$> List.find (fun jc => jc.2 =? count) images.

(** The label attribute that a label of a given count is assigned to (lines
    685-696); labels of the other ten counts are assigned to none. *)
Definition label_attr (count : Z) : option string :=
  if py_in count [1; 3] then Some "pre_T1_label"
  else if py_in count [9; 11] then Some "post_T1_label"
  else if py_in count [15; 16] then Some "post_ADC_label"
  else if py_in count [7; 17] then Some "pre_ADC_label"
  else None.

(** The four label attributes of the case object. *)
Definition label_attrs : list string :=
  ["pre_T1_label"; "post_T1_label"; "post_ADC_label"; "pre_ADC_label"].

(** The counts a file name contributes for a family of patterns, over a
    table of series. *)
Definition file_counts (pattern : string -> string) (file_name : string)
    (l : list (string * Z)) : list Z :=
  flat_map (fun jc => if PyStr.contains (pattern jc.1) file_name then [jc.2] else []) l.

(** The first segment's voxel array, if the node is a segmentation in the
    scene that has one. *)
Definition first_segment_array (w : World) (node : node_id) : option (list Z) :=
  s ← Scene.segmentation w node ;
  sg ← head (seg_segments s) ;
  segment_voxels sg.

(** "Mean value exactly zero, or not readable at all". *)
Definition blank (w : World) (node : node_id) : Prop :=
  match first_segment_array w node with
  | Some a => is_zero (np_mean (Array a)) = true
  | None => True
  end.

(** Identifiers handed out so far are below [next_id]. *)
Definition fresh (w : World) : Prop :=
  Forall (fun p => (p.1 < next_id w)%nat) (nodes w).

(** The cursor is unset, or points at a row of the batch table. *)
Definition cursor_ok (self : Widget) : Prop :=
  currentIdx self = -1 \/ 0 <= currentIdx self < caseCount self.

(** The state "no batch loaded": what [_setGUIstate(csv_loaded=False)] and
    the reset of the cursor establish. *)
Definition no_batch (self : Widget) : Prop :=
  currentIdx self = -1 /\ shortcuts self = [] /\ observers self = [] /\
  previousButton_enabled (gui self) = false /\ nextButton_enabled (gui self) = false /\
  resetButton_text (gui self) = "Start Batch" /\
  inputPathSelector_enabled (gui self) = true /\ loadBatchButton_enabled (gui self) = true /\
  batchTableSelector_enabled (gui self) = true /\ batchTableView_enabled (gui self) = true /\
  inputParametersGroupBox_enabled (gui self) = true.

(** A widget computation that leaves the cursor and the case count as they
    are, however it ends. *)
Definition keeps {A} (c : M Widget A) : Prop :=
  forall s, currentIdx (c s).2 = currentIdx s /\ caseCount (c s).2 = caseCount s.

(** Hoare triples for the monad: [Q] on normal return, [E] when an exception
    leaves the computation. *)
Definition triple {St A} (P : St -> Prop) (c : M St A)
    (Q : A -> St -> Prop) (E : St -> Prop) : Prop :=
  forall s, P s ->
    match c s with
    | (Ok a, s') => Q a s'
    | (Raise _, s') => E s'
    end.

(* ===================================================================== *)
(** ** Further source functions and vocabulary *)
(* ===================================================================== *)

(** [getNameVolumeNode] (lines 1018-1022), on the file name that the
    volume's storage node reports. *)
Definition getNameVolumeNode (volName : string) : string :=
  let volbasename := PyStr.basename volName in
  PyStr.slice_to volbasename (PyStr.find ".nii.gz" volbasename).

(** A computation that leaves a component [f] of the state as it is,
    however it ends. *)
Definition preserves {St X A} (f : St -> X) (c : M St A) : Prop :=
  forall s, f (c s).2 = f s.

(** All but the last character: what [s[:-1]] is. *)
Definition drop_last (s : string) : string :=
  PyStr.take (String.length s - 1) s.

(** The entries of [caseColumns] have the shape [_startBatch] gives them:
    single columns under ['patient'], ['root'], ['image'], ['mask'], lists of
    columns under ['addIms'] and ['addMas']. *)
Definition columns_ok (columns : gmap string ColumnEntry) : Prop :=
  (forall k l, columns !! k = Some (ColumnList l) -> k = "addIms" \/ k = "addMas") /\
  (forall k c, columns !! k = Some (OneColumn c) -> k <> "addIms" /\ k <> "addMas").

(** The GUI while a case is being loaded (lines 372-376). *)
Definition gui_locked (g : Gui) : Prop :=
  previousButton_enabled g = false /\ nextButton_enabled g = false /\
  resetButton_enabled g = false /\ nextButton_text g = "Loading...".

(** The shortcuts and the observer of an active batch (lines 511-531). *)
Definition registered (self : Widget) : Prop :=
  shortcuts self = ["Ctrl+N"; "Ctrl+P"] /\ observers self = ["EndCloseEvent"].

(** What [_saveMasks] appends to the reader-less name. *)
Definition reader_suffix (reader_name : option string) : string :=
  match reader_name with
  | Some r => "_tumor_" +:+ r
  | None => EmptyString
  end.

(** The path [_saveMasks] writes a segmentation to, when it has a master
    volume. *)
Definition save_path (w : World) (folder : string) (reader_name : option string)
    (node : node_id) : option string :=
  mv ← masterVolumeNode_of w node ;
  Some (path_join folder (Scene.GetName w mv +:+ reader_suffix reader_name) +:+ ".nii.gz").

(** The files a save of [items] is expected to write, the first labelmap
    node getting the identifier [k]. *)
Fixpoint expected_files (w : World) (folder : string) (reader_name : option string)
    (k : node_id) (items : list (string * node_id)) : list SavedFile :=
  match items with
  | [] => []
  | item :: rest =>
      match save_path w folder reader_name item.2 with
      | Some p => [mkSavedFile p k item.2]
      | None => []
      end ++ expected_files w folder reader_name (S k) rest
  end.

(** A segmentation that [_saveMasks] saves without trouble: its first
    segment is not blank and its master volume is in the scene. *)
Definition savable (w : World) (node : node_id) : Prop :=
  ~ blank w node /\ is_Some (masterVolumeNode_of w node).

Definition is_labelmap (p : node_id * Node) : Prop :=
  match p.2 with
  | LabelMapVolumeNode _ _ => True
  | _ => False
  end.

(** A scene with one volume and two drawn segmentations bound to it. *)
Definition two_masks_world : World :=
  mkWorld [(0%nat, ScalarVolumeNode "pre_T1_EA" "/data/s1/pre_T1_EA.nii.gz");
           (1%nat, SegmentationNode
                     (mkSegmentation "pre_T1_EA_segment"
                        [mkSegment "Target" (Some [0; 1; 1; 0])] None (Some 0%nat)));
           (2%nat, SegmentationNode
                     (mkSegmentation "second_segment"
                        [mkSegment "Target" (Some [1; 1; 0; 0])] None (Some 0%nat)))]
          3%nat four_views "" [] [].

(** The case object a run of the constructor returned; the blank case if it
    raised. *)
Definition new_Case_result (h : Host) (subject reader_name : string) (kwargs : Settings)
    (w : World) : Case :=
  match new_Case h subject reader_name kwargs w with
  | (Ok c, _) => c
  | (Raise _, _) => blank_case subject reader_name
  end.


(** The column [_startBatch] takes the subject directories from: the column
    [patient], or else the column [ID] (lines 453-455). *)
Definition patient_column (t : Table) : option (list string) :=
  match GetColumnByName t "patient" with
  | None => GetColumnByName t "ID"
  | some => some
  end.

(** The host state apart from the log. *)
Definition scene_of (w : World)
    : list (node_id * Node) * node_id * list SliceView * string * list SavedFile :=
  (nodes w, next_id w, views w, selectedModule w, written w).

(** The dictionary [caseColumns] is present, well-shaped, and holds [p]
    under ['patient']. *)
Definition columns_with (p : option ColumnEntry) (self : Widget) : Prop :=
  exists columns, caseColumns self = Some columns /\ columns_ok columns /\
                  columns !! "patient" = p.

(** The GUI as [loadCase] unlocks it (lines 410-414). *)
Definition gui_unlocked (g : Gui) : Prop :=
  previousButton_enabled g = true /\ nextButton_enabled g = true /\
  resetButton_enabled g = true /\ nextButton_text g = "Next Case".

(** Shortcuts and observer are registered exactly while a batch is active. *)
Definition registration_ok (self : Widget) : Prop :=
  (currentIdx self < 0 -> shortcuts self = [] /\ observers self = []) /\
  (0 <= currentIdx self -> registered self).

(** The GUI after the four assignments that lock it (lines 372-376), and
    after the four that unlock it (lines 410-414). *)
Definition locked (g : Gui) : Gui :=
  gui_nextButton_text "Loading..."
    (gui_resetButton_enabled false
       (gui_nextButton_enabled false (gui_previousButton_enabled false g))).
Definition unlocked (g : Gui) : Gui :=
  gui_nextButton_text "Next Case"
    (gui_resetButton_enabled true
       (gui_nextButton_enabled true (gui_previousButton_enabled true g))).

(** A widget on the last row of a batch of one, with the case of that row
    open, the observer registered and the reader named. *)
Definition last_row_widget : Widget :=
  set_inputs (set_txtReaderName_text "r" default_inputs)
    (set_observers ["EndCloseEvent"]
       (set_shortcuts ["Ctrl+N"; "Ctrl+P"]
          (set_tableNode (Some (table_of ["/data/s1"]))
             (set_currentCase (Some one_volume_case)
                (set_world one_volume_world
                   (set_currentIdx 0
                      (set_caseCount 1
                         (setup (Some (table_of ["/data/s1"])) empty_world)))))))).

(** A node from which [show_segmentation] reaches a display node: a
    segmentation with a display node set. *)
Definition shows (nd : Node) : Prop :=
  match nd with
  | SegmentationNode s => is_Some (seg_display s)
  | _ => False
  end.

Definition has_display (w : World) (n : node_id) : Prop :=
  exists nd, Scene.lookup w n = Some nd /\ shows nd.

(** [w'] is a later state of the scene [w]: identifiers are still handed
    out in order, the slice views are as many as before, and a segmentation
    that had a display node has one. *)
Definition extends (w w' : World) : Prop :=
  fresh w' /\ (next_id w <= next_id w')%nat /\
  List.length (views w') = List.length (views w) /\
  forall n, has_display w n -> has_display w' n.

(** A computation that only ever leads to later states, however it ends. *)
Definition grows {A} (c : M World A) : Prop :=
  forall w, fresh w -> extends w (c w).2.

(** The scene is well-formed, has [nv] slice views, and the segmentations
    [L] have display nodes. *)
Definition displayed (nv : nat) (L : list node_id) (w : World) : Prop :=
  fresh w /\ List.length (views w) = nv /\ Forall (has_display w) L.

(** The segmentations held by the four label attributes of a case. *)
Definition label_nodes (self : Case) : list node_id :=
  omap (fun key => attrs self !! key) label_attrs.

(** From the states [P], the computation raises [e]. *)
Definition raises {St A} (P : St -> Prop) (c : M St A) (e : exn) : Prop :=
  forall s, P s -> (c s).1 = Raise e.

(** A placeholder of [load_data_to_placeholders] for a volume: the node is a
    scalar volume of the scene. *)
Definition loaded_volume (w : World) (nc : node_id * Z) : Prop :=
  exists name path, Scene.lookup w nc.1 = Some (ScalarVolumeNode name path).

(** A placeholder for a label: the node is a segmentation named after the
    series of its count, without a reference volume, and its display node
    is hidden. *)
Definition loaded_label (w : World) (nc : node_id * Z) : Prop :=
  exists j s d,
    (j, nc.2) ∈ images /\
    Scene.lookup w nc.1 = Some (SegmentationNode s) /\
    seg_name s = j +:+ "_segment" /\ seg_reference s = None /\
    seg_display s = Some d /\
    Scene.lookup w d = Some (SegmentationDisplayNode (mkDisplay false None)).

(** The scene [w] is the scene [w0] with the placeholders [acc] loaded: the
    nodes of [w0] are all there, unchanged and in order; one node was added
    per volume and two per label, none of them a labelmap volume. *)
Definition loaded (w0 : World) (acc : placeholders) (w : World) : Prop :=
  fresh w /\
  (exists added,
     nodes w = nodes w0 ++ added /\
     List.length added = (List.length acc.1 + 2 * List.length acc.2)%nat /\
     Forall (fun p => ~ is_labelmap p) added) /\
  Forall (loaded_volume w) acc.1 /\ Forall (loaded_label w) acc.2.

(** The segmentation [n] is the last one in the scene that is named [name]. *)
Definition last_named (w : World) (name : string) (n : node_id) : Prop :=
  exists l1 s l2,
    Scene.segmentation_nodes w = l1 ++ (n, s) :: l2 /\ seg_name s = name /\
    Forall (fun p => seg_name p.2 <> name) l2.













(* ===================================================================== *)
(** ** Strings *)
(* ===================================================================== *)

Lemma prefix_occurs (p s : string) :
  String.prefix p s = true <-> exists post, s = p +:+ post.
Proof.
  revert s. induction p as [|c p IH]; intros s.
  - destruct s; simpl; split; eauto.
  - destruct s as [|d s]; simpl.
    + split; [discriminate|]. intros [post H]. discriminate.
    + destruct (ascii_dec c d) as [->|Hne].
      * rewrite IH. split; intros [post H]; exists post; [by rewrite H|by inversion H].
      * split; [discriminate|]. intros [post H]. inversion H. congruence.
Qed.

Lemma contains_occurs (pat s : string) :
  PyStr.contains pat s = true <-> PyStr.occurs_in pat s.
Proof.
  unfold PyStr.occurs_in. induction s as [|c s IH].
  - change (PyStr.contains pat "") with (if String.prefix pat "" then true else false).
    destruct (String.prefix pat "") eqn:Hp.
    + split; [|done]. intros _. apply prefix_occurs in Hp as [post Hp].
      by exists "", post.
    + split; [discriminate|]. intros [pre [post H]].
      destruct pre; simpl in H.
      * assert (String.prefix pat "" = true) by (apply prefix_occurs; eauto). congruence.
      * discriminate.
  - change (PyStr.contains pat (String c s))
      with (if String.prefix pat (String c s) then true else PyStr.contains pat s).
    destruct (String.prefix pat (String c s)) eqn:Hp.
    + split; [|done]. intros _. apply prefix_occurs in Hp as [post Hp].
      by exists "", post.
    + rewrite IH. split.
      * intros [pre [post H]]. exists (String c pre), post. simpl. by rewrite H.
      * intros [pre [post H]]. destruct pre as [|d pre]; simpl in H.
        -- assert (String.prefix pat (String c s) = true) by (apply prefix_occurs; eauto).
           congruence.
        -- inversion H. eauto.
Qed.

Lemma not_contains_occurs (pat s : string) :
  PyStr.contains pat s = false -> ~ PyStr.occurs_in pat s.
Proof. intros H Ho. apply contains_occurs in Ho. congruence. Qed.

(* ===================================================================== *)
(** ** Rules of the program logic *)
(* ===================================================================== *)

Section Rules.
Context {St : Type}.
Implicit Types P E : St -> Prop.

Lemma triple_ret {A} P (a : A) (Q : A -> St -> Prop) E :
  (forall s, P s -> Q a s) -> triple P (ret a) Q E.
Proof. intros H s Hs. simpl. auto. Qed.

Lemma triple_raise {A} P e (Q : A -> St -> Prop) E :
  (forall s, P s -> E s) -> triple P (raise e) Q E.
Proof. intros H s Hs. simpl. auto. Qed.

Lemma triple_get P (Q : St -> St -> Prop) E :
  (forall s, P s -> Q s s) -> triple P get Q E.
Proof. intros H s Hs. simpl. auto. Qed.

Lemma triple_modify P (f : St -> St) (Q : unit -> St -> Prop) E :
  (forall s, P s -> Q tt (f s)) -> triple P (modify f) Q E.
Proof. intros H s Hs. simpl. auto. Qed.

Lemma triple_bind {A B} P (c : M St A) (k : A -> M St B) Q R E :
  triple P c Q E -> (forall a, triple (Q a) (k a) R E) -> triple P (bind c k) R E.
Proof.
  intros Hc Hk s Hs. unfold bind. specialize (Hc s Hs).
  destruct (c s) as [[a|e] s']; [exact (Hk a s' Hc) | exact Hc].
Qed.

Lemma triple_conseq {A} (P P' : St -> Prop) (c : M St A) (Q Q' : A -> St -> Prop) E E' :
  triple P' c Q' E' ->
  (forall s, P s -> P' s) -> (forall a s, Q' a s -> Q a s) -> (forall s, E' s -> E s) ->
  triple P c Q E.
Proof.
  intros Hc HP HQ HE s Hs. specialize (Hc s (HP s Hs)).
  destruct (c s) as [[a|e] s']; auto.
Qed.

Lemma triple_if {A} P (b : bool) (c1 c2 : M St A) Q E :
  (b = true -> triple P c1 Q E) -> (b = false -> triple P c2 Q E) ->
  triple P (if b then c1 else c2) Q E.
Proof. destruct b; auto. Qed.

(** A loop with carried variables: the invariant may mention the items
    already processed. *)
Lemma triple_for_fold {A B} (Inv : list A -> B -> St -> Prop) (body : B -> A -> M St B) E
    (l pre : list A) (b : B) :
  (forall done x b, triple (Inv done b) (body b x) (Inv (done ++ [x])) E) ->
  triple (Inv pre b) (for_fold l body b) (Inv (pre ++ l)) E.
Proof.
  intros Hbody. revert pre b. induction l as [|x l IH]; intros pre b.
  - simpl. apply triple_ret. intros s Hs. by rewrite app_nil_r.
  - simpl. eapply triple_bind; [apply Hbody|].
    intros b'. replace (pre ++ x :: l) with ((pre ++ [x]) ++ l) by (by rewrite <- app_assoc).
    apply IH.
Qed.

Lemma triple_for_each {A} (Inv : St -> Prop) (body : A -> M St unit) E (l : list A) :
  (forall x, triple Inv (body x) (fun _ => Inv) E) ->
  triple Inv (for_each l body) (fun _ => Inv) E.
Proof.
  intros Hbody. induction l as [|x l IH]; simpl.
  - by apply triple_ret.
  - eapply triple_bind; [apply Hbody|]. intros []. apply IH.
Qed.

Lemma triple_try_except_all {A} P (c h : M St A) Q E (X : St -> Prop) :
  triple P c Q X -> triple X h Q E -> triple P (try_except_all c h) Q E.
Proof.
  intros Hc Hh s Hs. unfold try_except_all. specialize (Hc s Hs).
  destruct (c s) as [[a|e] s']; [exact Hc | exact (Hh s' Hc)].
Qed.

Lemma triple_try_except {A} P (c h : M St A) e Q E (X : St -> Prop) :
  triple P c Q X -> triple X h Q E -> (forall s, X s -> E s) ->
  triple P (try_except c e h) Q E.
Proof.
  intros Hc Hh HX s Hs. unfold try_except. specialize (Hc s Hs).
  destruct (c s) as [[a|e'] s']; [exact Hc|].
  destruct (decide (e' = e)); [exact (Hh s' Hc) | exact (HX s' Hc)].
Qed.

(** From a triple without exceptional exit to an equation. *)
Lemma triple_run {A} P (c : M St A) Q s :
  triple P c Q (fun _ => False) -> P s -> exists a s', c s = (Ok a, s') /\ Q a s'.
Proof.
  intros Hc Hs. specialize (Hc s Hs). destruct (c s) as [[a|e] s']; [eauto | done].
Qed.
End Rules.

(** Scene operations: what they return and what they leave in place. *)
Lemma triple_lift_world {A} (P : Widget -> Prop) (c : M World A) (Q : A -> Widget -> Prop) E :
  (forall self, P self ->
     match c (world self) with
     | (Ok a, w) => Q a (set_world w self)
     | (Raise _, w) => E (set_world w self)
     end) ->
  triple P (lift_world c) Q E.
Proof.
  intros H self Hs. unfold lift_world. specialize (H self Hs).
  destruct (c (world self)) as [[a|e] w]; exact H.
Qed.

(* ===================================================================== *)
(** ** Filename matching and slot assignment *)
(* ===================================================================== *)

Lemma assign_raw_fold a i :
  assign_raw a i =
  List.fold_left (fun a jc => if i.2 =? jc.2 then <[jc.1 := i.1]> a else a) images a.
Proof. reflexivity. Qed.

Lemma fold_table_is_Some (l : list (string * Z)) (n : node_id) (z : Z)
    (a : gmap string node_id) (key : string) :
  is_Some (List.fold_left (fun a jc => if z =? jc.2 then <[jc.1 := n]> a else a) l a !! key) <->
  is_Some (a !! key) \/ (key, z) ∈ l.
Proof.
  revert a. induction l as [|[j c] l IH]; intros a; simpl.
  - rewrite elem_of_nil. tauto.
  - rewrite IH, elem_of_cons. destruct (Z.eqb_spec z c) as [->|Hne].
    + destruct (decide (j = key)) as [->|Hk].
      * rewrite lookup_insert_eq. split; [intros _; right; left; done|intros _; left; eauto].
      * rewrite lookup_insert_ne by done.
        split; [tauto|]. intros [H|[H|H]]; [tauto| congruence | tauto].
    + split; [tauto|]. intros [H|[H|H]]; [tauto| congruence | tauto].
Qed.

Lemma assign_raw_is_Some a i key :
  is_Some (assign_raw a i !! key) <-> is_Some (a !! key) \/ (key, i.2) ∈ images.
Proof. rewrite assign_raw_fold. apply fold_table_is_Some. Qed.

Lemma fold_assign_raw_is_Some raws a key :
  is_Some (List.fold_left assign_raw raws a !! key) <->
  is_Some (a !! key) \/ exists z, z ∈ raws.*2 /\ (key, z) ∈ images.
Proof.
  revert a. induction raws as [|i raws IH]; intros a.
  - simpl. split; [tauto|]. intros [H|[z [H _]]]; [done|]. by apply elem_of_nil in H.
  - change (List.fold_left assign_raw (i :: raws) a)
      with (List.fold_left assign_raw raws (assign_raw a i)).
    rewrite IH, assign_raw_is_Some, fmap_cons. split.
    + intros [[H|H]|[z [H1 H2]]]; [tauto| |].
      * right. exists i.2. split; [left|done].
      * right. exists z. split; [by right|done].
    + intros [H|[z [H1 H2]]]; [tauto|]. apply elem_of_cons in H1 as [->|H1]; [tauto|].
      right. eauto.
Qed.

Lemma assign_label_spec a n z w :
  exists w', assign_label a (n, z) w =
    (Ok match label_attr z with
        | Some key => <[key := n]> a
        | None => a
        end, w').
Proof.
  unfold assign_label, label_attr, py_in. cbn [fst snd existsb].
  repeat match goal with
         | |- context [Z.eqb z ?k] =>
             destruct (Z.eqb_spec z k) as [->|?]; [eexists; reflexivity|]
         end.
  eexists; reflexivity.
Qed.

Lemma for_fold_assign_label labels a :
  triple (fun _ => True) (for_fold labels assign_label a)
    (fun a' _ => forall key,
       is_Some (a' !! key) <->
       is_Some (a !! key) \/ exists z, z ∈ labels.*2 /\ label_attr z = Some key)
    (fun _ => False).
Proof.
  revert a. induction labels as [|[n z] labels IH]; intros a.
  - apply triple_ret. intros _ _ key. split; [tauto|].
    intros [H|[z [H _]]]; [done|]. by apply elem_of_nil in H.
  - intros w _. change (for_fold ((n, z) :: labels) assign_label a w)
      with (bind (assign_label a (n, z)) (fun b' => for_fold labels assign_label b') w).
    unfold bind. destruct (assign_label_spec a n z w) as [w' ->].
    specialize (IH (match label_attr z with Some key => <[key:=n]> a | None => a end) w' I).
    destruct (for_fold labels assign_label _ w') as [[a'|e] w'']; [|done].
    intros key. rewrite IH, fmap_cons. simpl. clear IH. split.
    + intros [H|[z' [H1 H2]]].
      * destruct (label_attr z) as [k|] eqn:Hk; [|tauto].
        destruct (decide (k = key)) as [->|Hne].
        -- right. exists z. split; [left|done].
        -- rewrite lookup_insert_ne in H by done. tauto.
      * right. exists z'. split; [by right|done].
    + intros [H|[z' [H1 H2]]].
      * left. destruct (label_attr z) as [k|]; [|done].
        destruct (decide (k = key)) as [->|Hne];
          [rewrite lookup_insert_eq; eauto | by rewrite lookup_insert_ne].
      * apply elem_of_cons in H1 as [->|H1]; [|right; eauto].
        left. rewrite H2. rewrite lookup_insert_eq. eauto.
Qed.

Lemma elem_of_file_counts pattern file_name l z :
  z ∈ file_counts pattern file_name l <->
  exists j, (j, z) ∈ l /\ PyStr.contains (pattern j) file_name = true.
Proof.
  unfold file_counts. rewrite list_elem_of_In, in_flat_map. split.
  - intros [[j c] [Hin Hz]]. simpl in Hz.
    destruct (PyStr.contains (pattern j) file_name) eqn:Hc; [|done].
    destruct Hz as [<-|[]]. exists j. by rewrite list_elem_of_In.
  - intros [j [Hin Hc]]. exists (j, z). rewrite <- list_elem_of_In. split; [done|].
    simpl. rewrite Hc. by left.
Qed.

Lemma match_series_spec h self subject_dir i file_name acc jc :
  triple (fun _ => True) (match_series h self subject_dir i file_name acc jc)
    (fun acc' _ =>
       acc'.1.*2 = acc.1.*2 ++ file_counts volume_pattern file_name [jc] /\
       acc'.2.*2 = acc.2.*2 ++ file_counts (fun j => label_pattern j (reader_name self)) file_name [jc])
    (fun _ => False).
Proof.
  intros w _. unfold match_series, file_counts, flat_map.
  unfold bind, loadVolume, load_label, Scene.add_node, Scene.print, Scene.update_segmentation,
    Scene.update_display, Scene.update_node, Scene.remove_node, bind, modify, ret.
  destruct (PyStr.contains (volume_pattern jc.1) file_name);
    destruct (PyStr.contains (label_pattern jc.1 (reader_name self)) file_name);
    cbn [fst snd]; rewrite ?fmap_app, ?app_nil_r; done.
Qed.

Lemma match_file_spec h self subject_dir acc i :
  triple (fun _ => True) (match_file h self subject_dir acc i)
    (fun acc' _ =>
       acc'.1.*2 = acc.1.*2 ++ file_counts volume_pattern (PyStr.lower i) images /\
       acc'.2.*2 = acc.2.*2 ++
         file_counts (fun j => label_pattern j (reader_name self)) (PyStr.lower i) images)
    (fun _ => False).
Proof.
  unfold match_file.
  pose (Inv := fun (done : list (string * Z)) (acc' : placeholders) (_ : World) =>
          acc'.1.*2 = acc.1.*2 ++ file_counts volume_pattern (PyStr.lower i) done /\
          acc'.2.*2 = acc.2.*2 ++
            file_counts (fun j => label_pattern j (reader_name self)) (PyStr.lower i) done).
  eapply triple_conseq;
    [apply (triple_for_fold Inv _ (fun _ => False) images [] acc) | | | ].
  - intros done x b w [H1 H2].
    pose proof (match_series_spec h self subject_dir i (PyStr.lower i) b x w I) as Hs.
    destruct (match_series _ _ _ _ _ b x w) as [[acc'|e] w']; [|done].
    destruct Hs as [Hs1 Hs2]. unfold Inv, file_counts in *.
    rewrite Hs1, Hs2, H1, H2, !flat_map_app, !app_assoc. done.
  - intros w _. unfold Inv, file_counts. simpl. by rewrite !app_nil_r.
  - intros acc' w H. exact H.
  - done.
Qed.

Lemma load_data_to_placeholders_spec h self subject_dir listing :
  listdir h subject_dir = Some listing ->
  triple (fun _ => True) (load_data_to_placeholders h self subject_dir)
    (fun r _ =>
       r.1 = set_image_root self subject_dir /\
       r.2.1.*2 = flat_map (fun f => file_counts volume_pattern (PyStr.lower f) images) listing /\
       r.2.2.*2 = flat_map (fun f => file_counts (fun j => label_pattern j (reader_name self))
                                       (PyStr.lower f) images) listing)
    (fun _ => False).
Proof.
  intros Hl w _. unfold load_data_to_placeholders, os_listdir. rewrite Hl.
  pose (Inv := fun (done : list string) (acc : placeholders) (_ : World) =>
          acc.1.*2 = flat_map (fun f => file_counts volume_pattern (PyStr.lower f) images) done /\
          acc.2.*2 = flat_map (fun f => file_counts (fun j => label_pattern j (reader_name self))
                                          (PyStr.lower f) images) done).
  assert (Hloop : triple (Inv [] ([], [])) (for_fold listing (match_file h (set_image_root self subject_dir)
                    subject_dir) ([], [])) (Inv ([] ++ listing)) (fun _ => False)).
  { apply (triple_for_fold Inv). intros done x b w0 [H1 H2].
    pose proof (match_file_spec h (set_image_root self subject_dir) subject_dir b x w0 I) as Hs.
    destruct (match_file _ _ _ b x w0) as [[acc'|e] w']; [|done].
    destruct Hs as [Hs1 Hs2]. unfold Inv.
    rewrite Hs1, Hs2, H1, H2, !flat_map_app. simpl. by rewrite !app_nil_r. }
  specialize (Hloop w (conj eq_refl eq_refl)).
  unfold bind, ret. 
  destruct (for_fold listing _ _ w) as [[rl|e] w']; [|done].
  destruct Hloop as [H1 H2]. simpl in *. done.
Qed.

Lemma series_of_count_images j count :
  (j, count) ∈ images -> series_of_count count = Some j.
Proof.
  intros H. assert (Hall : Forall (fun jc => series_of_count jc.2 = Some jc.1) images).
  { repeat constructor. }
  rewrite Forall_forall in Hall. exact (Hall _ H).
Qed.

Lemma images_functional j j' count :
  (j, count) ∈ images -> (j', count) ∈ images -> j = j'.
Proof.
  intros H H'. apply series_of_count_images in H, H'. congruence.
Qed.

Lemma label_attr_label_attrs z a : label_attr z = Some a -> a ∈ label_attrs.
Proof.
  unfold label_attr, label_attrs.
  repeat match goal with |- context [if ?b then _ else _] => destruct b end;
    intros [= <-]; repeat constructor.
Qed.

Lemma series_not_label a count : (a, count) ∈ images -> a ∈ label_attrs -> False.
Proof.
  intros H1 H2. unfold images, label_attrs in *.
  repeat (apply elem_of_cons in H2 as [->|H2]);
    [| | | | by apply elem_of_nil in H2];
    repeat (apply elem_of_cons in H1 as [H1|H1]; [discriminate H1|]);
    by apply elem_of_nil in H1.
Qed.

Lemma elem_of_listing_counts pattern listing z :
  z ∈ flat_map (fun f => file_counts pattern (PyStr.lower f) images) listing <->
  exists f j, f ∈ listing /\ (j, z) ∈ images /\ PyStr.occurs_in (pattern j) (PyStr.lower f).
Proof.
  rewrite list_elem_of_In, in_flat_map. split.
  - intros [f [Hf Hz]]. apply list_elem_of_In, elem_of_file_counts in Hz as [j [Hj Hc]].
    exists f, j. rewrite list_elem_of_In, <- contains_occurs. done.
  - intros [f [j [Hf [Hj Hc]]]]. exists f. rewrite <- !list_elem_of_In. split; [done|].
    apply elem_of_file_counts. exists j. by rewrite contains_occurs.
Qed.

(** C1 (amended).  When the subject directory can be listed,
    [select_placeholder_for_view] returns, and afterwards: the volume
    attribute of each of the 18 series is set if and only if some listed file
    name, lower-cased, contains the lower-cased series name followed by
    [.nii.gz]; each of the four label attributes is set if and only if some
    listed file name, lower-cased, contains
    [<name>_tumor_<reader>.nii.gz] (name and reader lower-cased) for one of
    the two series that feed that attribute. *)
Theorem slots_populated (h : Host) (self : Case) (subject_dir : string)
    (listing : list string) (w : World) :
  listdir h subject_dir = Some listing ->
  attrs self = ∅ ->
  exists self' w',
    select_placeholder_for_view h self subject_dir w = (Ok self', w') /\
    (forall j count, (j, count) ∈ images ->
       is_Some (attrs self' !! j) <->
       exists f, f ∈ listing /\ PyStr.occurs_in (volume_pattern j) (PyStr.lower f)) /\
    (forall a, a ∈ label_attrs ->
       is_Some (attrs self' !! a) <->
       exists j count f, (j, count) ∈ images /\ label_attr count = Some a /\ f ∈ listing /\
         PyStr.occurs_in (label_pattern j (reader_name self)) (PyStr.lower f)).
Proof.
  intros Hl Hempty. unfold select_placeholder_for_view.
  pose proof (load_data_to_placeholders_spec h self subject_dir listing Hl w I) as Hload.
  unfold bind at 1.
  destruct (load_data_to_placeholders h self subject_dir w) as [[[self1 [raws labels]]|e] w1];
    [|done].
  simpl in Hload. destruct Hload as [-> [Hraws Hlabels]]. cbn [fst snd].
  pose proof (for_fold_assign_label labels
    (List.fold_left assign_raw raws (attrs (set_image_root self subject_dir))) w1 I) as Hlab.
  unfold bind.
  destruct (for_fold labels assign_label _ w1) as [[a'|e] w2]; [|done].
  eexists _, _. split; [reflexivity|]. cbn [attrs set_attrs].
  simpl attrs in Hlab. rewrite Hempty in Hlab. split.
  - intros j count Hj. rewrite Hlab, fold_assign_raw_is_Some, lookup_empty. split.
    + intros [[H|[z [Hz Hjz]]]|[z [_ Hz]]].
      * by destruct H.
      * rewrite Hraws in Hz. apply elem_of_listing_counts in Hz as [f [j' [Hf [Hj' Hc]]]].
        rewrite (images_functional _ _ _ Hjz Hj'). eauto.
      * apply label_attr_label_attrs in Hz. by destruct (series_not_label _ _ Hj Hz).
    + intros [f [Hf Hc]]. left. right. exists count. split; [|done].
      rewrite Hraws. apply elem_of_listing_counts. eauto.
  - intros a Ha. rewrite Hlab, fold_assign_raw_is_Some, lookup_empty. split.
    + intros [[H|[z [_ Hz]]]|[z [Hz Hza]]].
      * by destruct H.
      * by destruct (series_not_label _ _ Hz Ha).
      * rewrite Hlabels in Hz.
        apply (elem_of_listing_counts (fun j => label_pattern j (reader_name self)))
          in Hz as [f [j [Hf [Hj Hc]]]].
        exists j, z, f. done.
    + intros [j [count [f [Hj [Hca [Hf Hc]]]]]]. right. exists count. split; [|done].
      rewrite Hlabels.
      apply (elem_of_listing_counts (fun j => label_pattern j (reader_name self))). eauto.
Qed.
Lemma slots_populated_witness :
  exists self' w',
    select_placeholder_for_view
      (host_of "/data/s1" ["pre_T1_EA.nii.gz"; "PRE_ADC.NII.GZ"; "pre_T1_LA_tumor_r.nii.gz"])
      (blank_case "/data/s1" "R") "/data/s1" empty_world = (Ok self', w') /\
    (forall j count, (j, count) ∈ images ->
       is_Some (attrs self' !! j) <->
       exists f, f ∈ ["pre_T1_EA.nii.gz"; "PRE_ADC.NII.GZ"; "pre_T1_LA_tumor_r.nii.gz"] /\
                 PyStr.occurs_in (volume_pattern j) (PyStr.lower f)) /\
    (forall a, a ∈ label_attrs ->
       is_Some (attrs self' !! a) <->
       exists j count f, (j, count) ∈ images /\ label_attr count = Some a /\
         f ∈ ["pre_T1_EA.nii.gz"; "PRE_ADC.NII.GZ"; "pre_T1_LA_tumor_r.nii.gz"] /\
         PyStr.occurs_in (label_pattern j "R") (PyStr.lower f)).
Proof.
  apply (slots_populated
           (host_of "/data/s1" ["pre_T1_EA.nii.gz"; "PRE_ADC.NII.GZ"; "pre_T1_LA_tumor_r.nii.gz"])
           (blank_case "/data/s1" "R") "/data/s1"
           ["pre_T1_EA.nii.gz"; "PRE_ADC.NII.GZ"; "pre_T1_LA_tumor_r.nii.gz"] empty_world);
    reflexivity.
Defined.

(** C1 as stated fails for the label attributes: a label file of the
    late-arterial series populates the label attribute that the
    early-arterial series corresponds to, although no file name contains the
    early-arterial label pattern. *)
Lemma label_slot_counterexample :
  exists self' w',
    select_placeholder_for_view (host_of "/data/s1" ["pre_T1_LA_tumor_r.nii.gz"])
      (blank_case "/data/s1" "r") "/data/s1" empty_world = (Ok self', w') /\
    ("pre_T1_EA", 1) ∈ images /\ label_attr 1 = Some "pre_T1_label" /\
    is_Some (attrs self' !! "pre_T1_label") /\
    ~ exists f, f ∈ ["pre_T1_LA_tumor_r.nii.gz"] /\
                PyStr.occurs_in (label_pattern "pre_T1_EA" "r") (PyStr.lower f).
Proof.
  eexists _, _. split; [vm_compute; reflexivity|].
  split; [repeat constructor|]. split; [reflexivity|]. split.
  - vm_compute. eauto.
  - intros [f [Hf Hc]]. apply list_elem_of_singleton in Hf as ->.
    revert Hc. apply not_contains_occurs. reflexivity.
Qed.

(* ===================================================================== *)
(** ** The substitution of background volumes *)
(* ===================================================================== *)

Lemma strip_segment_canonical j count :
  (j, count) ∈ images -> strip_segment (j +:+ "_segment") = j.
Proof.
  intros H.
  assert (Hall : Forall (fun jc => strip_segment (jc.1 +:+ "_segment") = jc.1) images).
  { repeat constructor. }
  rewrite Forall_forall in Hall. exact (Hall _ H).
Qed.

Lemma correct_view_run self k alt vols labs w :
  (k < List.length labs)%nat -> List.length vols = List.length labs ->
  exists vols',
    correct_view self k alt vols labs w = (Ok vols', w) /\
    List.length vols' = List.length vols /\
    (forall i, i <> k -> vols' !! i = vols !! i) /\
    (forall seg alt_node,
       labs !! k = Some (Some seg) -> attrs self !! alt = Some alt_node ->
       PyStr.contains (strip_segment (Scene.GetName w seg)) (Scene.GetName w alt_node) = true ->
       vols' !! k = Some (Some alt_node)).
Proof.
  intros Hk Hlen. unfold correct_view, py_index, bind. rewrite Nat2Z.id.
  destruct (lookup_lt_is_Some_2 labs k Hk) as [lab Hlab]. rewrite Hlab.
  destruct lab as [seg|]; simpl.
  - destruct (attrs self !! alt) as [alt_node|] eqn:Halt.
    + destruct (PyStr.contains _ _) eqn:Hc.
      * unfold py_setitem.
        replace (k <? List.length vols)%nat with true by (symmetry; apply Nat.ltb_lt; lia).
        eexists. split; [reflexivity|]. split; [apply length_insert|]. split.
        -- intros i Hi. by apply list_lookup_insert_ne.
        -- intros seg' alt' [= <-] [= <-] _. apply list_lookup_insert_eq. lia.
      * eexists. split; [reflexivity|]. split; [done|]. split; [done|].
        intros seg' alt' [= <-] [= <-]. congruence.
    + eexists. split; [reflexivity|]. split; [done|]. split; [done|]. congruence.
  - eexists. split; [reflexivity|]. split; [done|]. split; [done|]. congruence.
Qed.




(* ===================================================================== *)
(** ** Closing a case and saving masks *)
(* ===================================================================== *)

(** C10.  With the empty string as reader name, [closeCase] raises
    [TypeError] at the status print: the scene and the written files are as
    before, so neither dictionary of masks was built and nothing was saved. *)
Theorem closeCase_empty_reader_raises (h : Host) (self : Case)
    (save_loaded_masks save_new_masks : bool) (w : World) :
  closeCase h self save_loaded_masks save_new_masks (Some "") w = (Raise TypeError, w).
Proof. reflexivity. Qed.

Lemma lookup_app_node (l : list (node_id * Node)) m nd n :
  snd <$> List.find (fun p => Nat.eqb p.1 n) (l ++ [(m, nd)]) =
  match snd <$> List.find (fun p => Nat.eqb p.1 n) l with
  | Some x => Some x
  | None => if Nat.eqb m n then Some nd else None
  end.
Proof.
  induction l as [|[k x] l IH]; simpl.
  - destruct (Nat.eqb m n); done.
  - destruct (Nat.eqb k n); [done|exact IH].
Qed.

Lemma segmentation_app_labelmap (w w' : World) m name src n :
  nodes w' = nodes w ++ [(m, LabelMapVolumeNode name src)] ->
  Scene.segmentation w' n = Scene.segmentation w n.
Proof.
  intros H. unfold Scene.segmentation, Scene.lookup. rewrite H, lookup_app_node.
  destruct (snd <$> List.find (fun p => Nat.eqb p.1 n) (nodes w)); [done|].
  by destruct (Nat.eqb m n).
Qed.

Lemma first_segment_array_read w node :
  arrayFromSegment_first node w =
  match first_segment_array w node with
  | Some a => (Ok (Array a), w)
  | None => (Raise AttributeError, w)
  end.
Proof.
  unfold arrayFromSegment_first, first_segment_array, bind, get. simpl.
  destruct (Scene.segmentation w node) as [s|]; [|done]. simpl.
  destruct (seg_segments s) as [|sg l]; [done|]. simpl.
  by destruct (segment_voxels sg).
Qed.

(** One iteration of the save loop: the segmentations of the scene are as
    before, and a file is written only from this node, and only if its first
    segment is not blank. *)
Lemma save_mask_written folder reader name item w :
  (forall n, Scene.segmentation (save_mask folder reader name item w).2 n = Scene.segmentation w n) /\
  (forall f, f ∈ written (save_mask folder reader name item w).2 ->
     f ∈ written w \/ (saved_from f = item.2 /\ ~ blank w item.2)).
Proof.
  unfold blank. destruct (save_mask folder reader name item w) as [res w'] eqn:Hrun.
  cbn [snd]. revert Hrun. unfold save_mask. unfold bind at 1. unfold try_except.
  rewrite first_segment_array_read.
  destruct (first_segment_array w item.2) as [a|] eqn:Ha.
  - destruct (is_zero (np_mean (Array a))) eqn:Hz.
    { intros [= <- <-]. auto. }
    unfold bind, get, Scene.print, Scene.logger, modify, ret, raise.
    cbn -[path_join String.append].
    destruct (masterVolumeNode_of w item.2) as [mv|]; cbn -[path_join String.append].
    + destruct reader as [r|]; cbn -[path_join String.append]; intros [= <- <-];
        (split; [intros n; eapply segmentation_app_labelmap; reflexivity|]);
        intros f Hf; unfold Scene.add_log, Scene.add_written, Scene.set_nodes in Hf;
        cbn [written] in Hf; apply elem_of_app in Hf as [Hf|Hf]; auto;
        apply list_elem_of_singleton in Hf as ->; right; (split; [done|congruence]).
    + destruct reader as [r|], name as [nm|]; cbn -[path_join String.append];
        intros [= <- <-]; try (split; [done|by auto]);
        (split; [intros n; eapply segmentation_app_labelmap; reflexivity|]);
        intros f Hf; unfold Scene.add_log, Scene.add_written, Scene.set_nodes in Hf;
        cbn [written] in Hf; apply elem_of_app in Hf as [Hf|Hf]; auto;
        apply list_elem_of_singleton in Hf as ->; right; (split; [done|congruence]).
  - cbn. intros [= <- <-]. auto.
Qed.

Lemma save_loop_written folder reader items name w :
  (forall n, Scene.segmentation (for_fold items (save_mask folder reader) name w).2 n
             = Scene.segmentation w n) /\
  (forall f, f ∈ written (for_fold items (save_mask folder reader) name w).2 ->
     f ∈ written w \/ exists item, item ∈ items /\ saved_from f = item.2 /\ ~ blank w item.2).
Proof.
  revert name w. induction items as [|item items IH]; intros name w.
  - simpl. auto.
  - change (for_fold (item :: items) (save_mask folder reader) name w)
      with (bind (save_mask folder reader name item)
                 (fun b' => for_fold items (save_mask folder reader) b') w).
    unfold bind. destruct (save_mask_written folder reader name item w) as [Hseg Hw].
    destruct (save_mask folder reader name item w) as [[name'|e] w1]; simpl in Hseg, Hw.
    + destruct (IH name' w1) as [Hseg' Hw']. split.
      * intros n. by rewrite Hseg', Hseg.
      * intros f Hf. destruct (Hw' f Hf) as [H|[it [Hit [Hsf Hb]]]].
        -- destruct (Hw f H) as [?|[? ?]]; [by left|]. right. exists item.
           split; [left|done].
        -- right. exists it. split; [by right|]. split; [done|].
           unfold blank, first_segment_array in *. by rewrite <- Hseg.
    + split; [done|]. intros f Hf. destruct (Hw f Hf) as [?|[? ?]]; [by left|].
      right. exists item. split; [left|done].
Qed.

(** C6.  Whatever [_saveMasks] is given and however it ends, it writes no
    file from a segmentation whose first segment has mean exactly zero or
    cannot be read. *)
Theorem blank_segmentation_not_written (nodes : list (string * node_id)) (folder : string)
    (reader_name : option string) (w : World) (node : node_id) (f : SavedFile) :
  blank w node ->
  f ∈ written (_saveMasks nodes folder reader_name w).2 ->
  saved_from f = node ->
  f ∈ written w.
Proof.
  intros Hb Hf Hn.
  destruct (save_loop_written folder reader_name nodes None w) as [_ Hw].
  assert (Hf' : f ∈ written (for_fold nodes (save_mask folder reader_name) None w).2).
  { unfold _saveMasks, bind in Hf.
    destruct (for_fold nodes (save_mask folder reader_name) None w) as [[name|e] w'];
      exact Hf. }
  destruct (Hw f Hf') as [?|[it [_ [Hsf Hnb]]]]; [done|].
  rewrite Hn in Hsf. subst node. rewrite Hsf in Hb. contradiction.
Qed.

Lemma blank_segmentation_not_written_witness :
  mkSavedFile "/data/s1/earlier.nii.gz" 7%nat 1%nat ∈
    written (mkWorld [(0%nat, ScalarVolumeNode "pre_T1_EA" "/data/s1/pre_T1_EA.nii.gz");
                      (1%nat, SegmentationNode
                                (mkSegmentation "pre_T1_EA_segment"
                                   [mkSegment "Target" (Some [0; 0; 0; 0])] None (Some 0%nat)));
                      (2%nat, SegmentationNode
                                (mkSegmentation "pre_ADC_segment"
                                   [mkSegment "Target" (Some [0; 1; 1; 0])] None (Some 0%nat)))]
                     8%nat four_views "" [mkSavedFile "/data/s1/earlier.nii.gz" 7%nat 1%nat] []).
Proof.
  apply (blank_segmentation_not_written
           [("pre_T1_EA_segment", 1%nat); ("pre_ADC_segment", 2%nat)] "/data/s1" (Some "r")
           _ 1%nat).
  - vm_compute. reflexivity.
  - vm_compute. apply list_elem_of_here.
  - reflexivity.
Defined.

(** The case object never records a loaded mask: [mask_nodes] stays the
    empty dictionary it is initialised to. *)
Lemma select_placeholder_keeps_mask_nodes h self subject_dir :
  triple (fun _ => True) (select_placeholder_for_view h self subject_dir)
    (fun self' _ => mask_nodes self' = mask_nodes self /\
                    image_root self' = Some subject_dir /\
                    reader_name self' = reader_name self)
    (fun _ => True).
Proof.
  intros w _. unfold select_placeholder_for_view. unfold bind at 1.
  destruct (listdir h subject_dir) as [listing|] eqn:Hl.
  - pose proof (load_data_to_placeholders_spec h self subject_dir listing Hl w I) as Hload.
    destruct (load_data_to_placeholders h self subject_dir w) as [[r|e] w1]; [|done].
    destruct Hload as [Hr _]. unfold bind.
    destruct (for_fold r.2.2 assign_label _ w1) as [[a|e] w2]; [|done].
    simpl. rewrite Hr. done.
  - unfold load_data_to_placeholders, os_listdir. rewrite Hl. done.
Qed.

Lemma correct_volumesLoad_world self vols labs w :
  (correct_volumesLoad self vols labs w).2 = w.
Proof.
  assert (Hv : forall k alt vols, (correct_view self k alt vols labs w).2 = w).
  { intros k alt v. unfold correct_view, py_index, bind, py_setitem.
    destruct (labs !! Z.to_nat (Z.of_nat k)) as [[seg|]|]; simpl; try done.
    destruct (attrs self !! alt); simpl; try done.
    destruct (PyStr.contains _ _); simpl; try done.
    by destruct (k <? List.length v)%nat. }
  unfold correct_volumesLoad, bind.
  pose proof (Hv 0%nat "post_T1_LA" vols) as H0.
  destruct (correct_view self 0 "post_T1_LA" vols labs w) as [[v0|e] w0];
    simpl in H0; subst w0; [|done].
  pose proof (Hv 1%nat "pre_T1_LA" v0) as H1.
  destruct (correct_view self 1 "pre_T1_LA" v0 labs w) as [[v1|e] w1];
    simpl in H1; subst w1; [|done].
  pose proof (Hv 2%nat "post_ADC_Eq_1" v1) as H2.
  destruct (correct_view self 2 "post_ADC_Eq_1" v1 labs w) as [[v2|e] w2];
    simpl in H2; subst w2; done.
Qed.

Lemma _loadImages_keeps_mask_nodes h self subject :
  triple (fun _ => True) (_loadImages h self subject)
    (fun r _ => mask_nodes r.1 = mask_nodes self /\ image_root r.1 = Some subject /\
                reader_name r.1 = reader_name self)
    (fun _ => True).
Proof.
  intros w _. unfold _loadImages. unfold bind at 1.
  pose proof (select_placeholder_keeps_mask_nodes h self subject w I) as Hs.
  destruct (select_placeholder_for_view h self subject w) as [[self1|e] w1]; [|done].
  cbv zeta. unfold bind at 1.
  destruct (correct_volumesLoad _ _ _ w1) as [[vols|e] w2]; [|done].
  unfold bind, get.
  destruct (for_each _ (set_background _) w2) as [[[]|e] w3]; [|done].
  destruct (for_each _ (show_segmentation _) w3) as [[[]|e] w4]; [|done].
  exact Hs.
Qed.

Lemma new_Case_mask_nodes h subject reader kwargs w c w' :
  new_Case h subject reader kwargs w = (Ok c, w') ->
  mask_nodes c = [] /\ image_root c = Some subject /\ reader_name c = reader.
Proof.
  unfold new_Case. intros Hrun.
  pose proof (_loadImages_keeps_mask_nodes h
                (mkCase ∅ [] [] subject None (settings_redirect kwargs) [] reader) subject w I)
    as Hl.
  unfold bind at 1 in Hrun.
  destruct (_loadImages h _ subject w) as [[r|e] w1]; [|done].
  simpl in Hl. revert Hrun. unfold bind, get, modify, Scene.logger, ret.
  destruct (r.2 && redirect r.1)%bool; [destruct (String.eqb _ _)|];
    intros [= <- _]; exact Hl.
Qed.

(** With only the save-loaded flag set, [closeCase] writes nothing, whatever
    the scene holds. *)
Lemma closeCase_loaded_only_writes_nothing h self reader w :
  mask_nodes self = [] -> reader <> "" ->
  exists w', closeCase h self true false (Some reader) w = (Ok tt, w') /\
             written w' = written w.
Proof.
  intros Hm Hr. unfold closeCase, closeCase_observed.
  rewrite bool_decide_eq_false_2 by congruence.
  unfold loaded_masks_of. rewrite Hm. eexists. split; reflexivity.
Qed.

(** C3, at a failing input.  The subject directory holds one volume and one
    label file of the reader.  After loading, the scene holds the
    segmentation read from the label file, with a non-zero first segment and
    a master volume.  On close, that segmentation is not among the loaded
    masks but among the new masks, and with the save-loaded flag set and the
    save-new flag cleared no file is written. *)
Theorem loaded_mask_not_saved :
  exists c w1 seg s w2,
    new_Case (host_of "/data/s1" ["pre_T1_EA.nii.gz"; "pre_T1_EA_tumor_r.nii.gz"])
             "/data/s1" "r" no_settings empty_world = (Ok c, w1) /\
    Scene.segmentation w1 seg = Some s /\ seg_name s = "pre_T1_EA_segment" /\
    ~ blank w1 seg /\ is_Some (masterVolumeNode_of w1 seg) /\
    loaded_masks_of w1 c = [] /\
    new_masks_of w1 c = [("pre_T1_EA_segment", seg)] /\
    closeCase (host_of "/data/s1" ["pre_T1_EA.nii.gz"; "pre_T1_EA_tumor_r.nii.gz"])
              c true false (Some "r") w1 = (Ok tt, w2) /\
    written w2 = [].
Proof.
  eexists _, _, 2%nat, _, _.
  split; [vm_compute; reflexivity|].
  split; [vm_compute; reflexivity|].
  split; [reflexivity|].
  split; [vm_compute; discriminate|].
  split; [vm_compute; eauto|].
  split; [vm_compute; reflexivity|].
  split; [vm_compute; reflexivity|].
  split; [vm_compute; reflexivity|].
  reflexivity.
Qed.

(** C8, at a failing input.  The subject directory holds a label file of a
    series that feeds no label attribute, so its segmentation is shown in no
    view and gets no master volume.  Saving it raises [UnboundLocalError]:
    the scene is not cleared and [closeCase] does not return.

    With a second, savable segmentation in the scene the dictionary of new
    masks holds both, and the outcome depends on the order in which
    [_saveMasks] is handed them; the save is skipped in neither order.
    When the segmentation without master volume comes first, [_saveMasks]
    raises [UnboundLocalError] before anything is written.  When it comes
    second, it is written under the name of the first, with the reader
    suffix appended a second time. *)
Theorem missing_master_volume_not_skipped :
  (exists c w1 seg w2,
     new_Case (host_of "/data/s1" ["pre_T1_pre_tumor_r.nii.gz"])
              "/data/s1" "r" no_settings empty_world = (Ok c, w1) /\
     is_Some (Scene.segmentation w1 seg) /\ ~ blank w1 seg /\
     masterVolumeNode_of w1 seg = None /\
     new_masks_of w1 c = [("pre_T1_pre_segment", seg)] /\
     closeCase (host_of "/data/s1" ["pre_T1_pre_tumor_r.nii.gz"]) c true true (Some "r") w1
       = (Raise UnboundLocalError, w2) /\
     nodes w2 = nodes w1 /\ written w2 = []) /\
  (exists c w1 seg other w2 w3,
     new_Case (host_of "/data/s1"
                 ["pre_T1_EA.nii.gz"; "pre_T1_EA_tumor_r.nii.gz"; "pre_T1_pre_tumor_r.nii.gz"])
              "/data/s1" "r" no_settings empty_world = (Ok c, w1) /\
     is_Some (Scene.segmentation w1 seg) /\ ~ blank w1 seg /\
     masterVolumeNode_of w1 seg = None /\
     (forall item, item ∈ new_masks_of w1 c <->
                   item = ("pre_T1_EA_segment", other) \/ item = ("pre_T1_pre_segment", seg)) /\
     _saveMasks [("pre_T1_pre_segment", seg); ("pre_T1_EA_segment", other)]
                "/data/s1" (Some "r") w1 = (Raise UnboundLocalError, w2) /\
     written w2 = [] /\
     _saveMasks [("pre_T1_EA_segment", other); ("pre_T1_pre_segment", seg)]
                "/data/s1" (Some "r") w1 = (Ok tt, w3) /\
     exists f, f ∈ written w3 /\ saved_from f = seg /\
               saved_path f = "/data/s1/pre_T1_EA_tumor_r_tumor_r.nii.gz").
Proof.
  split.
  - eexists _, _, 1%nat, _.
    split; [vm_compute; reflexivity|].
    split; [vm_compute; eauto|].
    split; [vm_compute; discriminate|].
    split; [vm_compute; reflexivity|].
    split; [vm_compute; reflexivity|].
    split; [vm_compute; reflexivity|].
    split; reflexivity.
  - eexists _, _, 5%nat, 2%nat, _, _.
    split; [vm_compute; reflexivity|].
    split; [vm_compute; eauto|].
    split; [vm_compute; discriminate|].
    split; [vm_compute; reflexivity|].
    split.
    { intros item.
      replace (new_masks_of _ _)
        with [("pre_T1_EA_segment", 2%nat); ("pre_T1_pre_segment", 5%nat)]
        by (vm_compute; reflexivity).
      rewrite !elem_of_cons, elem_of_nil. tauto. }
    split; [vm_compute; reflexivity|].
    split; [reflexivity|].
    split; [vm_compute; reflexivity|].
    eexists. split; [apply list_elem_of_further, list_elem_of_here|].
    split; reflexivity.
Qed.

(* ===================================================================== *)
(** ** The iteration controller *)
(* ===================================================================== *)

(** [loadCase] on a change that would lead before row 0. *)
Lemma loadCase_before_first_row (h : Host) (self : Widget) (idx_change : Z) :
  0 <= currentIdx self -> currentIdx self + idx_change < 0 ->
  loadCase h idx_change self =
  (Ok tt, set_world (Scene.add_log (world self) WARNING
                       "First case selected, cannot select previous case!") self).
Proof.
  intros H0 Hneg.
  assert (E0 : (currentIdx self <? 0) = false) by (apply Z.ltb_ge; lia).
  assert (E1 : (currentIdx self + idx_change <? 0) = true) by (apply Z.ltb_lt; lia).
  unfold loadCase, bind, get. cbv beta. rewrite E0, E1. reflexivity.
Qed.

(** C5.  In an active batch, a change that would move the cursor before
    row 0 makes [loadCase] log a warning and return; the cursor, and all of
    the widget except the log, are as before.  [onPrevious] on row 0 is the
    instance with change [-1]. *)
Theorem retreat_before_first_row (h : Host) (self : Widget) (idx_change : Z) :
  0 <= currentIdx self -> currentIdx self + idx_change < 0 ->
  exists self',
    loadCase h idx_change self = (Ok tt, self') /\
    currentIdx self' = currentIdx self /\
    log (world self') =
      log (world self) ++ [(WARNING, "First case selected, cannot select previous case!")] /\
    self' = set_world (Scene.add_log (world self) WARNING
                         "First case selected, cannot select previous case!") self /\
    (idx_change = -1 -> onPrevious h self = (Ok tt, self')).
Proof.
  intros H0 Hneg.
  pose proof (loadCase_before_first_row h self idx_change H0 Hneg) as Hrun.
  eexists. split; [exact Hrun|].
  split; [reflexivity|]. split; [reflexivity|]. split; [reflexivity|].
  intros ->. unfold onPrevious, bind, get. cbv beta.
  replace (currentIdx self <? 0) with false by (symmetry; apply Z.ltb_ge; lia).
  exact Hrun.
Qed.

Lemma retreat_before_first_row_witness :
  exists self',
    loadCase (host_of "/data/s1" []) (-1) first_row_widget = (Ok tt, self') /\
    currentIdx self' = currentIdx first_row_widget /\
    log (world self') =
      log (world first_row_widget) ++
      [(WARNING, "First case selected, cannot select previous case!")] /\
    self' = set_world (Scene.add_log (world first_row_widget) WARNING
                         "First case selected, cannot select previous case!")
                      first_row_widget /\
    (-1 = -1 -> onPrevious (host_of "/data/s1" []) first_row_widget = (Ok tt, self')).
Proof.
  apply (retreat_before_first_row (host_of "/data/s1" []) first_row_widget (-1));
    simpl; lia.
Defined.

Section Keeps.
Lemma keeps_ret {A} (a : A) : keeps (ret a).
Proof. intros s. done. Qed.

Lemma keeps_raise {A} e : keeps (@raise Widget A e).
Proof. intros s. done. Qed.

Lemma keeps_get : keeps (@get Widget).
Proof. intros s. done. Qed.

Lemma keeps_modify (f : Widget -> Widget) :
  (forall s, currentIdx (f s) = currentIdx s /\ caseCount (f s) = caseCount s) ->
  keeps (modify f).
Proof. intros H s. apply H. Qed.

Lemma keeps_lift_world {A} (c : M World A) : keeps (lift_world c).
Proof. intros s. unfold lift_world. by destruct (c (world s)). Qed.

Lemma keeps_bind {A B} (c : M Widget A) (k : A -> M Widget B) :
  keeps c -> (forall a, keeps (k a)) -> keeps (bind c k).
Proof.
  intros Hc Hk s. unfold bind. specialize (Hc s).
  destruct (c s) as [[a|e] s1]; simpl in Hc; [|exact Hc].
  destruct (Hk a s1) as [H1 H2]. destruct Hc as [H3 H4]. split; congruence.
Qed.

Lemma keeps_for_each {A} (l : list A) (body : A -> M Widget unit) :
  (forall x, keeps (body x)) -> keeps (for_each l body).
Proof.
  intros Hb. induction l as [|x l IH]; simpl.
  - apply keeps_ret.
  - apply keeps_bind; [apply Hb | intros _; exact IH].
Qed.

Lemma keeps_for_fold {A B} (l : list A) (body : B -> A -> M Widget B) (b : B) :
  (forall b x, keeps (body b x)) -> keeps (for_fold l body b).
Proof.
  intros Hb. revert b. induction l as [|x l IH]; intros b; simpl.
  - apply keeps_ret.
  - apply keeps_bind; [apply Hb | intros b'; apply IH].
Qed.
End Keeps.

Ltac keeps_step :=
  first
    [ apply keeps_ret
    | apply keeps_raise
    | apply keeps_get
    | apply keeps_lift_world
    | apply keeps_modify; intros; split; reflexivity
    | apply keeps_for_each; intros
    | apply keeps_for_fold; intros
    | apply keeps_bind; [|intros]
    | match goal with
      | |- keeps (if ?b then _ else _) => destruct b
      | |- keeps (match ?x with _ => _ end) => destruct x
      end ].
Ltac keeps_tac := repeat keeps_step.

Lemma keeps_setGUIstate b : keeps (_setGUIstate b).
Proof. unfold _setGUIstate, modify_gui, widget_log. keeps_tac. Qed.

Lemma keeps_lock_gui : keeps lock_gui.
Proof. unfold lock_gui, modify_gui. keeps_tac. Qed.

Lemma keeps_unlock_gui : keeps unlock_gui.
Proof. unfold unlock_gui, modify_gui. keeps_tac. Qed.

Lemma keeps_scene_cleared : keeps scene_cleared.
Proof. unfold scene_cleared, onEndClose, onChangeTable, modify_gui, widget_log. keeps_tac. Qed.

Lemma keeps_getColumnValue self colName is_list : keeps (_getColumnValue self colName is_list).
Proof. unfold _getColumnValue. keeps_tac. Qed.

Lemma keeps_find_column t text key : keeps (find_column t text key).
Proof. unfold find_column, set_column, widget_log. keeps_tac. Qed.

Lemma keeps_find_columns t text key : keeps (find_columns t text key).
Proof. unfold find_columns, set_column, widget_log. keeps_tac. Qed.

(** What [_setGUIstate(csv_loaded=False)] does, in full. *)
Lemma setGUIstate_false_run s :
  exists s', _setGUIstate false s = (Ok tt, s') /\
    currentIdx s' = currentIdx s /\ caseCount s' = caseCount s /\
    shortcuts s' = [] /\ observers s' = [] /\
    previousButton_enabled (gui s') = false /\ nextButton_enabled (gui s') = false /\
    resetButton_text (gui s') = "Start Batch" /\
    inputPathSelector_enabled (gui s') = true /\ loadBatchButton_enabled (gui s') = true /\
    batchTableSelector_enabled (gui s') = true /\ batchTableView_enabled (gui s') = true /\
    inputParametersGroupBox_enabled (gui s') = true.
Proof. eexists. split; [reflexivity|]. cbn. repeat split. Qed.

(** The tail of [loadCase] once the cursor has moved past the last row. *)
Lemma end_of_batch_run s :
  exists s',
    (_setGUIstate false ;; modify (set_currentIdx (-1)) ;; modify (set_tableNode None) ;;
     widget_log INFO "########## All Done! ##########")%py s = (Ok tt, s') /\
    no_batch s' /\ caseCount s' = caseCount s.
Proof.
  eexists. split; [reflexivity|]. unfold no_batch. cbn. repeat split.
Qed.

(** The part of [loadCase] that closes the open case. *)
Lemma keeps_close_open_case (h : Host) (self : Widget) :
  keeps (match currentCase self with
         | Some case =>
             closeCase_observed (@lift_world) scene_cleared h case
               (chkSaveMasks (inputs self)) (chkSaveNewMasks (inputs self))
               (Some (txtReaderName_text (inputs self)))
         | None => ret tt
         end)%py.
Proof.
  destruct (currentCase self); [|apply keeps_ret].
  unfold closeCase_observed.
  apply keeps_bind; [apply keeps_lift_world|]. intros _.
  apply keeps_bind; [apply keeps_scene_cleared|]. intros _.
  apply keeps_bind; [apply keeps_lift_world|]. intros _. apply keeps_ret.
Qed.

(** The part of [loadCase] that loads the row under the cursor. *)
Lemma keeps_load_row (h : Host) :
  keeps (lock_gui ;;
      self <- get ;;
      patient <- match caseColumns self with
                 | None => raise TypeError
                 | Some columns =>
                     match columns !! "patient" with
                     | Some (OneColumn column) =>
                         widget_log INFO "Loading next patient (%d/%d): %s..." ;;
                         ret (Some (GetValue column (currentIdx self)))
                     | _ =>
                         widget_log INFO "Loading next patient (%d/%d)..." ;;
                         ret None
                     end
                 end ;;
      root <- _getColumnValue self "root" false ;;
      let root := match root with
                  | None => if negb (String.eqb (rootSelector_text (inputs self)) "")
                            then Some (Value (rootSelector_text (inputs self))) else None
                  | some => some
                  end in
      addIms <- _getColumnValue self "addIms" true ;;
      addMas <- _getColumnValue self "addMas" true ;;
      let settings := mkSettings root addIms addMas
                                 (csv_dir self) (chkAutoRedirect (inputs self)) in
      patient <- match patient with
                 | Some p => ret p
                 | None => raise UnboundLocalError
                 end ;;
      case <- lift_world (new_Case h patient (txtReaderName_text (inputs self)) settings) ;;
      modify (set_currentCase (Some case)) ;;
      unlock_gui ;;
      lift_world (Scene.print ("Patient: " +:+ PyStr.basename patient)))%py.
Proof.
  apply keeps_bind; [apply keeps_lock_gui|]. intros _.
  apply keeps_bind; [apply keeps_get|]. intros self.
  apply keeps_bind.
  { unfold widget_log. keeps_tac. }
  intros patient.
  apply keeps_bind; [apply keeps_getColumnValue|]. intros root. cbv zeta.
  apply keeps_bind; [apply keeps_getColumnValue|]. intros addIms.
  apply keeps_bind; [apply keeps_getColumnValue|]. intros addMas.
  apply keeps_bind; [destruct patient; keeps_tac|]. intros p.
  apply keeps_bind; [apply keeps_lift_world|]. intros case.
  apply keeps_bind; [keeps_tac|]. intros _.
  apply keeps_bind; [apply keeps_unlock_gui|]. intros _.
  apply keeps_lift_world.
Qed.

(** [loadCase], step by step, on an active batch and a change that does not
    lead before row 0. *)
Lemma loadCase_active (h : Host) (idx_change : Z) (self : Widget) :
  0 <= currentIdx self -> 0 <= currentIdx self + idx_change ->
  (exists e s1, loadCase h idx_change self = (Raise e, s1) /\
                currentIdx s1 = currentIdx self /\ caseCount s1 = caseCount self /\
                is_Some (currentCase self)) \/
  (caseCount self <= currentIdx self + idx_change /\
   exists s', loadCase h idx_change self = (Ok tt, s') /\ no_batch s' /\
              caseCount s' = caseCount self) \/
  (currentIdx self + idx_change < caseCount self /\
   currentIdx (loadCase h idx_change self).2 = currentIdx self + idx_change /\
   caseCount (loadCase h idx_change self).2 = caseCount self).
Proof.
  intros H0 H1.
  assert (E0 : (currentIdx self <? 0) = false) by (apply Z.ltb_ge; lia).
  assert (E1 : (currentIdx self + idx_change <? 0) = false) by (apply Z.ltb_ge; lia).
  remember (loadCase h idx_change self) as R eqn:HR.
  unfold loadCase in HR. unfold bind at 1 in HR. unfold get at 1 in HR.
  cbv beta iota in HR. rewrite E0, E1 in HR.
  match type of HR with
  | context [bind ?c ?k self] => set (closing := c) in HR; set (rest := k) in HR
  end.
  pose proof (keeps_close_open_case h self self) as [Hi Hc].
  change (currentIdx (closing self).2 = currentIdx self) in Hi.
  change (caseCount (closing self).2 = caseCount self) in Hc.
  unfold bind at 1 in HR.
  destruct (closing self) as [[[]|e] s1] eqn:Hclose.
  2:{ left. exists e, s1. simpl in Hi, Hc. split; [done|]. split; [done|]. split; [done|].
      unfold closing in Hclose. destruct (currentCase self); [eauto|discriminate Hclose]. }
  unfold rest in HR. clear rest.
  simpl in Hi, Hc. right.
  unfold bind at 1 in HR. unfold modify at 1 in HR. cbv beta iota in HR.
  unfold bind at 1 in HR. unfold get at 1 in HR. cbv beta iota in HR.
  change (currentIdx (set_currentIdx (currentIdx s1 + idx_change) s1))
    with (currentIdx s1 + idx_change) in HR.
  change (caseCount (set_currentIdx (currentIdx s1 + idx_change) s1))
    with (caseCount s1) in HR.
  rewrite Hi, Hc in HR.
  destruct (currentIdx self + idx_change >=? caseCount self) eqn:Hge.
  - left. apply Z.geb_le in Hge. split; [lia|].
    destruct (end_of_batch_run (set_currentIdx (currentIdx self + idx_change) s1))
      as [s' [Hrun [Hnb Hcnt]]].
    exists s'. split; [congruence|]. split; [exact Hnb|]. simpl in Hcnt. congruence.
  - right. rewrite Z.geb_leb in Hge. apply Z.leb_gt in Hge. split; [lia|].
    destruct (keeps_load_row h (set_currentIdx (currentIdx self + idx_change) s1))
      as [Hi' Hc'].
    simpl in Hi', Hc'. rewrite HR. split; [rewrite Hi'; lia | rewrite Hc'; lia].
Qed.

Lemma loadCase_cursor_ok (h : Host) (idx_change : Z) (self : Widget) :
  cursor_ok self -> cursor_ok (loadCase h idx_change self).2.
Proof.
  intros Hok. destruct (Z.ltb_spec (currentIdx self) 0) as [Hneg|Hpos].
  - unfold loadCase, bind, get. cbv beta iota.
    apply Z.ltb_lt in Hneg as ->. exact Hok.
  - destruct (Z.ltb_spec (currentIdx self + idx_change) 0) as [Hlt|Hge].
    + rewrite (loadCase_before_first_row h self idx_change Hpos Hlt). exact Hok.
    + unfold cursor_ok in *.
      destruct (loadCase_active h idx_change self Hpos Hge)
        as [[e [s1 [-> [Hi [Hc _]]]]]|[[_ [s' [-> [Hnb _]]]]|[Hlt [Hi Hc]]]].
      * simpl. rewrite Hi, Hc. exact Hok.
      * left. apply Hnb.
      * right. rewrite Hi, Hc. lia.
Qed.

Lemma keeps_triple {A} (c : M Widget A) (i n : Z) (E : Widget -> Prop) :
  keeps c ->
  (forall s, currentIdx s = i /\ caseCount s = n -> E s) ->
  triple (fun s => currentIdx s = i /\ caseCount s = n) c
         (fun _ s => currentIdx s = i /\ caseCount s = n) E.
Proof.
  intros Hk HE s [Hi Hc]. destruct (Hk s) as [Hi' Hc'].
  destruct (c s) as [[a|e] s']; simpl in Hi', Hc'; [|apply HE]; split; congruence.
Qed.

Lemma startBatch_cursor_ok (start : Z) (self : Widget) :
  currentIdx self = -1 -> 1 <= start -> cursor_ok (_startBatch start self).2.
Proof.
  intros Hidx Hstart.
  remember (_startBatch start self) as R eqn:HR.
  unfold _startBatch in HR.
  unfold bind at 1 in HR. unfold modify at 1 in HR. cbv beta iota in HR.
  unfold bind at 1 in HR. unfold modify at 1 in HR. cbv beta iota in HR.
  unfold bind at 1 in HR. unfold get at 1 in HR. cbv beta iota in HR.
  set (s0 := set_tableNode _ _) in HR.
  destruct (tableNode s0) as [batchTable|].
  2:{ subst R. left. exact Hidx. }
  unfold bind at 1 in HR. unfold modify at 1 in HR. cbv beta iota in HR.
  unfold bind at 1 in HR. unfold modify at 1 in HR. cbv beta iota in HR.
  unfold bind at 1 in HR. unfold get at 1 in HR. cbv beta iota in HR.
  set (s1 := set_caseCount _ _) in HR.
  assert (Hi1 : currentIdx s1 = -1) by exact Hidx.
  destruct (caseCount s1 <? start) eqn:Hlt.
  { subst R. left. exact Hidx. }
  apply Z.ltb_ge in Hlt.
  match type of HR with
  | R = ?c s1 =>
      assert (T : triple (fun s => currentIdx s = -1 /\ caseCount s = caseCount s1) c
                         (fun _ s => cursor_ok s) cursor_ok)
  end.
  { assert (HE : forall s, currentIdx s = -1 /\ caseCount s = caseCount s1 -> cursor_ok s)
      by (intros s [Hi _]; by left).
    eapply triple_bind;
      [apply keeps_triple; [unfold set_column; keeps_tac | exact HE] | intros ?].
    do 3 (eapply triple_bind;
            [apply keeps_triple; [apply keeps_find_column | exact HE] | intros ?]).
    do 2 (eapply triple_bind;
            [apply keeps_triple; [apply keeps_find_columns | exact HE] | intros ?]).
    eapply triple_bind;
      [apply keeps_triple; [apply keeps_setGUIstate | exact HE] | intros ?].
    eapply triple_bind; [|intros ?; apply triple_ret; intros s Hs; exact Hs].
    apply triple_modify. intros s [_ Hc]. right.
    cbn [currentIdx caseCount set_currentIdx]. lia. }
  specialize (T s1 (conj Hi1 eq_refl)). rewrite <- HR in T.
  destruct R as [[b|e] s2]; exact T.
Qed.

(** C9.  Starting a batch, advancing, retreating and resetting each leave
    the cursor at -1 or on a row of the table, however they end; with the
    cursor at -1, advance and retreat return without changing the widget or
    the scene at all. *)
Theorem cursor_invariant (h : Host) (self : Widget) :
  1 <= npStart (inputs self) -> cursor_ok self ->
  cursor_ok (onReset h self).2 /\
  cursor_ok (onNext h self).2 /\
  cursor_ok (onPrevious h self).2 /\
  (currentIdx self = -1 ->
     onNext h self = (Ok tt, self) /\ onPrevious h self = (Ok tt, self)).
Proof.
  intros Hstart Hok. split; [|split; [|split]].
  - unfold onReset. unfold bind at 1. unfold get at 1. cbv beta iota.
    destruct (Z.ltb_spec (currentIdx self) 0) as [Hneg|Hpos].
    + assert (Hidx : currentIdx self = -1) by (destruct Hok; lia).
      unfold bind at 1. destruct (keeps_lock_gui self) as [Hi Hc].
      destruct (lock_gui self) as [[[]|e] s1]; simpl in Hi, Hc.
      2:{ left. simpl. congruence. }
      unfold bind.
      pose proof (startBatch_cursor_ok (npStart (inputs self)) s1 ltac:(congruence) Hstart)
        as Hsb.
      destruct (_startBatch (npStart (inputs self)) s1) as [[[|]|e] s2]; simpl in Hsb.
      * by apply loadCase_cursor_ok.
      * exact Hsb.
      * exact Hsb.
    + unfold bind at 1.
      destruct (setGUIstate_false_run self) as [s' [-> _]].
      left. reflexivity.
  - unfold onNext, bind, get. cbv beta iota.
    destruct (currentIdx self <? 0); [exact Hok | by apply loadCase_cursor_ok].
  - unfold onPrevious, bind, get. cbv beta iota.
    destruct (currentIdx self <? 0); [exact Hok | by apply loadCase_cursor_ok].
  - intros Hidx. unfold onNext, onPrevious, bind, get. cbv beta iota.
    rewrite Hidx. split; reflexivity.
Qed.

Lemma cursor_invariant_witness :
  cursor_ok (onReset (host_of "/data/s1" ["pre_T1_EA.nii.gz"])
               (setup (Some (table_of ["/data/s1"])) empty_world)).2 /\
  cursor_ok (onNext (host_of "/data/s1" ["pre_T1_EA.nii.gz"])
               (setup (Some (table_of ["/data/s1"])) empty_world)).2 /\
  cursor_ok (onPrevious (host_of "/data/s1" ["pre_T1_EA.nii.gz"])
               (setup (Some (table_of ["/data/s1"])) empty_world)).2 /\
  (currentIdx (setup (Some (table_of ["/data/s1"])) empty_world) = -1 ->
     onNext (host_of "/data/s1" ["pre_T1_EA.nii.gz"])
            (setup (Some (table_of ["/data/s1"])) empty_world)
       = (Ok tt, setup (Some (table_of ["/data/s1"])) empty_world) /\
     onPrevious (host_of "/data/s1" ["pre_T1_EA.nii.gz"])
                (setup (Some (table_of ["/data/s1"])) empty_world)
       = (Ok tt, setup (Some (table_of ["/data/s1"])) empty_world)).
Proof.
  apply (cursor_invariant (host_of "/data/s1" ["pre_T1_EA.nii.gz"])
           (setup (Some (table_of ["/data/s1"])) empty_world)).
  - simpl. lia.
  - left. reflexivity.
Defined.

(** Past the last row, [loadCase] either resets to "no batch loaded", or
    an exception left the closing of the open case and the cursor stayed. *)
Lemma advance_past_end (h : Host) (idx_change : Z) (self : Widget) :
  0 <= currentIdx self < caseCount self ->
  caseCount self <= currentIdx self + idx_change ->
  (exists s', loadCase h idx_change self = (Ok tt, s') /\ no_batch s') \/
  (is_Some (currentCase self) /\
   exists e s1, loadCase h idx_change self = (Raise e, s1) /\
                currentIdx s1 = currentIdx self).
Proof.
  intros Hin Hpast.
  destruct (loadCase_active h idx_change self)
    as [[e [s1 [Hrun [Hi [Hc Hcase]]]]]|[[_ [s' [Hrun [Hnb _]]]]|[Hlt _]]]; [lia|lia| | |lia].
  - right. eauto.
  - left. eauto.
Qed.

(** C4, at a failing input.  A batch of one row is started with the reader
    name left empty, as the text field is initialised.  The case of row 0 is
    open.  Advancing moves past the last row, but [onNext] ends with
    [TypeError] raised while closing the case: the cursor is still 0 and the
    widget is not in the "no batch loaded" state. *)
Theorem advance_past_end_empty_reader :
  exists self1 self2,
    onReset (host_of "/data/s1" ["pre_T1_EA.nii.gz"])
            (setup (Some (table_of ["/data/s1"])) empty_world) = (Ok tt, self1) /\
    currentIdx self1 = 0 /\ caseCount self1 = 1 /\
    txtReaderName_text (inputs self1) = "" /\ is_Some (currentCase self1) /\
    caseCount self1 <= currentIdx self1 + 1 /\
    onNext (host_of "/data/s1" ["pre_T1_EA.nii.gz"]) self1 = (Raise TypeError, self2) /\
    currentIdx self2 = 0 /\ ~ no_batch self2.
Proof.
  eexists _, _.
  split; [vm_compute; reflexivity|].
  split; [reflexivity|]. split; [reflexivity|]. split; [reflexivity|].
  split; [vm_compute; eauto|]. split; [vm_compute; discriminate|].
  split; [vm_compute; reflexivity|]. split; [reflexivity|].
  intros [H _]. vm_compute in H. discriminate H.
Qed.

(* ===================================================================== *)
(** ** Placing segmentations in the views *)
(* ===================================================================== *)

Lemma find_update_entry (l : list (node_id * Node)) (n m : node_id) (f : Node -> Node) :
  snd <$> List.find (fun p => Nat.eqb p.1 m) (List.map (Scene.update_entry n f) l) =
  (if Nat.eqb m n then f else id) <$> (snd <$> List.find (fun p => Nat.eqb p.1 m) l).
Proof.
  induction l as [|[k x] l IH]; [done|].
  cbn [List.map]. unfold Scene.update_entry at 1. cbn [fst snd].
  destruct (Nat.eqb_spec k n) as [->|Hkn]; cbn [List.find fst snd].
  - destruct (Nat.eqb_spec n m) as [->|Hnm].
    + by rewrite Nat.eqb_refl.
    + exact IH.
  - destruct (Nat.eqb_spec k m) as [->|Hkm].
    + destruct (Nat.eqb_spec m n) as [->|?]; [done|reflexivity].
    + exact IH.
Qed.

Lemma map_update_entry_fresh (l : list (node_id * Node)) (n k : node_id) (f : Node -> Node) :
  Forall (fun p => (p.1 < k)%nat) l -> (k <= n)%nat ->
  List.map (Scene.update_entry n f) l = l.
Proof.
  intros Hall Hkn. induction Hall as [|[m x] l Hm Hall IH]; [done|].
  cbn [List.map]. rewrite IH. unfold Scene.update_entry. cbn [fst snd] in *.
  destruct (Nat.eqb_spec m n) as [->|?]; [lia|done].
Qed.




(* ===================================================================== *)
(** ** The embedding on concrete inputs *)
(* ===================================================================== *)

Example lower_example : PyStr.lower "pre_T1_EA.NII.gz" = "pre_t1_ea.nii.gz".
Proof. reflexivity. Qed.

Example find_example : PyStr.find "_segment" "post_T1_LA_segment" = 10.
Proof. reflexivity. Qed.

Example find_absent_example : PyStr.find "_segment" "abc" = -1.
Proof. reflexivity. Qed.

Example strip_segment_example : strip_segment "post_T1_LA_segment" = "post_T1_LA".
Proof. reflexivity. Qed.

(** Without the suffix, [find] yields [-1] and the slice drops the last
    character. *)
Example strip_segment_no_suffix_example : strip_segment "abc" = "ab".
Proof. reflexivity. Qed.

Example split_comma_example : PyStr.split_comma "a, b,,c" = ["a"; " b"; ""; "c"].
Proof. reflexivity. Qed.

Example strip_example : PyStr.strip "  a b " = "a b".
Proof. reflexivity. Qed.

Example path_join_example : path_join "/data/s1" "pre_T1_EA_tumor_r" = "/data/s1/pre_T1_EA_tumor_r".
Proof. reflexivity. Qed.

Example sorted_views_example :
  sorted_by id (view_name <$> four_views) = ["Red"; "Slice4"; "Slice5"; "Yellow"].
Proof. reflexivity. Qed.

Example mean_example : is_zero (np_mean (Array [0; 0; 0])) = true /\
                       is_zero (np_mean (Array [0; 1; 0])) = false /\
                       is_zero (np_mean (Array [])) = false /\
                       is_zero (np_mean (Scalar 0)) = true.
Proof. repeat split. Qed.

(** Loading a subject with an early- and a late-arterial pre-contrast
    volume and a label drawn on the late-arterial one: the pre-T1 view
    (entry 1) gets the late-arterial volume, and the loaded label. *)
Example load_example :
  exists c w,
    new_Case (host_of "/data/s1"
                ["pre_T1_EA.nii.gz"; "pre_T1_LA.nii.gz"; "pre_T1_LA_tumor_r.nii.gz"])
             "/data/s1" "r" no_settings empty_world = (Ok c, w) /\
    volumesLoad c = [None; Some 1%nat; None; None] /\
    labelVolumesLoad c = [None; Some 3%nat; None; None] /\
    (fun sv => (view_name sv, view_background sv)) <$> views w =
      [("Red", None); ("Yellow", None); ("Slice4", Some 1%nat); ("Slice5", None)].
Proof.
  eexists _, _. split; [vm_compute; reflexivity|].
  split; [reflexivity|]. split; reflexivity.
Qed.

(** The first loop of [_loadImages] hands entry [i] of [volumesLoad] to the
    view it is run for. *)
Lemma set_background_assigns (self : Case) (i : nat) (name : string) (v : node_id)
    (w : World) :
  volumesLoad self !! i = Some (Some v) ->
  exists w',
    set_background self (Z.of_nat i, name) w = (Ok tt, w') /\
    forall sv, sv ∈ views w' -> view_name sv = name -> view_background sv = Some v.
Proof.
  intros Hv. unfold set_background, try_except_all, py_index. cbn [fst snd].
  rewrite Nat2Z.id, Hv.
  unfold bind, get, Scene.print, update_view, modify, ret. cbv beta iota.
  eexists. split; [reflexivity|].
  cbn [views Scene.set_views Scene.add_log].
  intros sv Hsv Hname. apply list_elem_of_In, in_map_iff in Hsv as [sv0 [Hsv0 _]].
  destruct (String.eqb_spec (view_name sv0) name) as [Heq|Hne].
  - by subst sv.
  - subst sv. contradiction.
Qed.


(* ===================================================================== *)
(** ** Components left untouched *)
(* ===================================================================== *)

Section Preserves.
Context {St X : Type} (f : St -> X).

Lemma preserves_ret {A} (a : A) : preserves f (ret a).
Proof. intros s. done. Qed.

Lemma preserves_raise {A} e : preserves f (@raise St A e).
Proof. intros s. done. Qed.

Lemma preserves_get : preserves f (@get St).
Proof. intros s. done. Qed.

Lemma preserves_modify (g : St -> St) :
  (forall s, f (g s) = f s) -> preserves f (modify g).
Proof. intros H s. apply H. Qed.

Lemma preserves_bind {A B} (c : M St A) (k : A -> M St B) :
  preserves f c -> (forall a, preserves f (k a)) -> preserves f (bind c k).
Proof.
  intros Hc Hk s. unfold bind. specialize (Hc s).
  destruct (c s) as [[a|e] s1]; simpl in Hc; [|exact Hc].
  rewrite (Hk a s1). exact Hc.
Qed.

Lemma preserves_for_each {A} (l : list A) (body : A -> M St unit) :
  (forall x, preserves f (body x)) -> preserves f (for_each l body).
Proof.
  intros Hb. induction l as [|x l IH]; simpl.
  - apply preserves_ret.
  - apply preserves_bind; [apply Hb | intros _; exact IH].
Qed.

Lemma preserves_for_fold {A B} (l : list A) (body : B -> A -> M St B) (b : B) :
  (forall b x, preserves f (body b x)) -> preserves f (for_fold l body b).
Proof.
  intros Hb. revert b. induction l as [|x l IH]; intros b; simpl.
  - apply preserves_ret.
  - apply preserves_bind; [apply Hb | intros b'; apply IH].
Qed.

Lemma preserves_try_except_all {A} (c h : M St A) :
  preserves f c -> preserves f h -> preserves f (try_except_all c h).
Proof.
  intros Hc Hh s. unfold try_except_all. specialize (Hc s).
  destruct (c s) as [[a|e] s1]; simpl in Hc; [exact Hc|].
  rewrite (Hh s1). exact Hc.
Qed.

Lemma preserves_try_except {A} (c h : M St A) e :
  preserves f c -> preserves f h -> preserves f (try_except c e h).
Proof.
  intros Hc Hh s. unfold try_except. specialize (Hc s).
  destruct (c s) as [[a|e'] s1]; simpl in Hc; [exact Hc|].
  destruct (decide (e' = e)); [|exact Hc]. rewrite (Hh s1). exact Hc.
Qed.
End Preserves.

Ltac preserves_step :=
  first
    [ apply preserves_ret
    | apply preserves_raise
    | apply preserves_get
    | apply preserves_modify; intros; reflexivity
    | apply preserves_for_each; intros
    | apply preserves_for_fold; intros
    | apply preserves_try_except_all
    | apply preserves_try_except
    | apply preserves_bind; [|intros]
    | progress cbv zeta
    | match goal with
      | |- preserves _ (if ?b then _ else _) => destruct b
      | |- preserves _ (match ?x with _ => _ end) => destruct x
      end ].
Ltac preserves_tac := repeat preserves_step.

Lemma preserves_written_load_label h self path j : preserves written (load_label h self path j).
Proof.
  unfold load_label, Scene.print, Scene.add_node, Scene.update_segmentation,
    Scene.update_display, Scene.update_node, Scene.remove_node.
  preserves_tac.
Qed.

Lemma preserves_written_match_file h self subject_dir acc i :
  preserves written (match_file h self subject_dir acc i).
Proof.
  unfold match_file. apply preserves_for_fold. intros b x. unfold match_series.
  cbv zeta. apply preserves_bind.
  { destruct (PyStr.contains _ _); [|apply preserves_ret].
    apply preserves_bind; [|intros; apply preserves_ret].
    unfold loadVolume, Scene.add_node. intros s. reflexivity. }
  intros raws. apply preserves_bind; [|intros; apply preserves_ret].
  destruct (PyStr.contains _ _); [|apply preserves_ret].
  apply preserves_bind; [apply preserves_written_load_label|intros; apply preserves_ret].
Qed.

Lemma preserves_written_select h self subject_dir :
  preserves written (select_placeholder_for_view h self subject_dir).
Proof.
  unfold select_placeholder_for_view, load_data_to_placeholders, os_listdir.
  apply preserves_bind.
  { cbv zeta. apply preserves_bind; [destruct (listdir h subject_dir); preserves_tac|].
    intros listing. apply preserves_bind; [|intros; apply preserves_ret].
    apply preserves_for_fold. intros. apply preserves_written_match_file. }
  intros r. cbv zeta. apply preserves_bind; [|intros; apply preserves_ret].
  apply preserves_for_fold. intros a i. unfold assign_label, Scene.print. preserves_tac.
Qed.

Lemma preserves_written_correct self vols labs :
  preserves written (correct_volumesLoad self vols labs).
Proof. intros w. by rewrite correct_volumesLoad_world. Qed.

Lemma preserves_written_set_background self iv : preserves written (set_background self iv).
Proof.
  unfold set_background, py_index, Scene.print, update_view. preserves_tac.
Qed.

Lemma preserves_written_show_segmentation self iv :
  preserves written (show_segmentation self iv).
Proof.
  unfold show_segmentation, py_index, Scene.print, update_view, Scene.update_segmentation,
    Scene.update_display, Scene.update_node.
  cbv zeta. apply preserves_bind; [preserves_tac|]. intros _.
  apply preserves_bind; [preserves_tac|]. intros segNode.
  apply preserves_bind; [preserves_tac|]. intros vol.
  destruct vol as [vol|]; [|apply preserves_ret].
  destruct segNode as [segNode|].
  - apply preserves_bind; [apply preserves_get|]. intros w.
    apply preserves_bind; [preserves_tac|]. intros _.
    apply preserves_bind; [preserves_tac|]. intros _.
    destruct (Scene.segmentation w segNode ≫= seg_display); preserves_tac.
  - apply preserves_bind; [apply preserves_get|]. intros w.
    apply preserves_bind; [preserves_tac|]. intros _.
    apply preserves_bind; [preserves_tac|]. intros _.
    apply preserves_bind; [intros s; reflexivity|]. intros seg.
    apply preserves_bind; [preserves_tac|]. intros _.
    apply preserves_bind; [preserves_tac|]. intros _.
    apply preserves_bind; [intros s; reflexivity|]. intros disp.
    preserves_tac.
Qed.

Lemma preserves_written_new_Case h subject reader kwargs :
  preserves written (new_Case h subject reader kwargs).
Proof.
  unfold new_Case, _loadImages. cbv zeta.
  apply preserves_bind.
  { apply preserves_bind; [apply preserves_written_select|]. intros self1. cbv zeta.
    apply preserves_bind; [apply preserves_written_correct|]. intros vols.
    apply preserves_bind; [apply preserves_get|]. intros w.
    apply preserves_bind;
      [apply preserves_for_each; intros; apply preserves_written_set_background|].
    intros _. apply preserves_bind; [apply preserves_get|]. intros w1.
    apply preserves_bind;
      [apply preserves_for_each; intros; apply preserves_written_show_segmentation|].
    intros _. apply preserves_ret. }
  intros r. cbv zeta. unfold Scene.logger. preserves_tac.
Qed.

(** X1.  Building a case object never writes a file, whether the
    constructor returns or raises. *)
Theorem loading_writes_nothing (h : Host) (subject reader_name : string) (kwargs : Settings)
    (w : World) :
  written (new_Case h subject reader_name kwargs w).2 = written w.
Proof. apply preserves_written_new_Case. Qed.

(** X2.  When the subject directory cannot be listed, the constructor
    raises [OSError] and the scene, the views and the log are untouched. *)
Theorem unlistable_directory_raises (h : Host) (subject reader_name : string)
    (kwargs : Settings) (w : World) :
  listdir h subject = None ->
  new_Case h subject reader_name kwargs w = (Raise OSError, w).
Proof.
  intros Hl. unfold new_Case, _loadImages, select_placeholder_for_view,
    load_data_to_placeholders, os_listdir. rewrite Hl. reflexivity.
Qed.

Lemma unlistable_directory_raises_witness :
  new_Case (host_of "/data/s1" []) "/data/s2" "r" no_settings empty_world
  = (Raise OSError, empty_world).
Proof.
  apply (unlistable_directory_raises (host_of "/data/s1" []) "/data/s2" "r" no_settings
           empty_world).
  reflexivity.
Defined.


(* ===================================================================== *)
(** ** More on saving and closing *)
(* ===================================================================== *)

Lemma lookup_app_labelmaps (w w' : World) (ls : list (node_id * Node)) (n : node_id) :
  nodes w' = nodes w ++ ls -> Forall is_labelmap ls ->
  Scene.lookup w' n = Scene.lookup w n \/
  (Scene.lookup w n = None /\ exists nm src, Scene.lookup w' n = Some (LabelMapVolumeNode nm src)).
Proof.
  intros Hn Hls. unfold Scene.lookup. rewrite Hn. clear Hn.
  induction (nodes w) as [|[k x] l IH]; simpl.
  - induction Hls as [|[k x] ls Hx Hls IH]; simpl; [by left|].
    destruct (Nat.eqb k n).
    + right. split; [done|]. unfold is_labelmap in Hx. simpl in Hx.
      destruct x; try done. eauto.
    + exact IH.
  - destruct (Nat.eqb k n); [by left|exact IH].
Qed.

Lemma segmentation_app_labelmaps (w w' : World) ls n :
  nodes w' = nodes w ++ ls -> Forall is_labelmap ls ->
  Scene.segmentation w' n = Scene.segmentation w n.
Proof.
  intros Hn Hls. unfold Scene.segmentation.
  destruct (lookup_app_labelmaps w w' ls n Hn Hls) as [->|[-> [nm [src ->]]]]; done.
Qed.

Lemma master_app_labelmaps (w w' : World) ls n :
  nodes w' = nodes w ++ ls -> Forall is_labelmap ls ->
  masterVolumeNode_of w' n = masterVolumeNode_of w n.
Proof.
  intros Hn Hls. unfold masterVolumeNode_of.
  rewrite (segmentation_app_labelmaps w w' ls n Hn Hls).
  destruct (Scene.segmentation w n ≫= seg_reference) as [r|]; [|done]. simpl.
  destruct (lookup_app_labelmaps w w' ls r Hn Hls) as [->|[-> [nm [src ->]]]]; done.
Qed.

Lemma save_path_app_labelmaps (w w' : World) ls folder reader n :
  nodes w' = nodes w ++ ls -> Forall is_labelmap ls ->
  save_path w' folder reader n = save_path w folder reader n.
Proof.
  intros Hn Hls. unfold save_path. rewrite (master_app_labelmaps w w' ls n Hn Hls).
  destruct (masterVolumeNode_of w n) as [mv|] eqn:Hmv; [|done]. simpl.
  unfold Scene.GetName.
  destruct (lookup_app_labelmaps w w' ls mv Hn Hls) as [->|[Hnone _]]; [done|].
  unfold masterVolumeNode_of in Hmv.
  destruct (Scene.segmentation w n ≫= seg_reference) as [r|]; [|done]. simpl in Hmv.
  destruct (Scene.lookup w r) as [[]|] eqn:Hr; try done.
  injection Hmv as <-. congruence.
Qed.

Lemma blank_app_labelmaps (w w' : World) ls n :
  nodes w' = nodes w ++ ls -> Forall is_labelmap ls -> (blank w' n <-> blank w n).
Proof.
  intros Hn Hls. unfold blank, first_segment_array.
  by rewrite (segmentation_app_labelmaps w w' ls n Hn Hls).
Qed.

(** One iteration of the save loop appends at most one labelmap node and
    touches no other node. *)
Lemma save_mask_nodes folder reader name item w :
  exists ls, nodes (save_mask folder reader name item w).2 = nodes w ++ ls /\
             Forall is_labelmap ls /\ (List.length ls <= 1)%nat.
Proof.
  destruct (save_mask folder reader name item w) as [res w'] eqn:Hrun.
  cbn [snd]. revert Hrun. unfold save_mask. unfold bind at 1. unfold try_except.
  rewrite first_segment_array_read.
  destruct (first_segment_array w item.2) as [a|].
  - destruct (is_zero (np_mean (Array a))).
    { intros [= <- <-]. exists []. rewrite app_nil_r. split; [done|].
      split; [constructor|simpl; lia]. }
    unfold bind, get, Scene.print, Scene.logger, modify, ret, raise.
    cbn -[path_join String.append].
    destruct (masterVolumeNode_of w item.2) as [mv|]; cbn -[path_join String.append].
    + destruct reader as [r|]; cbn -[path_join String.append]; intros [= <- <-];
        (eexists; split; [reflexivity|]); (split; [by repeat constructor|simpl; lia]).
    + destruct reader as [r|], name as [nm|]; cbn -[path_join String.append];
        intros [= <- <-];
        first [ by (exists []; rewrite app_nil_r; split; [done|];
                    split; [constructor|simpl; lia])
              | (eexists; split; [reflexivity|]);
                (split; [by repeat constructor|simpl; lia]) ].
  - cbn. intros [= <- <-]. exists []. rewrite app_nil_r. split; [done|].
    split; [constructor|simpl; lia].
Qed.

Lemma save_loop_nodes folder reader items name w :
  exists ls,
    nodes (for_fold items (save_mask folder reader) name w).2 = nodes w ++ ls /\
    Forall is_labelmap ls /\ (List.length ls <= List.length items)%nat.
Proof.
  revert name w. induction items as [|item items IH]; intros name w.
  - exists []. simpl. rewrite app_nil_r. split; [done|]. split; [constructor|lia].
  - change (for_fold (item :: items) (save_mask folder reader) name w)
      with (bind (save_mask folder reader name item)
                 (fun b' => for_fold items (save_mask folder reader) b') w).
    unfold bind.
    destruct (save_mask_nodes folder reader name item w) as [ls1 [Hn1 [Hl1 Hlen1]]].
    destruct (save_mask folder reader name item w) as [[name'|e] w1]; simpl in Hn1.
    + destruct (IH name' w1) as [ls2 [Hn2 [Hl2 Hlen2]]].
      exists (ls1 ++ ls2). rewrite Hn2, Hn1, app_assoc. split; [done|].
      split; [by apply Forall_app|]. rewrite length_app. simpl. lia.
    + exists ls1. simpl. split; [done|]. split; [done|]. lia.
Qed.

(** X3.  [_saveMasks] only ever appends labelmap volume nodes to the
    scene, at most one per entry of the dictionary: it modifies and removes
    nothing, however it ends. *)
Theorem saving_only_appends_labelmaps (nodes_ : list (string * node_id)) (folder : string)
    (reader_name : option string) (w : World) :
  exists ls,
    nodes (_saveMasks nodes_ folder reader_name w).2 = nodes w ++ ls /\
    Forall is_labelmap ls /\
    (List.length ls <= List.length nodes_)%nat.
Proof.
  unfold _saveMasks, bind.
  destruct (save_loop_nodes folder reader_name nodes_ None w) as [ls H].
  destruct (for_fold nodes_ (save_mask folder reader_name) None w) as [[name|e] w']; eauto.
Qed.


Lemma save_mask_savable folder reader name item w :
  savable w item.2 ->
  exists p name',
    save_path w folder reader item.2 = Some p /\
    save_mask folder reader name item w =
      (Ok name',
       Scene.add_log
         (Scene.add_written
            (Scene.add_log
               (Scene.set_nodes (Scene.add_log w STDOUT item.1)
                  (nodes w ++ [(next_id w, LabelMapVolumeNode "LabelMapVolume" (Some item.2))])
                  (S (next_id w)))
               STDOUT ("About to save " +:+ p +:+ " as label map from segment"))
            (mkSavedFile p (next_id w) item.2))
         INFO ("Saved node in " +:+ p)).
Proof.
  intros [Hnb [mv Hmv]]. unfold save_path. rewrite Hmv. cbn [mbind option_bind].
  assert (Hnil : forall s : string, s +:+ EmptyString = s).
  { induction s as [|c s IH]; [done|].
    change (String c s +:+ EmptyString) with (String c (s +:+ EmptyString)).
    by rewrite IH. }
  assert (Hrun : forall p name',
    (match reader with
     | Some r => Some (Scene.GetName w mv +:+ "_tumor_" +:+ r)
     | None => Some (Scene.GetName w mv)
     end = name') ->
    (match name' with Some n => path_join folder n +:+ ".nii.gz" | None => p end = p) ->
    save_mask folder reader name item w =
      (Ok name',
       Scene.add_log
         (Scene.add_written
            (Scene.add_log
               (Scene.set_nodes (Scene.add_log w STDOUT item.1)
                  (nodes w ++ [(next_id w, LabelMapVolumeNode "LabelMapVolume" (Some item.2))])
                  (S (next_id w)))
               STDOUT ("About to save " +:+ p +:+ " as label map from segment"))
            (mkSavedFile p (next_id w) item.2))
         INFO ("Saved node in " +:+ p))).
  { intros p name' Hname Hp.
    unfold save_mask. unfold bind at 1. unfold try_except.
    rewrite first_segment_array_read. unfold blank in Hnb.
    destruct (first_segment_array w item.2) as [a|]; [|by destruct Hnb].
    destruct (is_zero (np_mean (Array a))); [by destruct Hnb|].
    unfold bind, get, Scene.print, Scene.logger, modify, ret, raise.
    cbn -[path_join String.append]. rewrite Hmv.
    destruct reader as [r|]; cbn -[path_join String.append];
      subst name'; cbn -[path_join String.append] in Hp; rewrite Hp; reflexivity. }
  destruct reader as [r|].
  - eexists _, _. split; [reflexivity|]. apply Hrun; reflexivity.
  - eexists _, _. split; [reflexivity|]. apply Hrun; [reflexivity|].
    unfold reader_suffix. by rewrite Hnil.
Qed.

Lemma expected_files_ext w w' folder reader k items :
  (forall n, save_path w' folder reader n = save_path w folder reader n) ->
  expected_files w' folder reader k items = expected_files w folder reader k items.
Proof.
  intros H. revert k. induction items as [|item items IH]; intros k; simpl; [done|].
  by rewrite H, IH.
Qed.

Lemma save_loop_savable folder reader items name w :
  Forall (fun item => savable w item.2) items ->
  exists name' w',
    for_fold items (save_mask folder reader) name w = (Ok name', w') /\
    written w' = written w ++ expected_files w folder reader (next_id w) items /\
    (exists ls, nodes w' = nodes w ++ ls /\ Forall is_labelmap ls) /\
    next_id w' = (next_id w + List.length items)%nat.
Proof.
  revert name w. induction items as [|item items IH]; intros name w Hall.
  - eexists _, _. split; [reflexivity|]. simpl. rewrite app_nil_r. split; [done|].
    split; [|lia]. exists []. by rewrite app_nil_r.
  - apply Forall_cons in Hall as [Hitem Hall].
    change (for_fold (item :: items) (save_mask folder reader) name w)
      with (bind (save_mask folder reader name item)
                 (fun b' => for_fold items (save_mask folder reader) b') w).
    unfold bind.
    destruct (save_mask_savable folder reader name item w Hitem) as [p [name1 [Hp ->]]].
    set (w1 := Scene.add_log _ INFO _).
    assert (Hn1 : nodes w1 =
                  nodes w ++ [(next_id w, LabelMapVolumeNode "LabelMapVolume" (Some item.2))])
      by reflexivity.
    assert (Hl1 : Forall is_labelmap
                    [(next_id w, LabelMapVolumeNode "LabelMapVolume" (Some item.2))])
      by (by repeat constructor).
    destruct (IH name1 w1) as [name' [w' [Hrun [Hw [[ls [Hn Hl]] Hid]]]]].
    { eapply Forall_impl; [exact Hall|]. intros it [Hb Hm]. split.
      - by rewrite (blank_app_labelmaps w w1 _ it.2 Hn1 Hl1).
      - by rewrite (master_app_labelmaps w w1 _ it.2 Hn1 Hl1). }
    exists name', w'. split; [exact Hrun|]. split.
    + rewrite Hw. cbn [expected_files]. rewrite Hp.
      rewrite (expected_files_ext w w1); [|intros n; by apply (save_path_app_labelmaps w w1 _ _ _ _ Hn1 Hl1)].
      change (written w1) with (written w ++ [mkSavedFile p (next_id w) item.2]).
      change (next_id w1) with (S (next_id w)).
      by rewrite <- app_assoc.
    + split.
      * eexists. rewrite Hn, Hn1, <- app_assoc. split; [reflexivity|].
        by apply Forall_app.
      * rewrite Hid. change (next_id w1) with (S (next_id w)). simpl. lia.
Qed.

Lemma expected_files_length w folder reader k items :
  Forall (fun item => savable w item.2) items ->
  List.length (expected_files w folder reader k items) = List.length items.
Proof.
  intros Hall. revert k. induction Hall as [|item items [_ [mv Hmv]] Hall IH]; intros k.
  - reflexivity.
  - cbn [expected_files]. unfold save_path at 1. rewrite Hmv. cbn [mbind option_bind].
    rewrite length_app, IH. reflexivity.
Qed.

(** X4.  The naming of the output: when every segmentation of the
    dictionary has a non-blank first segment and a master volume in the
    scene, [_saveMasks] returns and writes, in order, one file per entry, at
    [<folder>/<master volume name>[_tumor_<reader>].nii.gz]. *)
Theorem saved_files_follow_convention (nodes_ : list (string * node_id)) (folder : string)
    (reader_name : option string) (w : World) :
  Forall (fun item => savable w item.2) nodes_ ->
  exists w',
    _saveMasks nodes_ folder reader_name w = (Ok tt, w') /\
    written w' = written w ++ expected_files w folder reader_name (next_id w) nodes_ /\
    List.length (expected_files w folder reader_name (next_id w) nodes_) = List.length nodes_.
Proof.
  intros Hall. unfold _saveMasks, bind.
  destruct (save_loop_savable folder reader_name nodes_ None w Hall)
    as [name' [w' [-> [Hw _]]]].
  exists w'. split; [reflexivity|]. split; [exact Hw|].
  by apply expected_files_length.
Qed.

(** X5.  No collision avoidance: two segmentations bound to the same
    master volume are written to the same path, the second after the first. *)
Theorem same_master_same_path (name1 name2 : string) (seg1 seg2 : node_id) (folder : string)
    (reader_name : option string) (w : World) :
  savable w seg1 -> savable w seg2 ->
  masterVolumeNode_of w seg1 = masterVolumeNode_of w seg2 ->
  exists w' f1 f2,
    _saveMasks [(name1, seg1); (name2, seg2)] folder reader_name w = (Ok tt, w') /\
    written w' = written w ++ [f1; f2] /\
    saved_from f1 = seg1 /\ saved_from f2 = seg2 /\
    saved_path f1 = saved_path f2.
Proof.
  intros H1 H2 Hsame. unfold _saveMasks, bind.
  destruct (save_loop_savable folder reader_name [(name1, seg1); (name2, seg2)] None w)
    as [name' [w' [-> [Hw _]]]].
  { apply Forall_cons. split; [exact H1|]. apply Forall_cons. split; [exact H2|].
    apply Forall_nil. done. }
  cbn [expected_files snd] in Hw. unfold save_path in Hw. rewrite <- Hsame in Hw.
  destruct H1 as [_ [mv Hmv]]. rewrite Hmv in Hw. cbn in Hw.
  eexists _, _, _. split; [reflexivity|]. split; [exact Hw|]. repeat split.
Qed.


Lemma saved_files_follow_convention_witness :
  exists w',
    _saveMasks [("pre_T1_EA_segment", 1%nat); ("second_segment", 2%nat)] "/data/s1"
               (Some "r") two_masks_world = (Ok tt, w') /\
    written w' =
      written two_masks_world ++
      expected_files two_masks_world "/data/s1" (Some "r") (next_id two_masks_world)
        [("pre_T1_EA_segment", 1%nat); ("second_segment", 2%nat)] /\
    List.length (expected_files two_masks_world "/data/s1" (Some "r")
                   (next_id two_masks_world)
                   [("pre_T1_EA_segment", 1%nat); ("second_segment", 2%nat)]) =
    List.length [("pre_T1_EA_segment", 1%nat); ("second_segment", 2%nat)].
Proof.
  apply (saved_files_follow_convention
           [("pre_T1_EA_segment", 1%nat); ("second_segment", 2%nat)] "/data/s1" (Some "r")
           two_masks_world).
  repeat (apply Forall_cons; split); try apply Forall_nil; try done;
    (split; [intros H; vm_compute in H; discriminate H | vm_compute; eauto]).
Defined.

Lemma same_master_same_path_witness :
  exists w' f1 f2,
    _saveMasks [("pre_T1_EA_segment", 1%nat); ("second_segment", 2%nat)] "/data/s1"
               (Some "r") two_masks_world = (Ok tt, w') /\
    written w' = written two_masks_world ++ [f1; f2] /\
    saved_from f1 = 1%nat /\ saved_from f2 = 2%nat /\
    saved_path f1 = saved_path f2.
Proof.
  apply (same_master_same_path "pre_T1_EA_segment" "second_segment" 1%nat 2%nat "/data/s1"
           (Some "r") two_masks_world).
  - split; [intros H; vm_compute in H; discriminate H | vm_compute; eauto].
  - split; [intros H; vm_compute in H; discriminate H | vm_compute; eauto].
  - reflexivity.
Defined.

Example expected_files_example :
  expected_files two_masks_world "/data/s1" (Some "r") 3%nat
    [("pre_T1_EA_segment", 1%nat); ("second_segment", 2%nat)] =
  [mkSavedFile "/data/s1/pre_T1_EA_tumor_r.nii.gz" 3%nat 1%nat;
   mkSavedFile "/data/s1/pre_T1_EA_tumor_r.nii.gz" 4%nat 2%nat].
Proof. reflexivity. Qed.

Lemma triple_preserves {St X A} (f : St -> X) (c : M St A) (x : X) :
  preserves f c ->
  triple (fun s => f s = x) c (fun _ s => f s = x) (fun _ => True).
Proof.
  intros Hp s Hs. specialize (Hp s). destruct (c s) as [[a|e] s1]; [|done].
  simpl in Hp. congruence.
Qed.

Lemma preserves_views_save_mask folder reader name item :
  preserves views (save_mask folder reader name item).
Proof.
  unfold save_mask, arrayFromSegment_first, Scene.print, Scene.logger.
  cbv zeta. apply preserves_bind; [preserves_tac|]. intros segment_array.
  destruct (is_zero _); [apply preserves_ret|].
  apply preserves_bind; [apply preserves_get|]. intros w.
  apply preserves_bind; [preserves_tac|]. intros _.
  apply preserves_bind; [preserves_tac|]. intros name1.
  apply preserves_bind; [preserves_tac|]. intros name2.
  apply preserves_bind; [preserves_tac|]. intros filename.
  apply preserves_bind; [intros s; reflexivity|]. intros lm.
  preserves_tac.
Qed.

Lemma preserves_views_saveMasks nodes_ folder reader :
  preserves views (_saveMasks nodes_ folder reader).
Proof.
  unfold _saveMasks. apply preserves_bind; [|intros; apply preserves_ret].
  apply preserves_for_fold. intros. apply preserves_views_save_mask.
Qed.


(** X7.  A case object built by the constructor never has a loaded mask
    recorded, so with the save-new flag off closing it writes no file,
    whatever the save-loaded flag, the reader name and the scene are. *)
Theorem built_case_writes_only_new_masks (h : Host) (subject reader : string)
    (kwargs : Settings) (w w1 : World) (c : Case) :
  new_Case h subject reader kwargs w = (Ok c, w1) ->
  forall (save_loaded_masks : bool) (reader_name : option string) (w2 : World),
    written (closeCase h c save_loaded_masks false reader_name w2).2 = written w2.
Proof.
  intros Hnew sl rn w2.
  destruct (new_Case_mask_nodes _ _ _ _ _ _ _ Hnew) as [Hm _].
  unfold closeCase, closeCase_observed, loaded_masks_of. rewrite Hm.
  destruct rn as [r|]; [|reflexivity].
  destruct (bool_decide (Some r = Some EmptyString)); [reflexivity|].
  destruct sl; reflexivity.
Qed.

Lemma built_case_writes_only_new_masks_witness :
  written (closeCase (host_of "/data/s1" ["pre_T1_EA.nii.gz"])
             (new_Case_result (host_of "/data/s1" ["pre_T1_EA.nii.gz"]) "/data/s1" "r"
                              no_settings empty_world)
             true false (Some "r")
             (new_Case (host_of "/data/s1" ["pre_T1_EA.nii.gz"]) "/data/s1" "r" no_settings
                       empty_world).2).2
  = written (new_Case (host_of "/data/s1" ["pre_T1_EA.nii.gz"]) "/data/s1" "r" no_settings
                      empty_world).2.
Proof.
  apply (built_case_writes_only_new_masks (host_of "/data/s1" ["pre_T1_EA.nii.gz"])
           "/data/s1" "r" no_settings empty_world
           (new_Case (host_of "/data/s1" ["pre_T1_EA.nii.gz"]) "/data/s1" "r" no_settings
                     empty_world).2).
  vm_compute. reflexivity.
Defined.


(* ===================================================================== *)
(** ** More on the iteration controller *)
(* ===================================================================== *)

(** X8.  Starting a batch beyond the last row of the table: [onReset]
    returns after a warning, no batch is active, and the GUI stays as it was
    locked for loading, with the reset button disabled. *)
Theorem start_beyond_last_row_locks_gui (h : Host) (self : Widget) (t : Table) :
  currentIdx self < 0 ->
  batchTableSelector_currentNode self = Some t ->
  table_rows t < npStart (inputs self) ->
  exists self',
    onReset h self = (Ok tt, self') /\
    gui_locked (gui self') /\
    currentIdx self' = currentIdx self /\
    currentCase self' = currentCase self /\
    shortcuts self' = shortcuts self /\ observers self' = observers self /\
    world self' = Scene.add_log (world self) WARNING "No cases to process (%d cases, start %d)".
Proof.
  intros Hidx Ht Hrows.
  unfold onReset. unfold bind at 1. unfold get at 1. cbv beta iota.
  apply Z.ltb_lt in Hidx as Hidx'. rewrite Hidx'.
  unfold lock_gui, _startBatch, modify_gui, widget_log, lift_world, Scene.logger,
    bind, modify, get, ret.
  cbn. rewrite Ht. cbn.
  apply Z.ltb_lt in Hrows. rewrite Hrows.
  eexists. split; [reflexivity|]. unfold gui_locked. cbn. repeat split.
Qed.

Lemma start_beyond_last_row_locks_gui_witness :
  exists self',
    onReset (host_of "/data/s1" [])
            (set_inputs (mkInputs 3 "path" "image" "mask" "" "" "r" true true true)
                        (setup (Some (table_of ["/data/s1"; "/data/s2"])) empty_world))
      = (Ok tt, self') /\
    gui_locked (gui self') /\
    currentIdx self' = -1 /\
    currentCase self' = None /\
    shortcuts self' = [] /\ observers self' = [] /\
    world self' = Scene.add_log empty_world WARNING "No cases to process (%d cases, start %d)".
Proof.
  apply (start_beyond_last_row_locks_gui (host_of "/data/s1" [])
           (set_inputs (mkInputs 3 "path" "image" "mask" "" "" "r" true true true)
                       (setup (Some (table_of ["/data/s1"; "/data/s2"])) empty_world))
           (table_of ["/data/s1"; "/data/s2"])).
  - simpl. lia.
  - reflexivity.
  - simpl. lia.
Defined.




Lemma preserves_lift_world {X A} (f : Widget -> X) (c : M World A) :
  (forall w s, f (set_world w s) = f s) -> preserves f (lift_world c).
Proof.
  intros H s. unfold lift_world. destruct (c (world s)) as [r w]. apply H.
Qed.

Lemma preserves_world_lift {X A} (g : World -> X) (c : M World A) :
  preserves g c -> preserves (fun s => g (world s)) (lift_world c).
Proof.
  intros H s. unfold lift_world. specialize (H (world s)).
  destruct (c (world s)) as [r w]. exact H.
Qed.

Lemma preserves_scene_logger l msg : preserves scene_of (Scene.logger l msg).
Proof. intros w. reflexivity. Qed.

Lemma preserves_scene_print msg : preserves scene_of (Scene.print msg).
Proof. intros w. reflexivity. Qed.

(** The frame rule: a component the computation leaves alone can be added
    to every assertion of a triple. *)
Lemma triple_frame {St X A} (f : St -> X) (x : X) (P : St -> Prop) (c : M St A)
    (Q : A -> St -> Prop) (E : St -> Prop) :
  preserves f c -> triple P c Q E ->
  triple (fun s => P s /\ f s = x) c (fun a s => Q a s /\ f s = x) (fun s => E s /\ f s = x).
Proof.
  intros Hp Ht s [HP Hf]. specialize (Hp s). specialize (Ht s HP).
  destruct (c s) as [[a|e] s']; simpl in Hp; (split; [exact Ht | congruence]).
Qed.

Lemma triple_preserves_exn {St X A} (f : St -> X) (c : M St A) (x : X) :
  preserves f c ->
  triple (fun s => f s = x) c (fun _ s => f s = x) (fun s => f s = x).
Proof.
  intros Hp s Hs. specialize (Hp s). destruct (c s) as [[a|e] s1]; simpl in Hp; congruence.
Qed.

Ltac wpreserves_step :=
  first
    [ apply preserves_lift_world; intros; reflexivity
    | apply preserves_world_lift; first [apply preserves_scene_logger | apply preserves_scene_print]
    | preserves_step ].
Ltac wpreserves_tac := repeat wpreserves_step.

(** *** Starting a batch *)

Lemma columns_ok_empty : columns_ok ∅.
Proof. split; intros k x H; by rewrite lookup_empty in H. Qed.

Lemma columns_ok_insert_one columns key column :
  key <> "addIms" -> key <> "addMas" -> columns_ok columns ->
  columns_ok (<[key := OneColumn column]> columns).
Proof.
  intros H1 H2 [Hl Ho]. split; intros k x H.
  - destruct (decide (k = key)) as [->|Hne].
    + by rewrite lookup_insert_eq in H.
    + rewrite lookup_insert_ne in H by done. eauto.
  - destruct (decide (k = key)) as [->|Hne]; [done|].
    rewrite lookup_insert_ne in H by done. eauto.
Qed.

Lemma columns_ok_insert_list columns key l :
  key = "addIms" \/ key = "addMas" -> columns_ok columns ->
  columns_ok (<[key := ColumnList l]> columns).
Proof.
  intros Hk [Hl Ho]. split; intros k x H.
  - destruct (decide (k = key)) as [->|Hne]; [done|].
    rewrite lookup_insert_ne in H by done. eauto.
  - destruct (decide (k = key)) as [->|Hne].
    + by rewrite lookup_insert_eq in H.
    + rewrite lookup_insert_ne in H by done. eauto.
Qed.

Lemma triple_widget_log_columns p l msg :
  triple (columns_with p) (widget_log l msg) (fun _ => columns_with p) (fun _ => False).
Proof. intros s Hs. exact Hs. Qed.

Lemma triple_find_column p t text key :
  key <> "patient" -> key <> "addIms" -> key <> "addMas" ->
  triple (columns_with p) (find_column t text key) (fun _ => columns_with p) (fun _ => False).
Proof.
  intros H0 H1 H2. unfold find_column.
  destruct (negb (String.eqb text "")); [|by apply triple_ret].
  destruct (GetColumnByName t text) as [column|]; [|apply triple_widget_log_columns].
  intros s (columns & Hc & Hok & Hp). unfold set_column, modify. cbn.
  rewrite Hc. eexists. split; [reflexivity|].
  split; [by apply columns_ok_insert_one|].
  by rewrite lookup_insert_ne.
Qed.

Lemma triple_find_columns p t text key :
  key = "addIms" \/ key = "addMas" ->
  triple (columns_with p) (find_columns t text key) (fun _ => columns_with p) (fun _ => False).
Proof.
  intros Hk. unfold find_columns.
  destruct (negb (String.eqb text "")); [|by apply triple_ret].
  eapply triple_bind.
  - apply (triple_for_fold (fun _ _ => columns_with p) _ _ _ []).
    intros done x b. destruct (GetColumnByName t (PyStr.strip x)).
    + by apply triple_ret.
    + eapply triple_bind; [apply triple_widget_log_columns|].
      intros ?. by apply triple_ret.
  - intros addIms. cbv beta. destruct (Nat.ltb 0 (List.length addIms)); [|by apply triple_ret].
    intros s (columns & Hc & Hok & Hp). unfold set_column, modify. cbn.
    rewrite Hc. eexists. split; [reflexivity|].
    split; [by apply columns_ok_insert_list|].
    rewrite lookup_insert_ne; [done|]. by destruct Hk as [->| ->].
Qed.

Lemma preserves_find_column {X} (f : Widget -> X) t text key :
  (forall w s, f (set_world w s) = f s) -> (forall c s, f (set_caseColumns c s) = f s) ->
  preserves f (find_column t text key).
Proof.
  intros Hw Hc. unfold find_column, set_column, widget_log.
  destruct (negb _); [|apply preserves_ret].
  destruct (GetColumnByName t text).
  - apply preserves_modify. intros s. apply Hc.
  - by apply preserves_lift_world.
Qed.

Lemma preserves_find_columns {X} (f : Widget -> X) t text key :
  (forall w s, f (set_world w s) = f s) -> (forall c s, f (set_caseColumns c s) = f s) ->
  preserves f (find_columns t text key).
Proof.
  intros Hw Hc. unfold find_columns, set_column, widget_log.
  destruct (negb _); [|apply preserves_ret].
  apply preserves_bind.
  - apply preserves_for_fold. intros b x. destruct (GetColumnByName t _).
    + apply preserves_ret.
    + apply preserves_bind; [by apply preserves_lift_world|intros; apply preserves_ret].
  - intros addIms. destruct (Nat.ltb _ _); [|apply preserves_ret].
    apply preserves_modify. intros s. apply Hc.
Qed.

Lemma preserves_scene_find_column t text key :
  preserves (fun s => scene_of (world s)) (find_column t text key).
Proof.
  unfold find_column, set_column, widget_log.
  destruct (negb _); [|apply preserves_ret].
  destruct (GetColumnByName t text).
  - apply preserves_modify. reflexivity.
  - apply preserves_world_lift, preserves_scene_logger.
Qed.

Lemma preserves_scene_find_columns t text key :
  preserves (fun s => scene_of (world s)) (find_columns t text key).
Proof.
  unfold find_columns, set_column, widget_log.
  destruct (negb _); [|apply preserves_ret].
  apply preserves_bind.
  - apply preserves_for_fold. intros b x. destruct (GetColumnByName t _).
    + apply preserves_ret.
    + apply preserves_bind;
        [apply preserves_world_lift, preserves_scene_logger|intros; apply preserves_ret].
  - intros addIms. destruct (Nat.ltb _ _); [|apply preserves_ret].
    apply preserves_modify. reflexivity.
Qed.

(** What [_setGUIstate(csv_loaded=True)] does when nothing is registered
    yet. *)
Lemma setGUIstate_true_run s :
  shortcuts s = [] -> observers s = [] ->
  _setGUIstate true s =
  (Ok tt,
   set_gui (mkGui true true (nextButton_text (gui s)) (resetButton_enabled (gui s)) "Reset"
                  true true false false false false false)
     (set_observers ["EndCloseEvent"] (set_shortcuts ["Ctrl+N"; "Ctrl+P"] s))).
Proof.
  intros Hs Ho. unfold _setGUIstate, modify_gui, bind, modify, get. cbn.
  rewrite Hs. cbn. rewrite Ho. cbn. rewrite Hs, Ho. reflexivity.
Qed.


(** The part of [_startBatch] that follows the patient column. *)
Lemma startBatch_tail_run (start : Z) (t : Table) (p : option ColumnEntry) (s : Widget) :
  columns_with p s -> shortcuts s = [] -> observers s = [] ->
  exists s',
    (find_column t (rootSelector_text (inputs s)) "root" ;;
     find_column t (imageSelector_text (inputs s)) "image" ;;
     find_column t (maskSelector_text (inputs s)) "mask" ;;
     find_columns t (addImsSelector_text (inputs s)) "addIms" ;;
     find_columns t (addMasksSelector_text (inputs s)) "addMas" ;;
     _setGUIstate true ;;
     modify (set_currentIdx (start - 1)) ;;
     ret true)%py s = (Ok true, s') /\
    columns_with p s' /\ registered s' /\ currentIdx s' = start - 1 /\
    (caseCount s', tableNode s', csv_dir s', currentCase s', inputs s',
     batchTableSelector_currentNode s') =
    (caseCount s, tableNode s, csv_dir s, currentCase s, inputs s,
     batchTableSelector_currentNode s) /\
    scene_of (world s') = scene_of (world s) /\
    gui s' = mkGui true true (nextButton_text (gui s)) (resetButton_enabled (gui s)) "Reset"
                   true true false false false false false.
Proof.
  intros Hc Hs Ho.
  set (Fw := fun s : Widget =>
               (caseCount s, tableNode s, csv_dir s, currentCase s, inputs s,
                batchTableSelector_currentNode s, shortcuts s, observers s, gui s)).
  set (Fs := fun s : Widget => scene_of (world s)).
  set (Inv := fun s0 : Widget => (columns_with p s0 /\ Fw s0 = Fw s) /\ Fs s0 = Fs s).
  set (Exc := fun s0 : Widget => (False /\ Fw s0 = Fw s) /\ Fs s0 = Fs s).
  assert (T1 : forall text key, key <> "patient" -> key <> "addIms" -> key <> "addMas" ->
                 triple Inv (find_column t text key) (fun _ => Inv) Exc).
  { intros text key H0 H1 H2. apply triple_frame; [apply preserves_scene_find_column|].
    apply triple_frame; [by apply preserves_find_column|]. by apply triple_find_column. }
  assert (T2 : forall text key, key = "addIms" \/ key = "addMas" ->
                 triple Inv (find_columns t text key) (fun _ => Inv) Exc).
  { intros text key Hk. apply triple_frame; [apply preserves_scene_find_columns|].
    apply triple_frame; [by apply preserves_find_columns|]. by apply triple_find_columns. }
  match goal with
  | |- exists s', ?c s = (Ok true, s') /\ @?Q s' =>
      assert (T : triple Inv c (fun b s' => b = true /\ Q s') Exc)
  end.
  { eapply triple_bind; [by apply T1|intros ?].
    eapply triple_bind; [by apply T1|intros ?].
    eapply triple_bind; [by apply T1|intros ?].
    eapply triple_bind; [apply T2; by left|intros ?].
    eapply triple_bind; [apply T2; by right|intros ?].
    intros s0 [[Hc0 Hw0] Hs0]. unfold Fw in Hw0. injection Hw0 as E1 E2 E3 E4 E5 E6 E7 E8 E9.
    unfold bind. rewrite setGUIstate_true_run by congruence.
    unfold modify, ret. cbn. split; [done|].
    split; [exact Hc0|]. split; [done|]. split; [done|].
    split; [congruence|]. split; [exact Hs0|]. congruence. }
  specialize (T s). unfold Inv in T at 1. specialize (T (conj (conj Hc eq_refl) eq_refl)).
  match type of T with
  | match ?c s with _ => _ end => destruct (c s) as [[b|e] s']
  end.
  - destruct T as [-> HQ]. exists s'. split; [reflexivity|exact HQ].
  - destruct T as [[[] _] _].
Qed.

(** [_startBatch] on a table with enough rows, with nothing registered. *)
Lemma startBatch_run (start : Z) (self : Widget) (t : Table) :
  batchTableSelector_currentNode self = Some t -> start <= table_rows t ->
  shortcuts self = [] -> observers self = [] ->
  exists s',
    _startBatch start self = (Ok true, s') /\
    columns_with (OneColumn <$> patient_column t) s' /\ registered s' /\
    currentIdx s' = start - 1 /\ caseCount s' = table_rows t /\
    tableNode s' = Some t /\ csv_dir s' = table_dir t /\
    currentCase s' = currentCase self /\ inputs s' = inputs self /\
    batchTableSelector_currentNode s' = Some t /\
    scene_of (world s') = scene_of (world self) /\
    gui s' = mkGui true true (nextButton_text (gui self)) (resetButton_enabled (gui self))
                   "Reset" true true false false false false false.
Proof.
  intros Ht Hrows Hs Ho.
  unfold _startBatch.
  unfold bind at 1. unfold modify at 1. cbv beta iota.
  unfold bind at 1. unfold modify at 1. cbv beta iota.
  unfold bind at 1. unfold get at 1. cbv beta iota.
  change (tableNode (set_tableNode _ _))
    with (batchTableSelector_currentNode self). rewrite Ht.
  unfold bind at 1. unfold modify at 1. cbv beta iota.
  unfold bind at 1. unfold modify at 1. cbv beta iota.
  unfold bind at 1. unfold get at 1. cbv beta iota.
  set (s1 := set_caseCount _ _).
  change (caseCount s1) with (table_rows t).
  replace (table_rows t <? start) with false by (symmetry; apply Z.ltb_ge; lia).
  cbv zeta. unfold bind at 1.
  assert (Hfin : forall p s2,
            p = OneColumn <$> patient_column t ->
            columns_with p s2 -> shortcuts s2 = [] -> observers s2 = [] ->
            inputs s2 = inputs self -> caseCount s2 = table_rows t ->
            tableNode s2 = Some t -> csv_dir s2 = table_dir t ->
            currentCase s2 = currentCase self ->
            batchTableSelector_currentNode s2 = Some t ->
            world s2 = world self -> gui s2 = gui self ->
            exists s',
              (find_column t (rootSelector_text (inputs s1)) "root" ;;
               find_column t (imageSelector_text (inputs s1)) "image" ;;
               find_column t (maskSelector_text (inputs s1)) "mask" ;;
               find_columns t (addImsSelector_text (inputs s1)) "addIms" ;;
               find_columns t (addMasksSelector_text (inputs s1)) "addMas" ;;
               _setGUIstate true ;;
               modify (set_currentIdx (start - 1)) ;;
               ret true)%py s2 = (Ok true, s') /\
              columns_with (OneColumn <$> patient_column t) s' /\ registered s' /\
              currentIdx s' = start - 1 /\ caseCount s' = table_rows t /\
              tableNode s' = Some t /\ csv_dir s' = table_dir t /\
              currentCase s' = currentCase self /\ inputs s' = inputs self /\
              batchTableSelector_currentNode s' = Some t /\
              scene_of (world s') = scene_of (world self) /\
              gui s' = mkGui true true (nextButton_text (gui self))
                             (resetButton_enabled (gui self))
                             "Reset" true true false false false false false).
  { intros p s2 Hp Hc2 Hs2 Ho2 Hin E1 E2 E3 E4 E6 E7 E8.
    change (inputs s1) with (inputs self). rewrite <- Hin.
    destruct (startBatch_tail_run start t p s2 Hc2 Hs2 Ho2)
      as (s' & Hrun & Hc' & Hreg & Hidx & Hw & Hsc & Hgui).
    injection Hw as W1 W2 W3 W4 W5 W6.
    exists s'. split; [exact Hrun|]. subst p.
    split; [exact Hc'|]. split; [exact Hreg|]. split; [exact Hidx|].
    split; [congruence|]. split; [congruence|]. split; [congruence|].
    split; [congruence|]. split; [congruence|]. split; [congruence|].
    split; [rewrite Hsc, E7; reflexivity|].
    rewrite Hgui, E8. reflexivity. }
  assert (Et : tableNode s1 = Some t) by exact Ht.
  assert (Eb : batchTableSelector_currentNode s1 = Some t) by exact Ht.
  unfold patient_column in Hfin |- *.
  destruct (GetColumnByName t "patient") as [column|] eqn:Hpat.
  - unfold set_column, modify. cbv beta iota.
    apply (Hfin (Some (OneColumn column))); [done| |done..].
    eexists. split; [reflexivity|]. split.
    + apply columns_ok_insert_one; [done|done|apply columns_ok_empty].
    + by rewrite lookup_insert_eq.
  - destruct (GetColumnByName t "ID") as [column|] eqn:Hid.
    + unfold set_column, modify. cbv beta iota.
      apply (Hfin (Some (OneColumn column))); [done| |done..].
      eexists. split; [reflexivity|]. split.
      * apply columns_ok_insert_one; [done|done|apply columns_ok_empty].
      * by rewrite lookup_insert_eq.
    + unfold ret. cbv beta iota.
      apply (Hfin None); [done| |done..].
      eexists. split; [reflexivity|]. split; [apply columns_ok_empty|].
      by rewrite lookup_empty.
Qed.


(** *** Loading the row under the cursor *)

(** The three phases of [loadCase]: closing the open case, leaving the
    batch past its last row, loading the row under the cursor. *)
Abbreviation close_open_case h self :=
  (match currentCase self with
   | Some case =>
       closeCase_observed (@lift_world) scene_cleared h case
         (chkSaveMasks (inputs self)) (chkSaveNewMasks (inputs self))
         (Some (txtReaderName_text (inputs self)))
   | None => ret tt
   end)%py.

Abbreviation end_of_batch :=
  (_setGUIstate false ;;
   modify (set_currentIdx (-1)) ;;
   modify (set_tableNode None) ;;
   widget_log INFO "########## All Done! ##########")%py.

Abbreviation load_row h :=
  (lock_gui ;;
   self <- get ;;
   patient <- match caseColumns self with
              | None => raise TypeError
              | Some columns =>
                  match columns !! "patient" with
                  | Some (OneColumn column) =>
                      widget_log INFO "Loading next patient (%d/%d): %s..." ;;
                      ret (Some (GetValue column (currentIdx self)))
                  | _ =>
                      widget_log INFO "Loading next patient (%d/%d)..." ;;
                      ret None
                  end
              end ;;
   root <- _getColumnValue self "root" false ;;
   let root := match root with
               | None => if negb (String.eqb (rootSelector_text (inputs self)) "")
                         then Some (Value (rootSelector_text (inputs self))) else None
               | some => some
               end in
   addIms <- _getColumnValue self "addIms" true ;;
   addMas <- _getColumnValue self "addMas" true ;;
   let settings := mkSettings root addIms addMas
                              (csv_dir self) (chkAutoRedirect (inputs self)) in
   patient <- match patient with
              | Some p => ret p
              | None => raise UnboundLocalError
              end ;;
   case <- lift_world (new_Case h patient (txtReaderName_text (inputs self)) settings) ;;
   modify (set_currentCase (Some case)) ;;
   unlock_gui ;;
   lift_world (Scene.print ("Patient: " +:+ PyStr.basename patient)))%py.

Lemma loadCase_unfold (h : Host) (idx_change : Z) (self : Widget) :
  0 <= currentIdx self -> 0 <= currentIdx self + idx_change ->
  loadCase h idx_change self =
  (close_open_case h self ;;
   modify (fun self => set_currentIdx (currentIdx self + idx_change) self) ;;
   self <- get ;;
   if currentIdx self >=? caseCount self then end_of_batch else load_row h)%py self.
Proof.
  intros H0 H1.
  assert (E0 : (currentIdx self <? 0) = false) by (apply Z.ltb_ge; lia).
  assert (E1 : (currentIdx self + idx_change <? 0) = false) by (apply Z.ltb_ge; lia).
  unfold loadCase. unfold bind at 1. unfold get at 1. cbv beta iota.
  rewrite E0, E1. reflexivity.
Qed.

Lemma lock_gui_run (s : Widget) : lock_gui s = (Ok tt, set_gui (locked (gui s)) s).
Proof. reflexivity. Qed.

Lemma unlock_gui_run (s : Widget) : unlock_gui s = (Ok tt, set_gui (unlocked (gui s)) s).
Proof. reflexivity. Qed.

Lemma gui_locked_locked g : gui_locked (locked g).
Proof. by repeat split. Qed.

Lemma gui_unlocked_unlocked g : gui_unlocked (unlocked g).
Proof. by repeat split. Qed.

(** [_getColumnValue] reads the widget it is given and leaves the state
    alone. *)
Lemma getColumnValue_cases (self : Widget) (colName : string) (is_list : bool) :
  (exists r, forall st, _getColumnValue self colName is_list st = (Ok r, st)) \/
  (exists e, forall st, _getColumnValue self colName is_list st = (Raise e, st)).
Proof.
  unfold _getColumnValue.
  destruct (caseColumns self) as [columns|]; [|right; by eexists].
  destruct (columns !! colName) as [entry|]; [|left; by eexists].
  destruct is_list, entry; first [left; by eexists | right; by eexists].
Qed.

(** On a well-shaped dictionary the three reads of [loadCase] return. *)
Lemma getColumnValue_ok (self : Widget) (columns : gmap string ColumnEntry)
    (colName : string) (is_list : bool) :
  caseColumns self = Some columns -> columns_ok columns ->
  is_list = bool_decide (colName = "addIms" \/ colName = "addMas") ->
  exists r, forall st, _getColumnValue self colName is_list st = (Ok r, st).
Proof.
  intros Hc [Hl Ho] ->. unfold _getColumnValue. rewrite Hc.
  destruct (columns !! colName) as [[column|l]|] eqn:He; [| |by eexists].
  - destruct (Ho _ _ He) as [H1 H2].
    rewrite bool_decide_eq_false_2 by tauto. by eexists.
  - rewrite bool_decide_eq_true_2 by eauto. by eexists.
Qed.

(** Loading a row: either an exception leaves before the constructor is
    called, with the GUI locked, or the constructor runs on the value of
    the [patient] column in the row under the cursor. *)
Lemma load_row_cases (h : Host) (s : Widget) :
  (exists e w, load_row h s = (Raise e, set_world w (set_gui (locked (gui s)) s)) /\
               scene_of w = scene_of (world s)) \/
  (exists columns column settings,
     caseColumns s = Some columns /\ columns !! "patient" = Some (OneColumn column) /\
     (let s2 := set_world (Scene.add_log (world s) INFO "Loading next patient (%d/%d): %s...")
                          (set_gui (locked (gui s)) s) in
      let patient := GetValue column (currentIdx s) in
      load_row h s =
        match new_Case h patient (txtReaderName_text (inputs s)) settings (world s2) with
        | (Ok c, w') =>
            (Ok tt,
             set_world (Scene.add_log w' STDOUT ("Patient: " +:+ PyStr.basename patient))
               (set_gui (unlocked (locked (gui s)))
                        (set_currentCase (Some c) (set_world w' s2))))
        | (Raise e, w') => (Raise e, set_world w' s2)
        end) /\
     settings_redirect settings = chkAutoRedirect (inputs s)).
Proof.
  remember (load_row h s) as R eqn:HR.
  unfold bind at 1 in HR. rewrite lock_gui_run in HR.
  unfold bind at 1 in HR. unfold get at 1 in HR. cbv beta iota in HR.
  set (s1 := set_gui (locked (gui s)) s) in *.
  change (caseColumns s1) with (caseColumns s) in HR.
  change (currentIdx s1) with (currentIdx s) in HR.
  change (inputs s1) with (inputs s) in HR.
  change (csv_dir s1) with (csv_dir s) in HR.
  assert (Hs1 : s1 = set_world (world s) s1) by (by destruct s).
  destruct (caseColumns s) as [columns|] eqn:Hc.
  2:{ left. exists TypeError, (world s). split; [|reflexivity].
      rewrite <- Hs1. exact HR. }
  destruct (getColumnValue_cases s1 "root" false) as [[root Hroot]|[e Hroot]];
  destruct (getColumnValue_cases s1 "addIms" true) as [[addIms HaddIms]|[e1 HaddIms]];
  destruct (getColumnValue_cases s1 "addMas" true) as [[addMas HaddMas]|[e2 HaddMas]];
  (destruct (columns !! "patient") as [[column|l]|] eqn:Hp);
  unfold bind at 1 in HR; unfold bind at 1 in HR;
  unfold widget_log, lift_world at 1, Scene.logger, modify at 1, ret at 1 in HR;
  cbv beta iota in HR;
  change (world s1) with (world s) in HR;
  unfold bind at 1 in HR; rewrite Hroot in HR; cbv beta iota zeta in HR;
  try (left; eexists _, _; split; [exact HR|reflexivity]);
  unfold bind at 1 in HR; rewrite HaddIms in HR; cbv beta iota in HR;
  try (left; eexists _, _; split; [exact HR|reflexivity]);
  unfold bind at 1 in HR; rewrite HaddMas in HR; cbv beta iota in HR;
  try (left; eexists _, _; split; [exact HR|reflexivity]);
  unfold bind at 1 in HR;
  first [unfold raise at 1 in HR | unfold ret at 1 in HR]; cbv beta iota in HR;
  try (left; eexists _, _; split; [exact HR|reflexivity]).
  right.
  exists columns, column,
    (mkSettings match root with
                | None => if negb (String.eqb (rootSelector_text (inputs s)) "")
                          then Some (Value (rootSelector_text (inputs s))) else None
                | some => some
                end addIms addMas (csv_dir s) (chkAutoRedirect (inputs s))).
  split; [reflexivity|]. split; [exact Hp|].
  split.
  - cbv zeta. rewrite HR. unfold bind at 1. unfold lift_world at 1.
    change (world (set_world ?w _)) with w.
    destruct (new_Case h _ _ _ _) as [[c|e] w']; reflexivity.
  - reflexivity.
Qed.

(** Loading a row when the batch has no [patient] entry: the row cannot be
    loaded, and the GUI stays locked. *)
Lemma load_row_without_patient (h : Host) (s : Widget) :
  columns_with None s ->
  load_row h s =
    (Raise UnboundLocalError,
     set_world (Scene.add_log (world s) INFO "Loading next patient (%d/%d)...")
               (set_gui (locked (gui s)) s)).
Proof.
  intros (columns & Hc & Hok & Hp).
  unfold bind at 1. rewrite lock_gui_run.
  unfold bind at 1. unfold get at 1. cbv beta iota.
  set (s1 := set_gui (locked (gui s)) s).
  change (caseColumns s1) with (caseColumns s).
  destruct (getColumnValue_ok s1 columns "root" false Hc Hok eq_refl) as [root Hroot].
  destruct (getColumnValue_ok s1 columns "addIms" true Hc Hok eq_refl) as [addIms HaddIms].
  destruct (getColumnValue_ok s1 columns "addMas" true Hc Hok eq_refl) as [addMas HaddMas].
  rewrite Hc, Hp.
  unfold bind at 1. unfold bind at 1. unfold widget_log, lift_world at 1, Scene.logger,
    modify at 1, ret at 1. cbv beta iota.
  unfold bind at 1. rewrite Hroot. cbv beta iota zeta.
  unfold bind at 1. rewrite HaddIms. cbv beta iota.
  unfold bind at 1. rewrite HaddMas. cbv beta iota.
  unfold bind at 1. unfold raise at 1. cbv beta iota.
  reflexivity.
Qed.


Lemma preserves_close_open_case {X} (f : Widget -> X) (h : Host) (self : Widget) :
  (forall w s, f (set_world w s) = f s) -> (forall g s, f (set_gui g s) = f s) ->
  (forall c s, f (set_currentCase c s) = f s) ->
  (forall t s, f (set_batchTableSelector_currentNode t s) = f s) ->
  preserves f (close_open_case h self).
Proof.
  intros Hw Hg Hc Ht.
  assert (Hct : preserves f onChangeTable).
  { unfold onChangeTable, modify_gui. apply preserves_bind; [apply preserves_get|].
    intros s0. apply preserves_modify. intros s. apply Hg. }
  destruct (currentCase self); [|apply preserves_ret].
  unfold closeCase_observed.
  apply preserves_bind; [by apply preserves_lift_world|]. intros _.
  apply preserves_bind;
    [|intros _; apply preserves_bind;
        [by apply preserves_lift_world|intros _; apply preserves_ret]].
  unfold scene_cleared.
  apply preserves_bind; [apply preserves_modify; intros s; apply Ht|]. intros _.
  apply preserves_bind; [exact Hct|]. intros _.
  apply preserves_bind; [apply preserves_get|]. intros s0.
  apply preserves_for_each. intros _. unfold onEndClose.
  apply preserves_bind; [apply preserves_get|]. intros s1.
  apply preserves_bind.
  - destruct (currentCase s1); [|apply preserves_ret].
    apply preserves_bind; [apply preserves_modify; intros s; apply Hc|]. intros _.
    by apply preserves_lift_world.
  - intros _. destruct (tableNode s1); [|apply preserves_ret].
    apply preserves_bind; [by apply preserves_lift_world|]. intros _.
    apply preserves_bind; [apply preserves_modify; intros s; apply Ht|]. intros _.
    exact Hct.
Qed.

(** X10.  A batch table with neither a [patient] nor an [ID] column: the
    batch starts, but loading its first row raises [UnboundLocalError], and
    the GUI stays locked with the batch active. *)
Theorem missing_patient_column_locks_gui (h : Host) (self : Widget) (t : Table) :
  currentIdx self < 0 -> currentCase self = None ->
  shortcuts self = [] -> observers self = [] ->
  batchTableSelector_currentNode self = Some t ->
  1 <= npStart (inputs self) <= table_rows t ->
  patient_column t = None ->
  exists self',
    onReset h self = (Raise UnboundLocalError, self') /\
    gui_locked (gui self') /\ registered self' /\
    currentIdx self' = npStart (inputs self) - 1 /\
    currentCase self' = None /\
    scene_of (world self') = scene_of (world self).
Proof.
  intros Hidx Hcase Hs Ho Ht Hstart Hpat.
  unfold onReset. unfold bind at 1. unfold get at 1. cbv beta iota.
  apply Z.ltb_lt in Hidx. rewrite Hidx.
  unfold bind at 1. rewrite lock_gui_run.
  set (s0 := set_gui (locked (gui self)) self).
  destruct (startBatch_run (npStart (inputs self)) s0 t Ht ltac:(lia) Hs Ho)
    as (s1 & Hrun & Hcols & Hreg & Hi & Hcnt & _ & _ & Hcc & _ & _ & Hsc & _).
  unfold bind at 1. rewrite Hrun.
  rewrite loadCase_unfold by lia.
  change (currentCase s0) with (currentCase self) in Hcc. rewrite Hcase in Hcc.
  rewrite Hcc. unfold bind at 1. unfold ret at 1. cbv beta iota.
  unfold bind at 1. unfold modify at 1. cbv beta iota.
  unfold bind at 1. unfold get at 1. cbv beta iota.
  set (s2 := set_currentIdx (currentIdx s1 + 0) s1).
  change (currentIdx s2) with (currentIdx s1 + 0).
  change (caseCount s2) with (caseCount s1).
  replace (currentIdx s1 + 0 >=? caseCount s1) with false
    by (symmetry; rewrite Z.geb_leb; apply Z.leb_gt; lia).
  rewrite load_row_without_patient.
  2:{ rewrite Hpat in Hcols. exact Hcols. }
  eexists. split; [reflexivity|].
  split; [apply gui_locked_locked|]. split; [exact Hreg|].
  split; [cbn; lia|]. split; [exact Hcc|]. exact Hsc.
Qed.

Lemma missing_patient_column_locks_gui_witness :
  exists self',
    onReset (host_of "/data/s1" [])
            (setup (Some (mkTable None 1 [("subject", ["/data/s1"])])) empty_world)
      = (Raise UnboundLocalError, self') /\
    gui_locked (gui self') /\ registered self' /\
    currentIdx self' = 1 - 1 /\
    currentCase self' = None /\
    scene_of (world self') = scene_of empty_world.
Proof.
  apply (missing_patient_column_locks_gui (host_of "/data/s1" [])
           (setup (Some (mkTable None 1 [("subject", ["/data/s1"])])) empty_world)
           (mkTable None 1 [("subject", ["/data/s1"])])).
  - simpl. lia.
  - reflexivity.
  - reflexivity.
  - reflexivity.
  - reflexivity.
  - simpl. lia.
  - reflexivity.
Defined.

(** X11.  When [loadCase] returns with the cursor on a row, the GUI is
    unlocked and the open case is the one of that row: built by the
    constructor on the directory the [patient] column gives for the row, for
    the reader of the text field, and with no loaded mask recorded. *)
Theorem loaded_row_is_open (h : Host) (idx_change : Z) (self self' : Widget) :
  0 <= currentIdx self -> 0 <= currentIdx self + idx_change < caseCount self ->
  loadCase h idx_change self = (Ok tt, self') ->
  currentIdx self' = currentIdx self + idx_change /\
  gui_unlocked (gui self') /\
  exists c columns column,
    currentCase self' = Some c /\
    caseColumns self' = Some columns /\ columns !! "patient" = Some (OneColumn column) /\
    image_root c = Some (GetValue column (currentIdx self')) /\
    reader_name c = txtReaderName_text (inputs self') /\ mask_nodes c = [].
Proof.
  intros H0 H1 Hrun. rewrite loadCase_unfold in Hrun by lia.
  unfold bind at 1 in Hrun.
  pose proof (preserves_close_open_case
                (fun s => (currentIdx s, caseCount s, caseColumns s, inputs s)) h self
                ltac:(done) ltac:(done) ltac:(done) ltac:(done) self) as Hf.
  destruct (close_open_case h self self) as [[[]|e] s1]; [|discriminate Hrun].
  cbn [snd] in Hf. injection Hf as F1 F2 F3 F4.
  unfold bind at 1 in Hrun. unfold modify at 1 in Hrun. cbv beta iota in Hrun.
  unfold bind at 1 in Hrun. unfold get at 1 in Hrun. cbv beta iota in Hrun.
  set (s2 := set_currentIdx (currentIdx s1 + idx_change) s1) in Hrun.
  change (currentIdx s2) with (currentIdx s1 + idx_change) in Hrun.
  change (caseCount s2) with (caseCount s1) in Hrun.
  rewrite F1, F2 in Hrun.
  replace (currentIdx self + idx_change >=? caseCount self) with false in Hrun
    by (symmetry; rewrite Z.geb_leb; apply Z.leb_gt; lia).
  cbv iota zeta in Hrun.
  destruct (load_row_cases h s2)
    as [(e & w & Hl & _)|(columns & column & settings & Hc & Hp & Hl & _)].
  { cbv zeta in Hl. rewrite Hl in Hrun. discriminate Hrun. }
  cbv zeta in Hl. rewrite Hl in Hrun.
  destruct (new_Case h _ _ _ _) as [[c|e] w'] eqn:Hnew; [|discriminate Hrun].
  injection Hrun as <-.
  destruct (new_Case_mask_nodes _ _ _ _ _ _ _ Hnew) as (Hm & Hroot & Hreader).
  split; [cbn; lia|]. split; [apply gui_unlocked_unlocked|].
  exists c, columns, column. split; [reflexivity|]. split; [exact Hc|].
  split; [exact Hp|]. split; [exact Hroot|]. split; [exact Hreader|]. exact Hm.
Qed.

Lemma loaded_row_is_open_witness :
  currentIdx (loadCase (host_of "/data/s2" ["pre_T1_EA.nii.gz"]) 1
                (set_caseColumns (Some {["patient" := OneColumn ["/data/s1"; "/data/s2"]]})
                                 first_row_widget)).2
  = currentIdx first_row_widget + 1 /\
  gui_unlocked
    (gui (loadCase (host_of "/data/s2" ["pre_T1_EA.nii.gz"]) 1
            (set_caseColumns (Some {["patient" := OneColumn ["/data/s1"; "/data/s2"]]})
                             first_row_widget)).2) /\
  exists c columns column,
    currentCase (loadCase (host_of "/data/s2" ["pre_T1_EA.nii.gz"]) 1
                   (set_caseColumns (Some {["patient" := OneColumn ["/data/s1"; "/data/s2"]]})
                                    first_row_widget)).2 = Some c /\
    caseColumns (loadCase (host_of "/data/s2" ["pre_T1_EA.nii.gz"]) 1
                   (set_caseColumns (Some {["patient" := OneColumn ["/data/s1"; "/data/s2"]]})
                                    first_row_widget)).2 = Some columns /\
    columns !! "patient" = Some (OneColumn column) /\
    image_root c =
      Some (GetValue column
              (currentIdx (loadCase (host_of "/data/s2" ["pre_T1_EA.nii.gz"]) 1
                             (set_caseColumns
                                (Some {["patient" := OneColumn ["/data/s1"; "/data/s2"]]})
                                first_row_widget)).2)) /\
    reader_name c =
      txtReaderName_text
        (inputs (loadCase (host_of "/data/s2" ["pre_T1_EA.nii.gz"]) 1
                   (set_caseColumns (Some {["patient" := OneColumn ["/data/s1"; "/data/s2"]]})
                                    first_row_widget)).2) /\
    mask_nodes c = [].
Proof.
  apply (loaded_row_is_open (host_of "/data/s2" ["pre_T1_EA.nii.gz"]) 1
           (set_caseColumns (Some {["patient" := OneColumn ["/data/s1"; "/data/s2"]]})
                            first_row_widget)).
  - simpl. lia.
  - simpl. lia.
  - vm_compute. reflexivity.
Defined.


(** *** Shortcuts and observer *)

Lemma preserves_load_row {X} (f : Widget -> X) (h : Host) :
  (forall w s, f (set_world w s) = f s) -> (forall g s, f (set_gui g s) = f s) ->
  (forall c s, f (set_currentCase c s) = f s) ->
  preserves f (load_row h).
Proof.
  intros Hw Hg Hc.
  assert (Hgui : forall k, preserves f (modify_gui k)).
  { intros k. apply preserves_modify. intros s. apply Hg. }
  assert (Hlog : forall l msg, preserves f (widget_log l msg)).
  { intros l msg. by apply preserves_lift_world. }
  apply preserves_bind.
  { unfold lock_gui. repeat (apply preserves_bind; [apply Hgui|intros _]). apply Hgui. }
  intros _. apply preserves_bind; [apply preserves_get|]. intros self.
  apply preserves_bind.
  { destruct (caseColumns self) as [columns|]; [|apply preserves_raise].
    destruct (columns !! "patient") as [[column|l]|];
      (apply preserves_bind; [apply Hlog|intros _; apply preserves_ret]). }
  intros patient.
  assert (Hget : forall colName is_list, preserves f (_getColumnValue self colName is_list)).
  { intros colName is_list s.
    destruct (getColumnValue_cases self colName is_list) as [[r ->]|[e ->]]; reflexivity. }
  apply preserves_bind; [apply Hget|]. intros root. cbv zeta.
  apply preserves_bind; [apply Hget|]. intros addIms.
  apply preserves_bind; [apply Hget|]. intros addMas.
  apply preserves_bind; [destruct patient; [apply preserves_ret|apply preserves_raise]|].
  intros p.
  apply preserves_bind; [by apply preserves_lift_world|]. intros case.
  apply preserves_bind; [apply preserves_modify; intros s; apply Hc|]. intros _.
  apply preserves_bind.
  { unfold unlock_gui. repeat (apply preserves_bind; [apply Hgui|intros _]). apply Hgui. }
  intros _. by apply preserves_lift_world.
Qed.

Lemma registration_ok_same (s s' : Widget) :
  (currentIdx s', shortcuts s', observers s') = (currentIdx s, shortcuts s, observers s) ->
  registration_ok s -> registration_ok s'.
Proof.
  intros [= E1 E2 E3] [Hidle Hactive]. unfold registration_ok, registered in *.
  rewrite E1, E2, E3. by split.
Qed.

Lemma registration_ok_idle (s : Widget) :
  currentIdx s = -1 -> shortcuts s = [] -> observers s = [] -> registration_ok s.
Proof. intros E1 E2 E3. split; [done|]. rewrite E1. lia. Qed.

Lemma loadCase_registration (h : Host) (idx_change : Z) (self : Widget) :
  registration_ok self -> registration_ok (loadCase h idx_change self).2.
Proof.
  intros Hok. destruct (Z.ltb_spec (currentIdx self) 0) as [Hneg|Hpos].
  { unfold loadCase, bind, get. cbv beta iota.
    apply Z.ltb_lt in Hneg as ->. exact Hok. }
  destruct (Z.ltb_spec (currentIdx self + idx_change) 0) as [Hlt|Hge].
  { rewrite (loadCase_before_first_row h self idx_change Hpos Hlt).
    eapply registration_ok_same; [|exact Hok]. reflexivity. }
  rewrite loadCase_unfold by lia. unfold bind at 1.
  pose proof (preserves_close_open_case
                (fun s => (currentIdx s, caseCount s, shortcuts s, observers s)) h self
                ltac:(done) ltac:(done) ltac:(done) ltac:(done) self) as Hf.
  destruct (close_open_case h self self) as [[[]|e] s1]; cbn [snd] in Hf;
    injection Hf as F1 F2 F3 F4.
  2:{ eapply registration_ok_same; [|exact Hok]. cbn [snd]. congruence. }
  unfold bind at 1. unfold modify at 1. cbv beta iota.
  unfold bind at 1. unfold get at 1. cbv beta iota.
  set (s2 := set_currentIdx (currentIdx s1 + idx_change) s1).
  destruct (currentIdx s2 >=? caseCount s2).
  - destruct (end_of_batch_run s2) as (s' & -> & Hnb & _).
    destruct Hnb as (E1 & E2 & E3 & _). by apply registration_ok_idle.
  - pose proof (preserves_load_row (fun s => (currentIdx s, shortcuts s, observers s)) h
                  ltac:(done) ltac:(done) ltac:(done) s2) as Hl.
    cbv beta in Hl. injection Hl as L1 L2 L3.
    destruct Hok as [_ Hactive]. destruct (Hactive Hpos) as [Hs Ho].
    split.
    + rewrite L1. cbn. lia.
    + intros _. split; [rewrite L2; cbn; congruence | rewrite L3; cbn; congruence].
Qed.

(** [_startBatch] from the idle state: it returns true with a batch active
    and everything registered, or it leaves cursor and registrations
    alone. *)
Lemma startBatch_registration (start : Z) (s : Widget) :
  1 <= start -> shortcuts s = [] -> observers s = [] ->
  match _startBatch start s with
  | (Ok true, s') => registered s' /\ 0 <= currentIdx s'
  | (_, s') => currentIdx s' = currentIdx s /\ shortcuts s' = [] /\ observers s' = []
  end.
Proof.
  intros Hstart Hs Ho.
  destruct (batchTableSelector_currentNode s) as [t|] eqn:Ht.
  - destruct (Z.ltb_spec (table_rows t) start) as [Hlt|Hge].
    + apply Z.ltb_lt in Hlt.
      unfold _startBatch, widget_log, lift_world, Scene.logger, bind, modify, get, ret.
      cbn. rewrite Ht. cbn. rewrite Hlt. cbn. done.
    + destruct (startBatch_run start s t Ht Hge Hs Ho) as (s' & -> & _ & Hreg & Hi & _).
      split; [exact Hreg|lia].
  - unfold _startBatch, bind, modify, get, raise. cbn. rewrite Ht. cbn. done.
Qed.

Lemma reset_active_run (s : Widget) :
  exists s',
    (_setGUIstate false ;;
     modify (set_currentCase None) ;;
     modify (set_caseColumns None) ;;
     modify (set_currentIdx (-1)))%py s = (Ok tt, s') /\
    currentIdx s' = -1 /\ shortcuts s' = [] /\ observers s' = [].
Proof. eexists. split; [reflexivity|]. by cbn. Qed.

(** X12.  The two keyboard shortcuts and the observer of the end-of-close
    event are registered exactly while a batch is active: starting a batch,
    advancing, retreating, resetting and cleaning up keep it so, however
    they end. *)
Theorem registration_invariant (h : Host) (self : Widget) :
  1 <= npStart (inputs self) -> registration_ok self ->
  registration_ok (onReset h self).2 /\
  registration_ok (onNext h self).2 /\
  registration_ok (onPrevious h self).2 /\
  registration_ok (cleanup self).2.
Proof.
  intros Hstart Hok. split; [|split; [|split]].
  - unfold onReset. unfold bind at 1. unfold get at 1. cbv beta iota.
    destruct (Z.ltb_spec (currentIdx self) 0) as [Hneg|Hpos].
    + destruct Hok as [Hidle Hactive]. destruct (Hidle Hneg) as [Hs Ho].
      unfold bind at 1. rewrite lock_gui_run.
      set (s0 := set_gui (locked (gui self)) self).
      pose proof (startBatch_registration (npStart (inputs self)) s0 Hstart Hs Ho) as Hsb.
      unfold bind at 1.
      destruct (_startBatch (npStart (inputs self)) s0) as [[[|]|e] s1].
      * apply loadCase_registration. destruct Hsb as [Hreg Hi].
        split; [intros ?; exfalso; lia|done].
      * destruct Hsb as (E1 & E2 & E3). unfold ret. cbn [snd]. split; [done|].
        change (currentIdx s0) with (currentIdx self) in E1. intros ?. exfalso. lia.
      * destruct Hsb as (E1 & E2 & E3). cbn [snd]. split; [done|].
        change (currentIdx s0) with (currentIdx self) in E1. intros ?. exfalso. lia.
    + destruct (reset_active_run self) as (s' & -> & E1 & E2 & E3).
      by apply registration_ok_idle.
  - unfold onNext, bind, get. cbv beta iota.
    destruct (currentIdx self <? 0); [exact Hok | by apply loadCase_registration].
  - unfold onPrevious, bind, get. cbv beta iota.
    destruct (currentIdx self <? 0); [exact Hok | by apply loadCase_registration].
  - unfold cleanup. unfold bind at 1. unfold get at 1. cbv beta iota.
    destruct (0 <=? currentIdx self); [|exact Hok].
    destruct (reset_active_run self) as (s' & -> & E1 & E2 & E3).
    by apply registration_ok_idle.
Qed.

Lemma registration_invariant_witness :
  registration_ok (onReset (host_of "/data/s1" ["pre_T1_EA.nii.gz"])
                     (setup (Some (table_of ["/data/s1"])) empty_world)).2 /\
  registration_ok (onNext (host_of "/data/s1" ["pre_T1_EA.nii.gz"])
                     (setup (Some (table_of ["/data/s1"])) empty_world)).2 /\
  registration_ok (onPrevious (host_of "/data/s1" ["pre_T1_EA.nii.gz"])
                     (setup (Some (table_of ["/data/s1"])) empty_world)).2 /\
  registration_ok (cleanup (setup (Some (table_of ["/data/s1"])) empty_world)).2.
Proof.
  apply (registration_invariant (host_of "/data/s1" ["pre_T1_EA.nii.gz"])
           (setup (Some (table_of ["/data/s1"])) empty_world)).
  - simpl. lia.
  - split; [done|]. simpl. lia.
Defined.

(** X13.  Starting a batch on a table with enough rows: the cursor is on
    the row before the start row counted from 1, the count is the number of
    rows, the subject directories come from the column [patient] or else
    [ID], shortcuts and observer are registered, and nothing but the log of
    the host changes. *)
Theorem start_batch_selects_subject_column (start : Z) (self : Widget) (t : Table) :
  batchTableSelector_currentNode self = Some t -> start <= table_rows t ->
  shortcuts self = [] -> observers self = [] ->
  exists self' columns,
    _startBatch start self = (Ok true, self') /\
    currentIdx self' = start - 1 /\ caseCount self' = table_rows t /\
    tableNode self' = Some t /\
    caseColumns self' = Some columns /\ columns_ok columns /\
    columns !! "patient" = OneColumn <$> patient_column t /\
    registered self' /\
    scene_of (world self') = scene_of (world self).
Proof.
  intros Ht Hrows Hs Ho.
  destruct (startBatch_run start self t Ht Hrows Hs Ho)
    as (s' & Hrun & (columns & Hc & Hok & Hp) & Hreg & Hi & Hcnt & Htab & _ & _ & _ & _
        & Hsc & _).
  exists s', columns. repeat (split; [done|]). done.
Qed.

Lemma start_batch_selects_subject_column_witness :
  exists self' columns,
    _startBatch 1 (setup (Some (mkTable None 2 [("ID", ["/data/s1"; "/data/s2"])])) empty_world)
      = (Ok true, self') /\
    currentIdx self' = 1 - 1 /\
    caseCount self' = table_rows (mkTable None 2 [("ID", ["/data/s1"; "/data/s2"])]) /\
    tableNode self' = Some (mkTable None 2 [("ID", ["/data/s1"; "/data/s2"])]) /\
    caseColumns self' = Some columns /\ columns_ok columns /\
    columns !! "patient" =
      OneColumn <$> patient_column (mkTable None 2 [("ID", ["/data/s1"; "/data/s2"])]) /\
    registered self' /\
    scene_of (world self') = scene_of empty_world.
Proof.
  apply (start_batch_selects_subject_column 1
           (setup (Some (mkTable None 2 [("ID", ["/data/s1"; "/data/s2"])])) empty_world)
           (mkTable None 2 [("ID", ["/data/s1"; "/data/s2"])])).
  - reflexivity.
  - simpl. lia.
  - reflexivity.
  - reflexivity.
Defined.


(** *** Closing a case with the observer registered *)

(** The end-of-close event with the observer registered: the handler
    forgets the case, puts the batch table back into the scene and into the
    selector. *)
Lemma scene_cleared_restores (s : Widget) (t : Table) :
  tableNode s = Some t -> observers s = ["EndCloseEvent"] ->
  exists s',
    scene_cleared s = (Ok tt, s') /\
    currentCase s' = None /\ batchTableSelector_currentNode s' = Some t /\
    resetButton_enabled (gui s') = true /\
    (currentIdx s', caseCount s', tableNode s', observers s', shortcuts s', caseColumns s',
     inputs s') =
    (currentIdx s, caseCount s, tableNode s, observers s, shortcuts s, caseColumns s,
     inputs s) /\
    nodes (world s') = nodes (world s) ++ [(next_id (world s), TableNode)] /\
    next_id (world s') = S (next_id (world s)) /\
    (views (world s'), selectedModule (world s'), written (world s')) =
    (views (world s), selectedModule (world s), written (world s)).
Proof.
  intros Ht Ho.
  unfold scene_cleared, onEndClose, onChangeTable, modify_gui, widget_log, lift_world,
    Scene.logger, Scene.add_node.
  unfold bind at 1. unfold modify at 1. cbv beta iota.
  unfold bind at 1. unfold bind at 1. unfold get at 1. cbv beta iota.
  unfold modify at 1. cbv beta iota.
  unfold bind at 1. unfold get at 1. cbv beta iota.
  cbn [observers set_gui set_batchTableSelector_currentNode]. rewrite Ho.
  cbn [for_each]. unfold bind at 1. unfold bind at 1. unfold get at 1. cbv beta iota.
  cbn [currentCase tableNode set_gui set_batchTableSelector_currentNode]. rewrite Ht.
  destruct (currentCase s) as [c|] eqn:Hcc; eexists; (split; [reflexivity|]); cbn;
    rewrite ?Ht, ?Ho; by repeat split.
Qed.

Lemma lift_world_run {A} (c : M World A) (self : Widget) (r : result A) (s1 : Widget) :
  lift_world c self = (r, s1) ->
  exists w1, c (world self) = (r, w1) /\ s1 = set_world w1 self.
Proof.
  unfold lift_world. destruct (c (world self)) as [r' w1]. intros [= <- <-]. eauto.
Qed.

(** [closeCase] as [loadCase] runs it, with the table loaded and the
    observer registered: what it leaves when it returns. *)
Lemma closing_observed (h : Host) (c : Case) (save_loaded_masks save_new_masks : bool)
    (reader_name : option string) (self s1 : Widget) (t : Table) :
  tableNode self = Some t -> observers self = ["EndCloseEvent"] ->
  closeCase_observed (@lift_world) scene_cleared h c save_loaded_masks save_new_masks
    reader_name self = (Ok tt, s1) ->
  (exists k, nodes (world s1) = [(k, TableNode); (S k, ViewNode)] /\
             next_id (world s1) = S (S k)) /\
  Forall (fun v => view_background v = None) (views (world s1)) /\
  view_name <$> views (world s1) = view_name <$> views (world self) /\
  currentCase s1 = None /\ batchTableSelector_currentNode s1 = Some t /\
  resetButton_enabled (gui s1) = true /\
  (currentIdx s1, caseCount s1, tableNode s1, observers s1, shortcuts s1, caseColumns s1,
   inputs s1) =
  (currentIdx self, caseCount self, tableNode self, observers self, shortcuts self,
   caseColumns self, inputs self).
Proof.
  intros Ht Ho Hrun. unfold closeCase_observed in Hrun. unfold bind at 1 in Hrun.
  destruct (lift_world _ self) as [[[]|e] s0] eqn:Hblk; [|discriminate Hrun].
  match type of Hblk with
  | lift_world ?c0 self = _ =>
      assert (T : triple (fun s => views s = views (world self)) c0
                    (fun _ s => nodes s = [] /\
                                Forall (fun v => view_background v = None) (views s) /\
                                view_name <$> views s = view_name <$> views (world self))
                    (fun _ => True))
  end.
  { cbv zeta.
    eapply triple_bind; [apply triple_preserves; unfold str_add; preserves_tac|]. intros msg.
    eapply triple_bind; [apply triple_preserves; unfold Scene.print; preserves_tac|].
    intros ?.
    eapply triple_bind;
      [apply (triple_get _ (fun _ s => views s = views (world self))); intros s Hs; exact Hs|].
    intros w0.
    eapply triple_bind.
    { apply triple_preserves. unfold Scene.logger, get_image_root.
      destruct save_loaded_masks; [|apply preserves_ret].
      destruct (Nat.eqb _ 0); [preserves_tac|].
      apply preserves_bind; [preserves_tac|]. intros _.
      apply preserves_bind; [preserves_tac|]. intros folder.
      apply preserves_views_saveMasks. }
    intros ?.
    eapply triple_bind.
    { apply triple_preserves. unfold Scene.logger, get_image_root.
      destruct save_new_masks; [|apply preserves_ret].
      destruct (Nat.eqb _ 0); [preserves_tac|].
      apply preserves_bind; [preserves_tac|]. intros _.
      apply preserves_bind; [preserves_tac|]. intros folder.
      apply preserves_views_saveMasks. }
    intros ?.
    intros s Hs. unfold Scene.clear, modify. cbn.
    split; [done|]. rewrite Hs. split.
    - apply Forall_forall. intros v Hv. apply list_elem_of_In, in_map_iff in Hv as [v0 [<- _]].
      reflexivity.
    - rewrite <- list_fmap_compose. reflexivity. }
  apply lift_world_run in Hblk as (w1 & Hc0 & ->).
  specialize (T (world self) eq_refl). rewrite Hc0 in T. destruct T as (Hn & Hbg & Hnm).
  destruct (scene_cleared_restores (set_world w1 self) t Ht Ho)
    as (s2 & Hsc & Hcc & Hsel & Hreset & Hf & Hnodes & Hnext & Hrest).
  unfold bind at 1 in Hrun. rewrite Hsc in Hrun.
  unfold bind, lift_world, Scene.add_node, ret in Hrun. injection Hrun as <-.
  injection Hrest as Hv _ _. cbn [world set_world] in *.
  cbn -[fmap]. rewrite Hnodes, Hnext, Hn, Hv.
  split; [by exists (next_id w1)|]. split; [exact Hbg|]. split; [exact Hnm|].
  split; [exact Hcc|]. split; [exact Hsel|]. split; [exact Hreset|]. exact Hf.
Qed.

(** X6.  Closing a case as [loadCase] does it, with the batch table loaded
    and the observer registered: whenever [closeCase] returns, whatever the
    flags, the scene holds the batch table node, which the observer put
    back while the scene was cleared, and one fresh view node, and nothing
    else; no slice view has a background volume, and the slice views
    themselves are the same as before. *)
Theorem closing_leaves_table_and_view (h : Host) (c : Case)
    (save_loaded_masks save_new_masks : bool) (reader_name : option string)
    (self self' : Widget) (t : Table) :
  tableNode self = Some t -> observers self = ["EndCloseEvent"] ->
  closeCase_observed (@lift_world) scene_cleared h c save_loaded_masks save_new_masks
    reader_name self = (Ok tt, self') ->
  (exists k, nodes (world self') = [(k, TableNode); (S k, ViewNode)] /\
             next_id (world self') = S (S k)) /\
  Forall (fun v => view_background v = None) (views (world self')) /\
  view_name <$> views (world self') = view_name <$> views (world self).
Proof.
  intros Ht Ho Hrun.
  destruct (closing_observed h c _ _ _ self self' t Ht Ho Hrun) as (H1 & H2 & H3 & _).
  by repeat split.
Qed.

Lemma closing_leaves_table_and_view_witness :
  (exists k,
     nodes (world (closeCase_observed (@lift_world) scene_cleared (host_of "/data/s1" [])
                     one_volume_case true true (Some "r") last_row_widget).2)
     = [(k, TableNode); (S k, ViewNode)] /\
     next_id (world (closeCase_observed (@lift_world) scene_cleared (host_of "/data/s1" [])
                       one_volume_case true true (Some "r") last_row_widget).2)
     = S (S k)) /\
  Forall (fun v => view_background v = None)
    (views (world (closeCase_observed (@lift_world) scene_cleared (host_of "/data/s1" [])
                     one_volume_case true true (Some "r") last_row_widget).2)) /\
  view_name <$>
    views (world (closeCase_observed (@lift_world) scene_cleared (host_of "/data/s1" [])
                    one_volume_case true true (Some "r") last_row_widget).2)
  = view_name <$> views (world last_row_widget).
Proof.
  apply (closing_leaves_table_and_view (host_of "/data/s1" []) one_volume_case true true
           (Some "r") last_row_widget _ (table_of ["/data/s1"])).
  - reflexivity.
  - reflexivity.
  - vm_compute. reflexivity.
Defined.

(** *** The end of a batch *)

Lemma end_of_batch_full (s : Widget) :
  exists s',
    end_of_batch s = (Ok tt, s') /\ no_batch s' /\ tableNode s' = None /\
    currentCase s' = currentCase s /\
    batchTableSelector_currentNode s' = batchTableSelector_currentNode s /\
    resetButton_enabled (gui s') = bool_decide (is_Some (batchTableSelector_currentNode s)) /\
    scene_of (world s') = scene_of (world s).
Proof.
  eexists. split; [reflexivity|]. unfold no_batch. cbn. by repeat split.
Qed.

(** X14.  Advancing past the last row with the observer registered: when
    closing the case succeeds, the batch ends in the "no batch loaded"
    state with the case forgotten and the batch table back in the selector,
    so that the reset button is enabled and the batch can be started
    again.  The scene then holds the batch table node, which the observer
    put back while the scene was cleared, and the fresh view node, and
    nothing else; no slice view has a background volume. *)
Theorem batch_end_allows_restart (h : Host) (idx_change : Z) (self self' : Widget)
    (t : Table) (c : Case) :
  0 <= currentIdx self < caseCount self -> caseCount self <= currentIdx self + idx_change ->
  currentCase self = Some c -> tableNode self = Some t ->
  observers self = ["EndCloseEvent"] ->
  loadCase h idx_change self = (Ok tt, self') ->
  no_batch self' /\ currentCase self' = None /\ tableNode self' = None /\
  batchTableSelector_currentNode self' = Some t /\
  resetButton_enabled (gui self') = true /\
  (exists k, nodes (world self') = [(k, TableNode); (S k, ViewNode)] /\
             next_id (world self') = S (S k)) /\
  Forall (fun v => view_background v = None) (views (world self')).
Proof.
  intros H0 H1 Hcase Ht Ho Hrun.
  rewrite loadCase_unfold in Hrun by lia. rewrite Hcase in Hrun.
  unfold bind at 1 in Hrun.
  destruct (closeCase_observed _ _ _ _ _ _ _ self) as [[[]|e] s1] eqn:Hclose;
    [|discriminate Hrun].
  destruct (closing_observed h c _ _ _ self s1 t Ht Ho Hclose)
    as ((k & Hn & Hk) & Hbg & _ & Hc1 & Hsel & _ & Hf).
  injection Hf as F1 F2 F3 F4 F5 F6 F7.
  unfold bind at 1 in Hrun. unfold modify at 1 in Hrun. cbv beta iota in Hrun.
  unfold bind at 1 in Hrun. unfold get at 1 in Hrun. cbv beta iota in Hrun.
  set (s2 := set_currentIdx (currentIdx s1 + idx_change) s1) in Hrun.
  change (currentIdx s2) with (currentIdx s1 + idx_change) in Hrun.
  change (caseCount s2) with (caseCount s1) in Hrun.
  rewrite F1, F2 in Hrun.
  replace (currentIdx self + idx_change >=? caseCount self) with true in Hrun
    by (symmetry; apply Z.geb_le; lia).
  cbv iota in Hrun.
  destruct (end_of_batch_full s2) as (s' & Hend & Hnb & Htab & Hcc & Hsel' & Hreset & Hscene).
  rewrite Hend in Hrun. injection Hrun as <-.
  split; [exact Hnb|]. split; [rewrite Hcc; exact Hc1|]. split; [exact Htab|].
  split; [rewrite Hsel'; exact Hsel|].
  split.
  - rewrite Hreset. change (batchTableSelector_currentNode s2)
      with (batchTableSelector_currentNode s1). rewrite Hsel. reflexivity.
  - unfold scene_of in Hscene. change (world s2) with (world s1) in Hscene.
    injection Hscene as -> -> -> _ _. split; [|exact Hbg]. exists k. by split.
Qed.

Lemma batch_end_allows_restart_witness :
  no_batch (loadCase (host_of "/data/s1" []) 1 last_row_widget).2 /\
  currentCase (loadCase (host_of "/data/s1" []) 1 last_row_widget).2 = None /\
  tableNode (loadCase (host_of "/data/s1" []) 1 last_row_widget).2 = None /\
  batchTableSelector_currentNode (loadCase (host_of "/data/s1" []) 1 last_row_widget).2
    = Some (table_of ["/data/s1"]) /\
  resetButton_enabled (gui (loadCase (host_of "/data/s1" []) 1 last_row_widget).2) = true /\
  (exists k,
     nodes (world (loadCase (host_of "/data/s1" []) 1 last_row_widget).2)
       = [(k, TableNode); (S k, ViewNode)] /\
     next_id (world (loadCase (host_of "/data/s1" []) 1 last_row_widget).2) = S (S k)) /\
  Forall (fun v => view_background v = None)
    (views (world (loadCase (host_of "/data/s1" []) 1 last_row_widget).2)).
Proof.
  apply (batch_end_allows_restart (host_of "/data/s1" []) 1 last_row_widget
           (loadCase (host_of "/data/s1" []) 1 last_row_widget).2
           (table_of ["/data/s1"]) one_volume_case).
  - simpl. lia.
  - simpl. lia.
  - reflexivity.
  - reflexivity.
  - reflexivity.
  - vm_compute. reflexivity.
Defined.


(* ===================================================================== *)
(** ** Well-formed scenes and the nodes of a case *)
(* ===================================================================== *)

Lemma lookup_lt (w : World) (n : node_id) (nd : Node) :
  fresh w -> Scene.lookup w n = Some nd -> (n < next_id w)%nat.
Proof.
  unfold fresh, Scene.lookup. intros Hf.
  induction Hf as [|[k x] l Hk Hl IH]; cbn [List.find fst]; [done|].
  destruct (Nat.eqb_spec k n) as [->|?]; [intros _; exact Hk | exact IH].
Qed.

Lemma lookup_fresh_None (w : World) (n : node_id) :
  fresh w -> (next_id w <= n)%nat -> Scene.lookup w n = None.
Proof.
  intros Hf Hn. destruct (Scene.lookup w n) as [nd|] eqn:H; [|done].
  apply (lookup_lt w n nd Hf) in H. lia.
Qed.

Lemma has_display_lt (w : World) (n : node_id) :
  fresh w -> has_display w n -> (n < next_id w)%nat.
Proof. intros Hf (nd & H & _). by apply (lookup_lt w n nd). Qed.

Lemma has_display_segmentation (w : World) (n : node_id) :
  has_display w n <-> is_Some (Scene.segmentation w n ≫= seg_display).
Proof.
  unfold has_display, Scene.segmentation. split.
  - intros (nd & -> & Hs). by destruct nd.
  - destruct (Scene.lookup w n) as [[]|]; cbn; intros [d' Hd]; try done.
    eexists. split; [reflexivity|]. cbn. eauto.
Qed.

Lemma extends_refl (w : World) : fresh w -> extends w w.
Proof. intros Hf. split; [done|]. split; [lia|]. by split. Qed.

Lemma extends_trans (w1 w2 w3 : World) : extends w1 w2 -> extends w2 w3 -> extends w1 w3.
Proof.
  intros (F2 & N2 & V2 & D2) (F3 & N3 & V3 & D3).
  split; [done|]. split; [lia|]. split; [congruence|]. auto.
Qed.

(** A state that differs in views, selected module, files or log only. *)
Lemma extends_same (w w' : World) :
  nodes w' = nodes w -> next_id w' = next_id w ->
  List.length (views w') = List.length (views w) -> fresh w -> extends w w'.
Proof.
  intros Hn Hk Hv Hf. split; [|split; [lia|split; [done|]]].
  - unfold fresh. by rewrite Hn, Hk.
  - intros n (nd & H & Hs). exists nd. split; [|done].
    unfold Scene.lookup in *. by rewrite Hn.
Qed.

Section Grows.

Lemma grows_ret {A} (a : A) : grows (ret a).
Proof. intros w Hf. by apply extends_refl. Qed.

Lemma grows_raise {A} e : grows (@raise World A e).
Proof. intros w Hf. by apply extends_refl. Qed.

Lemma grows_get : grows (@get World).
Proof. intros w Hf. by apply extends_refl. Qed.

Lemma grows_bind {A B} (c : M World A) (k : A -> M World B) :
  grows c -> (forall a, grows (k a)) -> grows (bind c k).
Proof.
  intros Hc Hk w Hf. unfold bind. specialize (Hc w Hf).
  destruct (c w) as [[a|e] w1]; cbn [snd] in *; [|exact Hc].
  eapply extends_trans; [exact Hc|]. apply Hk. apply Hc.
Qed.

Lemma grows_for_each {A} (l : list A) (body : A -> M World unit) :
  (forall x, grows (body x)) -> grows (for_each l body).
Proof.
  intros Hb. induction l as [|x l IH]; cbn [for_each].
  - apply grows_ret.
  - apply grows_bind; [apply Hb | intros _; exact IH].
Qed.

Lemma grows_for_fold {A B} (l : list A) (body : B -> A -> M World B) (b : B) :
  (forall b x, grows (body b x)) -> grows (for_fold l body b).
Proof.
  intros Hb. revert b. induction l as [|x l IH]; intros b; cbn [for_fold].
  - apply grows_ret.
  - apply grows_bind; [apply Hb | intros b'; apply IH].
Qed.

Lemma grows_try_except_all {A} (c h : M World A) :
  grows c -> grows h -> grows (try_except_all c h).
Proof.
  intros Hc Hh w Hf. unfold try_except_all. specialize (Hc w Hf).
  destruct (c w) as [[a|e] w1]; cbn [snd] in *; [exact Hc|].
  eapply extends_trans; [exact Hc|]. apply Hh. apply Hc.
Qed.

Lemma grows_print msg : grows (Scene.print msg).
Proof. intros w Hf. by apply extends_same. Qed.

Lemma grows_logger l msg : grows (Scene.logger l msg).
Proof. intros w Hf. by apply extends_same. Qed.

Lemma grows_update_view name f : grows (update_view name f).
Proof.
  intros w Hf. apply extends_same; [done|done| |done].
  unfold update_view, modify. cbn. by rewrite length_map.
Qed.

Lemma grows_set_selectedModule m :
  grows (modify (fun w => Scene.set_selectedModule w m)).
Proof. intros w Hf. by apply extends_same. Qed.

Lemma grows_add_node nd : grows (Scene.add_node nd).
Proof.
  intros w Hf. unfold Scene.add_node. cbn [snd].
  split; [|split; [cbn; lia|split; [done|]]].
  - unfold fresh in *. cbn. apply Forall_app. split.
    + eapply Forall_impl; [exact Hf|]. intros p Hp. cbn in Hp. lia.
    + apply Forall_cons. split; [cbn; lia|apply Forall_nil; done].
  - intros n (x & H & Hs). exists x. split; [|done].
    unfold Scene.lookup in *. cbn [nodes Scene.set_nodes]. rewrite lookup_app_node.
    by rewrite H.
Qed.

Lemma grows_update_node m g :
  (forall nd, shows nd -> shows (g nd)) -> grows (Scene.update_node m g).
Proof.
  intros Hg w Hf. unfold Scene.update_node, modify. cbn [snd].
  split; [|split; [cbn; lia|split; [done|]]].
  - unfold fresh in *. cbn. apply Forall_forall. intros p Hp.
    apply list_elem_of_In, in_map_iff in Hp as ([k x] & <- & Hin).
    rewrite Forall_forall in Hf. apply list_elem_of_In, Hf in Hin.
    unfold Scene.update_entry. cbn [fst snd] in *. by destruct (Nat.eqb k m).
  - intros n (x & H & Hs). unfold has_display, Scene.lookup in *.
    cbn [nodes Scene.set_nodes]. rewrite find_update_entry, H. cbn.
    eexists. split; [reflexivity|]. destruct (Nat.eqb n m); [by apply Hg|done].
Qed.

End Grows.

Lemma shows_on_segmentation (f : SegmentationData -> SegmentationData) (nd : Node) :
  (forall s, is_Some (seg_display s) -> is_Some (seg_display (f s))) ->
  shows nd -> shows (Scene.on_segmentation f nd).
Proof. intros Hf. destruct nd; cbn; auto. Qed.

Lemma shows_on_display (f : DisplayData -> DisplayData) (nd : Node) :
  shows nd -> shows (Scene.on_display f nd).
Proof. by destruct nd. Qed.

Lemma grows_update_segmentation m f :
  (forall s, is_Some (seg_display s) -> is_Some (seg_display (f s))) ->
  grows (Scene.update_segmentation m f).
Proof. intros Hf. apply grows_update_node. intros nd. by apply shows_on_segmentation. Qed.

Lemma grows_update_display m f : grows (Scene.update_display m f).
Proof. apply grows_update_node. intros nd. by apply shows_on_display. Qed.

Ltac grows_step :=
  first
    [ apply grows_ret
    | apply grows_raise
    | apply grows_get
    | apply grows_print
    | apply grows_logger
    | apply grows_add_node
    | apply grows_update_view
    | apply grows_update_display
    | apply grows_update_segmentation; intros ? ?; cbn; eauto
    | apply grows_set_selectedModule
    | apply grows_for_each; intros
    | apply grows_for_fold; intros
    | apply grows_try_except_all
    | apply grows_bind; [|intros]
    | progress cbv zeta
    | match goal with
      | |- grows (if ?b then _ else _) => destruct b
      | |- grows (match ?x with _ => _ end) => destruct x
      end ].
Ltac grows_tac := repeat grows_step.

(** A state reached from a state with the segmentations [L] displayed has
    them displayed. *)
Lemma displayed_extends (nv : nat) (L : list node_id) (w w' : World) :
  displayed nv L w -> extends w w' -> displayed nv L w'.
Proof.
  intros (Hf & Hv & HL) (Hf' & _ & Hv' & Hd). split; [done|]. split; [congruence|].
  eapply Forall_impl; [exact HL|]. exact Hd.
Qed.

Lemma triple_grows {A} (nv : nat) (L : list node_id) (c : M World A) :
  grows c -> triple (displayed nv L) c (fun _ => displayed nv L) (displayed nv L).
Proof.
  intros Hc w Hw. pose proof (Hc w (proj1 Hw)) as He.
  destruct (c w) as [[a|e] w']; cbn [snd] in He; by apply (displayed_extends nv L w).
Qed.

(** A computation that grows the scene and always returns. *)
Lemma triple_total {A} (nv : nat) (L : list node_id) (c : M World A) :
  grows c -> (forall w, exists a, (c w).1 = Ok a) ->
  triple (displayed nv L) c (fun _ => displayed nv L) (fun _ => False).
Proof.
  intros Hc Ht w Hw. pose proof (Hc w (proj1 Hw)) as He. destruct (Ht w) as [a Ha].
  destruct (c w) as [[x|e] w']; cbn [fst snd] in *; [|done].
  by apply (displayed_extends nv L w).
Qed.

(** *** Loading a label file *)

Lemma filter_fresh (l : list (node_id * Node)) (k : node_id) :
  Forall (fun p => (p.1 < k)%nat) l ->
  List.filter (fun p => negb (Nat.eqb p.1 k)) l = l.
Proof.
  intros Hall. induction Hall as [|[m x] l Hm Hall IH]; [done|].
  cbn [List.filter fst] in *. rewrite IH.
  destruct (Nat.eqb_spec m k) as [->|?]; [lia|done].
Qed.

(** What a label file leaves in a well-formed scene: a hidden segmentation
    named after the series, with the segments of the file and a display
    node, and nothing of the labelmap it was read into. *)
Lemma load_label_run (h : Host) (self : Case) (path j : string) (w : World) :
  fresh w ->
  exists w',
    load_label h self path j w = (Ok (S (next_id w)), w') /\
    nodes w' =
      nodes w ++
      [(S (next_id w),
        SegmentationNode
          (mkSegmentation (j +:+ "_segment") (labelmap_segments h path)
             (Some (S (S (next_id w)))) None));
       (S (S (next_id w)), SegmentationDisplayNode (mkDisplay false None))] /\
    next_id w' = S (S (S (next_id w))) /\
    views w' = views w /\ written w' = written w /\ selectedModule w' = selectedModule w /\
    log w' = log w ++ [(STDOUT, "Reader Name: " +:+ reader_name self)].
Proof.
  intros Hf. unfold fresh in Hf.
  set (k := next_id w) in *.
  assert (E1 : Nat.eqb k (S k) = false) by (apply Nat.eqb_neq; lia).
  assert (E2 : Nat.eqb (S k) k = false) by (apply Nat.eqb_neq; lia).
  assert (E3 : Nat.eqb k (S (S k)) = false) by (apply Nat.eqb_neq; lia).
  assert (E4 : Nat.eqb (S (S k)) k = false) by (apply Nat.eqb_neq; lia).
  assert (M1 : forall f, List.map (Scene.update_entry (S k) f) (nodes w) = nodes w).
  { intros f. apply (map_update_entry_fresh _ _ k); [done|lia]. }
  assert (M2 : forall f, List.map (Scene.update_entry (S (S k)) f) (nodes w) = nodes w).
  { intros f. apply (map_update_entry_fresh _ _ k); [done|lia]. }
  eexists. split.
  - unfold load_label, Scene.print, Scene.add_node, Scene.update_segmentation,
      Scene.update_display, Scene.update_node, Scene.remove_node, bind, modify, ret.
    cbn -[String.append Nat.eqb]. fold k. reflexivity.
  - cbn -[String.append Nat.eqb]. fold k. split; [|by repeat split].
    repeat (rewrite ?List.map_app, ?List.filter_app).
    assert (FF : @List.filter (node_id * Node) (fun p : nat * Node => negb (Nat.eqb p.1 k)) (nodes w)
                 = nodes w) by exact (filter_fresh _ k Hf).
    rewrite M1, FF, M1, M2.
    assert (E5 : Nat.eqb (S k) (S (S k)) = false) by (apply Nat.eqb_neq; lia).
    assert (E6 : Nat.eqb (S (S k)) (S k) = false) by (apply Nat.eqb_neq; lia).
    unfold Scene.update_entry.
    repeat (progress (cbn -[String.append Nat.eqb];
                      rewrite ?Nat.eqb_refl, ?E1, ?E2, ?E3, ?E4, ?E5, ?E6)).
    rewrite <- !app_assoc. reflexivity.
Qed.


(** *** More rules *)

Section MoreRules.
Context {St : Type}.

Lemma triple_for_each_in {A} (Inv : St -> Prop) (body : A -> M St unit) (E : St -> Prop)
    (l : list A) :
  (forall x, x ∈ l -> triple Inv (body x) (fun _ => Inv) E) ->
  triple Inv (for_each l body) (fun _ => Inv) E.
Proof.
  induction l as [|x l IH]; intros Hb; cbn [for_each].
  - by apply triple_ret.
  - eapply triple_bind; [apply Hb; by left|]. intros []. apply IH.
    intros y Hy. apply Hb. by right.
Qed.

Lemma triple_pure {A} (φ : Prop) (P : St -> Prop) (c : M St A) Q E :
  (φ -> triple P c Q E) -> triple (fun s => φ /\ P s) c Q E.
Proof. intros H s [Hφ Hs]. exact (H Hφ s Hs). Qed.

Lemma triple_bind_ret {A B} (P : St -> Prop) (a : A) (k : A -> M St B) Q E :
  triple P (k a) Q E -> triple P (bind (ret a) k) Q E.
Proof. intros H s Hs. exact (H s Hs). Qed.

Lemma for_each_app {A} (l1 l2 : list A) (body : A -> M St unit) (s : St) :
  for_each (l1 ++ l2) body s = (for_each l1 body ;; for_each l2 body) s.
Proof.
  revert s. induction l1 as [|x l1 IH]; intros s; [done|].
  cbn [app for_each]. unfold bind.
  destruct (body x s) as [[[]|e] s1]; [|done]. rewrite IH. reflexivity.
Qed.

End MoreRules.

Lemma elem_of_enumerate_from {A} (l : list A) (i k : Z) (x : A) :
  (k, x) ∈ enumerate_from i l -> i <= k < i + Z.of_nat (List.length l).
Proof.
  revert i. induction l as [|y l IH]; intros i; cbn [enumerate_from List.length].
  - intros H. by apply elem_of_nil in H.
  - intros [[= -> ->]|H]%elem_of_cons; [lia|]. apply IH in H. lia.
Qed.

Lemma enumerate_from_app {A} (l1 l2 : list A) (i : Z) :
  enumerate_from i (l1 ++ l2) =
  enumerate_from i l1 ++ enumerate_from (i + Z.of_nat (List.length l1)) l2.
Proof.
  revert i. induction l1 as [|y l1 IH]; intros i; cbn [enumerate_from List.length app].
  - by rewrite Z.add_0_r.
  - rewrite IH. do 3 f_equal. lia.
Qed.

Lemma insert_by_length {A} (key : A -> string) (x : A) (l : list A) :
  List.length (insert_by key x l) = S (List.length l).
Proof.
  induction l as [|y l IH]; [done|]. cbn [insert_by].
  destruct (String.leb _ _); cbn [List.length]; [done|by rewrite IH].
Qed.

Lemma sorted_by_length {A} (key : A -> string) (l : list A) :
  List.length (sorted_by key l) = List.length l.
Proof.
  unfold sorted_by. induction l as [|x l IH]; [done|].
  cbn [List.fold_right List.length]. by rewrite insert_by_length, IH.
Qed.

(** *** The loading loops keep the labels displayed *)

Lemma triple_load_label nv L h self path j :
  triple (displayed nv L) (load_label h self path j)
    (fun seg => displayed nv (L ++ [seg])) (fun _ => False).
Proof.
  intros w (Hf & Hv & HL).
  destruct (load_label_run h self path j w Hf) as (w' & -> & Hn & Hk & Hvw & _).
  assert (Hl : forall n,
    Scene.lookup w' n =
    match Scene.lookup w n with
    | Some x => Some x
    | None =>
        if Nat.eqb (S (next_id w)) n
        then Some (SegmentationNode
                     (mkSegmentation (j +:+ "_segment") (labelmap_segments h path)
                        (Some (S (S (next_id w)))) None))
        else if Nat.eqb (S (S (next_id w))) n
             then Some (SegmentationDisplayNode (mkDisplay false None))
             else None
    end).
  { intros n. unfold Scene.lookup. rewrite Hn.
    change (?l ++ [?a; ?b]) with (l ++ [a] ++ [b]). rewrite app_assoc.
    rewrite !lookup_app_node.
    match goal with |- context [snd <$> List.find ?f (nodes w)] =>
      destruct (snd <$> List.find f (nodes w)); [done|] end.
    by destruct (Nat.eqb _ n). }
  split; [|split; [congruence|]].
  - unfold fresh in *. rewrite Hn, Hk. apply Forall_app. split.
    + eapply Forall_impl; [exact Hf|]. cbn. intros; lia.
    + repeat constructor; cbn; lia.
  - apply Forall_app. split.
    + eapply Forall_impl; [exact HL|]. intros n (nd & H & Hs). exists nd.
      split; [|done]. by rewrite Hl, H.
    + constructor; [|constructor]. eexists. split.
      * rewrite Hl, (lookup_fresh_None w _ Hf) by lia. by rewrite Nat.eqb_refl.
      * cbn. eauto.
Qed.

Lemma triple_match_series nv h self subject_dir i file_name acc jc :
  triple (displayed nv acc.2.*1) (match_series h self subject_dir i file_name acc jc)
    (fun acc' => displayed nv acc'.2.*1) (fun _ => False).
Proof.
  unfold match_series. cbv zeta.
  eapply triple_bind with (Q := fun _ => displayed nv acc.2.*1).
  - destruct (PyStr.contains _ _).
    + eapply triple_bind.
      * apply triple_total; [apply grows_add_node | intros w; eexists; reflexivity].
      * intros img. by apply triple_ret.
    + by apply triple_ret.
  - intros raws. eapply triple_bind with (Q := fun labels => displayed nv labels.*1).
    + destruct (PyStr.contains _ _).
      * eapply triple_bind; [apply triple_load_label|]. intros seg. apply triple_ret.
        intros w Hw. by rewrite fmap_app.
      * by apply triple_ret.
    + intros labels. by apply triple_ret.
Qed.

Lemma triple_match_file nv h self subject_dir acc i :
  triple (displayed nv acc.2.*1) (match_file h self subject_dir acc i)
    (fun acc' => displayed nv acc'.2.*1) (fun _ => False).
Proof.
  unfold match_file. cbv zeta.
  apply (triple_for_fold (fun _ (b : placeholders) => displayed nv b.2.*1)
           (match_series h self subject_dir i (PyStr.lower i)) (fun _ => False) images [] acc).
  intros done x b. apply triple_match_series.
Qed.

Lemma triple_load_data nv h self subject_dir listing :
  listdir h subject_dir = Some listing ->
  triple (displayed nv []) (load_data_to_placeholders h self subject_dir)
    (fun r w => r.1 = set_image_root self subject_dir /\ displayed nv r.2.2.*1 w)
    (fun _ => False).
Proof.
  intros Hl. unfold load_data_to_placeholders, os_listdir. rewrite Hl. cbv zeta.
  apply triple_bind_ret.
  eapply triple_bind.
  - eapply triple_conseq;
      [apply (triple_for_fold (fun _ (b : placeholders) => displayed nv b.2.*1)
                (match_file h (set_image_root self subject_dir) subject_dir)
                (fun _ => False) listing [] ([], []))
      |intros w Hw; exact Hw|intros a w Hw; exact Hw|done].
    intros done x b. apply triple_match_file.
  - intros rl. apply triple_ret. intros w Hw. by split.
Qed.

Lemma grows_assign_label a i : grows (assign_label a i).
Proof. unfold assign_label. grows_tac. Qed.

Lemma triple_assign_labels nv L labels a0 :
  triple (displayed nv L) (for_fold labels assign_label a0)
    (fun a w => displayed nv L w /\
       forall key n, a !! key = Some n -> a0 !! key = Some n \/ n ∈ labels.*1)
    (fun _ => False).
Proof.
  eapply triple_conseq;
    [apply (triple_for_fold
       (fun done (a : gmap string node_id) w => displayed nv L w /\
          forall key n, a !! key = Some n -> a0 !! key = Some n \/ n ∈ done.*1)
       assign_label (fun _ => False) labels [] a0)| | |].
  - intros done [n z] a w [Hw Ha].
    destruct (assign_label_spec a n z w) as [w' Hrun].
    pose proof (grows_assign_label a (n, z) w (proj1 Hw)) as He.
    rewrite Hrun in *. cbn [snd] in He.
    split; [by apply (displayed_extends nv L w)|].
    intros key m Hm. rewrite fmap_app, elem_of_app. cbn [fmap list_fmap fst].
    destruct (label_attr z) as [k|].
    + destruct (decide (k = key)) as [->|Hne].
      * rewrite lookup_insert_eq in Hm. injection Hm as <-. right. right.
        by apply list_elem_of_singleton.
      * rewrite lookup_insert_ne in Hm by done. destruct (Ha key m Hm); auto.
    + destruct (Ha key m Hm); auto.
  - intros w Hw. split; [done|]. intros key n Hn. by left.
  - intros a w Hw. exact Hw.
  - done.
Qed.

(** Every segmentation that [select_placeholder_for_view] leaves in a label
    attribute has a display node. *)
Lemma triple_select_placeholder nv h self subject_dir listing :
  listdir h subject_dir = Some listing -> attrs self = ∅ ->
  triple (displayed nv []) (select_placeholder_for_view h self subject_dir)
    (fun self' => displayed nv (label_nodes self')) (fun _ => False).
Proof.
  intros Hl Ha. unfold select_placeholder_for_view.
  eapply triple_bind; [apply (triple_load_data nv h self subject_dir listing Hl)|].
  intros [self1 [raws labels]]. cbn [fst snd]. apply triple_pure. intros ->. cbv zeta.
  eapply triple_bind; [apply (triple_assign_labels nv labels.*1 labels)|].
  intros a. apply triple_ret. intros w ((Hf & Hv & HL) & Hk).
  split; [done|]. split; [done|].
  apply Forall_forall. intros n Hn.
  apply list_elem_of_omap in Hn as (key & Hkey & Hn). cbn [attrs set_attrs] in Hn.
  rewrite Forall_forall in HL. apply HL.
  destruct (Hk key n Hn) as [H0|H0]; [|done]. exfalso.
  assert (Hs : is_Some (List.fold_left assign_raw raws (attrs self) !! key)) by eauto.
  apply fold_assign_raw_is_Some in Hs as [Hs|(z & _ & Hz)].
  - rewrite Ha, lookup_empty in Hs. by destruct Hs.
  - exact (series_not_label key z Hz Hkey).
Qed.

(** *** The views *)

Lemma correct_volumesLoad_run self vols labs w :
  List.length labs = 4%nat -> List.length vols = 4%nat ->
  exists vols',
    correct_volumesLoad self vols labs w = (Ok vols', w) /\ List.length vols' = 4%nat.
Proof.
  intros Hl Hv. unfold correct_volumesLoad, bind.
  destruct (correct_view_run self 0 "post_T1_LA" vols labs w) as (v0 & -> & L0 & _);
    [lia | congruence |].
  destruct (correct_view_run self 1 "pre_T1_LA" v0 labs w) as (v1 & -> & L1 & _);
    [lia | congruence |].
  destruct (correct_view_run self 2 "post_ADC_Eq_1" v1 labs w) as (v2 & -> & L2 & _);
    [lia | congruence |].
  exists v2. split; [done|congruence].
Qed.

Lemma triple_set_background nv L self iv :
  triple (displayed nv L) (set_background self iv) (fun _ => displayed nv L)
    (fun _ => False).
Proof.
  unfold set_background.
  eapply triple_try_except_all with (X := displayed nv L).
  - apply triple_grows. unfold py_index. grows_tac.
  - apply triple_total; [apply grows_print | intros w; eexists; reflexivity].
Qed.

(** The body of the second loop returns for each of the first four views,
    when the labels of the case have display nodes. *)
Lemma triple_show_segmentation nv L self i sv :
  0 <= i < 4 ->
  List.length (volumesLoad self) = 4%nat -> List.length (labelVolumesLoad self) = 4%nat ->
  (forall n, Some n ∈ labelVolumesLoad self -> n ∈ L) ->
  triple (displayed nv L) (show_segmentation self (i, sv)) (fun _ => displayed nv L)
    (fun _ => False).
Proof.
  intros Hi Hv Hl HL.
  destruct (lookup_lt_is_Some_2 (labelVolumesLoad self) (Z.to_nat i)) as [lab Hlab]; [lia|].
  destruct (lookup_lt_is_Some_2 (volumesLoad self) (Z.to_nat i)) as [vol Hvol]; [lia|].
  unfold show_segmentation, py_index. cbn [fst snd]. rewrite Hlab, Hvol.
  eapply triple_bind;
    [apply triple_total; [apply grows_update_view | intros w; eexists; reflexivity]|].
  intros ?. apply triple_bind_ret. apply triple_bind_ret.
  destruct vol as [vol|]; [destruct lab as [seg|]|].
  - intros w Hw. unfold bind at 1, get at 1. cbv beta iota.
    assert (Hd : has_display w seg).
    { destruct Hw as (_ & _ & Hall). rewrite Forall_forall in Hall. apply Hall, HL.
      by apply (list_elem_of_lookup_2 _ (Z.to_nat i)). }
    apply has_display_segmentation in Hd as [d Hd]. rewrite Hd.
    match goal with
    | |- context [bind ?c ?k w] => refine (triple_total nv L (bind c k) _ _ w Hw)
    end; [grows_tac | intros w0; eexists; reflexivity].
  - apply triple_total; [grows_tac | intros w0; eexists; reflexivity].
  - by apply triple_ret.
Qed.


(** *** Computations that raise *)

Section Raises.
Context {St : Type}.

Lemma raises_bind_l {A B} (P : St -> Prop) (c : M St A) (k : A -> M St B) e :
  raises P c e -> raises P (bind c k) e.
Proof.
  intros H s Hs. unfold bind. specialize (H s Hs).
  destruct (c s) as [[a|e'] s']; cbn [fst] in *; [discriminate|].
  by injection H as ->.
Qed.

Lemma raises_bind_r {A B} (P : St -> Prop) (c : M St A) (k : A -> M St B) Q e :
  triple P c Q (fun _ => False) -> (forall a, raises (Q a) (k a) e) ->
  raises P (bind c k) e.
Proof.
  intros Hc Hk s Hs. unfold bind. specialize (Hc s Hs).
  destruct (c s) as [[a|e'] s']; [exact (Hk a s' Hc)|done].
Qed.

Lemma raises_pure {A} (φ : Prop) (P : St -> Prop) (c : M St A) e :
  (φ -> raises P c e) -> raises (fun s => φ /\ P s) c e.
Proof. intros H s [Hφ Hs]. exact (H Hφ s Hs). Qed.

(** A loop raises when one of its items does and the items before it
    return. *)
Lemma raises_for_each {A} (Inv : St -> Prop) (body : A -> M St unit) e
    (l1 l2 : list A) (x : A) :
  (forall y, y ∈ l1 -> triple Inv (body y) (fun _ => Inv) (fun _ => False)) ->
  raises Inv (body x) e ->
  raises Inv (for_each (l1 ++ x :: l2) body) e.
Proof.
  intros H1 Hx s Hs. rewrite for_each_app.
  apply (raises_bind_r Inv _ _ (fun _ => Inv)); [by apply triple_for_each_in| |done].
  intros []. cbn [for_each]. by apply raises_bind_l.
Qed.

End Raises.

(** *** The views of a case *)

Lemma label_views_label_nodes (self : Case) (n : node_id) :
  Some n ∈ [attrs self !! "post_T1_label"; attrs self !! "pre_T1_label";
            attrs self !! "post_ADC_label"; attrs self !! "pre_ADC_label"] ->
  n ∈ label_nodes self.
Proof.
  intros H. unfold label_nodes. apply list_elem_of_omap.
  repeat (apply elem_of_cons in H as [H|H];
          [eexists; split; [|symmetry; exact H];
           unfold label_attrs; rewrite !elem_of_cons; auto 10|]).
  by apply elem_of_nil in H.
Qed.

Lemma triple_correct_volumesLoad (P : World -> Prop) self vols labs :
  List.length labs = 4%nat -> List.length vols = 4%nat ->
  triple P (correct_volumesLoad self vols labs)
    (fun vols' w => List.length vols' = 4%nat /\ P w) (fun _ => False).
Proof.
  intros Hl Hv w Hw.
  by destruct (correct_volumesLoad_run self vols labs w Hl Hv) as (v & -> & Hlen).
Qed.

(** With at most four slice views, [_loadImages] returns: every label it
    assigns to a view has a display node. *)
Lemma triple_loadImages nv h self subject listing :
  listdir h subject = Some listing -> attrs self = ∅ -> (nv <= 4)%nat ->
  triple (displayed nv []) (_loadImages h self subject)
    (fun r w =>
       List.length (volumesLoad r.1) = 4%nat /\
       (List.length (labelVolumesLoad r.1) = 4%nat /\
        ((forall n, Some n ∈ labelVolumesLoad r.1 -> n ∈ label_nodes r.1) /\
         displayed nv (label_nodes r.1) w)))
    (fun _ => False).
Proof.
  intros Hl Ha Hnv. unfold _loadImages.
  eapply triple_bind; [apply (triple_select_placeholder nv h self subject listing Hl Ha)|].
  intros self1. cbv zeta.
  eapply triple_bind;
    [apply (triple_correct_volumesLoad (displayed nv (label_nodes self1))); reflexivity|].
  intros vols. apply triple_pure. intros Hlen.
  eapply triple_bind with (Q := fun _ => displayed nv (label_nodes self1));
    [by apply triple_get|].
  intros w0.
  eapply triple_bind; [apply triple_for_each; intros x; apply triple_set_background|].
  intros ?.
  eapply triple_bind with
    (Q := fun w1 w => List.length (views w1) = nv /\ displayed nv (label_nodes self1) w).
  { apply triple_get. intros w Hw. split; [apply Hw|done]. }
  intros w1. apply triple_pure. intros Hnv1.
  eapply triple_bind.
  - apply triple_for_each_in. intros [k sv] Hx.
    apply elem_of_enumerate_from in Hx. rewrite sorted_by_length, Hnv1 in Hx.
    apply triple_show_segmentation; [lia|exact Hlen|reflexivity|].
    apply label_views_label_nodes.
  - intros ?. apply triple_ret. intros w Hw. cbn [fst].
    split; [exact Hlen|]. split; [reflexivity|]. split; [|exact Hw].
    apply label_views_label_nodes.
Qed.

(** With a fifth slice view, the second loop of [_loadImages] runs out of
    labels. *)
Lemma show_segmentation_fifth nv L self sv :
  List.length (labelVolumesLoad self) = 4%nat ->
  raises (displayed nv L) (show_segmentation self (4, sv)) IndexError.
Proof.
  intros Hl w Hw. unfold show_segmentation, py_index, bind, update_view, modify.
  cbn [fst snd].
  rewrite (lookup_ge_None_2 (labelVolumesLoad self) (Z.to_nat 4)); [done|].
  rewrite Hl. reflexivity.
Qed.

Lemma raises_loadImages nv h self subject listing :
  listdir h subject = Some listing -> attrs self = ∅ -> (5 <= nv)%nat ->
  raises (displayed nv []) (_loadImages h self subject) IndexError.
Proof.
  intros Hl Ha Hnv. unfold _loadImages.
  eapply raises_bind_r;
    [apply (triple_select_placeholder nv h self subject listing Hl Ha)|].
  intros self1. cbv zeta.
  eapply raises_bind_r;
    [apply (triple_correct_volumesLoad (displayed nv (label_nodes self1))); reflexivity|].
  intros vols. apply raises_pure. intros Hlen.
  eapply raises_bind_r with (Q := fun _ => displayed nv (label_nodes self1));
    [by apply triple_get|].
  intros w0.
  eapply raises_bind_r; [apply triple_for_each; intros x; apply triple_set_background|].
  intros ?.
  eapply raises_bind_r with
    (Q := fun w1 w => List.length (views w1) = nv /\ displayed nv (label_nodes self1) w).
  { apply triple_get. intros w Hw. split; [apply Hw|done]. }
  intros w1. apply raises_pure. intros Hnv1.
  apply raises_bind_l.
  pose proof (sorted_by_length slice_node_id (views w1)) as Hs.
  destruct (sorted_by slice_node_id (views w1))
    as [|v0 [|v1 [|v2 [|v3 [|v4 rest]]]]]; cbn [List.length] in Hs; try lia.
  change (enumerate (v0 :: v1 :: v2 :: v3 :: v4 :: rest))
    with ([(0, v0); (1, v1); (2, v2); (3, v3)] ++ (4, v4) :: enumerate_from 5 rest).
  apply raises_for_each.
  - intros [k sv] Hx.
    assert (0 <= k < 4).
    { repeat (apply elem_of_cons in Hx as [[= -> ->]|Hx]; [lia|]).
      by apply elem_of_nil in Hx. }
    apply triple_show_segmentation; [lia|exact Hlen|reflexivity|].
    apply label_views_label_nodes.
  - by apply show_segmentation_fifth.
Qed.

(** The constructor returns on a listable directory and at most four slice
    views. *)
Lemma new_Case_returns (h : Host) (subject reader : string) (kwargs : Settings)
    (w : World) (listing : list string) :
  listdir h subject = Some listing -> fresh w -> (List.length (views w) <= 4)%nat ->
  exists c w',
    new_Case h subject reader kwargs w = (Ok c, w') /\
    fresh w' /\ List.length (views w') = List.length (views w) /\
    List.length (volumesLoad c) = 4%nat /\ List.length (labelVolumesLoad c) = 4%nat /\
    forall n, Some n ∈ labelVolumesLoad c -> has_display w' n.
Proof.
  intros Hl Hf Hv.
  destruct (triple_run (displayed (List.length (views w)) [])
              (new_Case h subject reader kwargs)
              (fun c w' =>
                 List.length (volumesLoad c) = 4%nat /\
                 (List.length (labelVolumesLoad c) = 4%nat /\
                  ((forall n, Some n ∈ labelVolumesLoad c -> n ∈ label_nodes c) /\
                   displayed (List.length (views w)) (label_nodes c) w'))) w)
    as (c & w' & Hrun & H1 & H2 & H3 & Hf' & Hv' & Hall).
  - unfold new_Case. cbv zeta.
    eapply triple_bind; [by apply (triple_loadImages _ h _ subject listing)|].
    intros r. apply triple_pure. intros H1. apply triple_pure. intros H2.
    apply triple_pure. intros H3.
    eapply triple_bind.
    + apply triple_total; [grows_tac|].
      intros w0. destruct (_ && _)%bool; [|eexists; reflexivity].
      unfold bind, get. destruct (String.eqb _ _); eexists; reflexivity.
    + intros ?. eapply triple_bind.
      * apply triple_total; [apply grows_logger | intros w0; eexists; reflexivity].
      * intros ?. apply triple_ret. intros w0 Hw0. auto.
  - split; [done|]. split; [done|]. by apply Forall_nil.
  - exists c, w'. split; [done|]. split; [done|]. split; [done|]. split; [done|].
    split; [done|]. intros n Hn. rewrite Forall_forall in Hall. by apply Hall, H3.
Qed.

(** X15.  When the subject directory can be listed and the layout has at
    most four slice views, the constructor returns, whatever the directory
    holds: the scene stays well-formed, the slice views are as many as
    before, the case has four view entries and four label entries, and every
    label assigned to a view is a segmentation with a display node. *)
Theorem constructor_returns (h : Host) (subject reader : string) (kwargs : Settings)
    (w : World) (listing : list string) :
  listdir h subject = Some listing -> fresh w -> (List.length (views w) <= 4)%nat ->
  exists c w',
    new_Case h subject reader kwargs w = (Ok c, w') /\
    fresh w' /\ List.length (views w') = List.length (views w) /\
    List.length (volumesLoad c) = 4%nat /\ List.length (labelVolumesLoad c) = 4%nat /\
    forall n, Some n ∈ labelVolumesLoad c -> has_display w' n.
Proof. apply new_Case_returns. Qed.

Lemma constructor_returns_witness :
  exists c w',
    new_Case (host_of "/data/s1" ["pre_T1_EA.nii.gz"; "pre_T1_EA_tumor_r.nii.gz"; "notes.txt"])
      "/data/s1" "r" no_settings empty_world = (Ok c, w') /\
    fresh w' /\ List.length (views w') = List.length (views empty_world) /\
    List.length (volumesLoad c) = 4%nat /\ List.length (labelVolumesLoad c) = 4%nat /\
    forall n, Some n ∈ labelVolumesLoad c -> has_display w' n.
Proof.
  apply (constructor_returns _ _ _ _ _
           ["pre_T1_EA.nii.gz"; "pre_T1_EA_tumor_r.nii.gz"; "notes.txt"]).
  - reflexivity.
  - apply Forall_nil. exact I.
  - cbn. lia.
Defined.

(** X16.  With five or more slice views in the scene, the constructor
    raises [IndexError] once the files are loaded: the second loop of
    [_loadImages] asks for a fifth label. *)
Theorem fifth_view_raises (h : Host) (subject reader : string) (kwargs : Settings)
    (w : World) (listing : list string) :
  listdir h subject = Some listing -> fresh w -> (5 <= List.length (views w))%nat ->
  exists w', new_Case h subject reader kwargs w = (Raise IndexError, w').
Proof.
  intros Hl Hf Hv.
  assert (H : raises (displayed (List.length (views w)) [])
                (new_Case h subject reader kwargs) IndexError).
  { unfold new_Case. cbv zeta. apply raises_bind_l.
    by apply (raises_loadImages _ h _ subject listing). }
  specialize (H w). destruct (new_Case h subject reader kwargs w) as [r w'].
  exists w'. cbn [fst] in H. rewrite H; [done|].
  split; [done|]. split; [done|]. by apply Forall_nil.
Qed.

Lemma fifth_view_raises_witness :
  exists w',
    new_Case (host_of "/data/s1" ["pre_T1_EA.nii.gz"]) "/data/s1" "r" no_settings
      (mkWorld [] 0%nat (four_views ++ [mkSliceView "Slice6" None ""]) "" [] [])
    = (Raise IndexError, w').
Proof.
  apply (fifth_view_raises _ _ _ _ _ ["pre_T1_EA.nii.gz"]).
  - reflexivity.
  - apply Forall_nil. exact I.
  - cbn. lia.
Defined.


(** *** The selected module *)

Lemma preserves_module_load_label h self path j : preserves selectedModule (load_label h self path j).
Proof.
  unfold load_label, Scene.print, Scene.add_node, Scene.update_segmentation,
    Scene.update_display, Scene.update_node, Scene.remove_node.
  preserves_tac.
Qed.

Lemma preserves_module_match_file h self subject_dir acc i :
  preserves selectedModule (match_file h self subject_dir acc i).
Proof.
  unfold match_file. apply preserves_for_fold. intros b x. unfold match_series.
  cbv zeta. apply preserves_bind.
  { destruct (PyStr.contains _ _); [|apply preserves_ret].
    apply preserves_bind; [|intros; apply preserves_ret].
    unfold loadVolume, Scene.add_node. intros s. reflexivity. }
  intros raws. apply preserves_bind; [|intros; apply preserves_ret].
  destruct (PyStr.contains _ _); [|apply preserves_ret].
  apply preserves_bind; [apply preserves_module_load_label|intros; apply preserves_ret].
Qed.

Lemma preserves_module_select h self subject_dir :
  preserves selectedModule (select_placeholder_for_view h self subject_dir).
Proof.
  unfold select_placeholder_for_view, load_data_to_placeholders, os_listdir.
  apply preserves_bind.
  { cbv zeta. apply preserves_bind; [destruct (listdir h subject_dir); preserves_tac|].
    intros listing. apply preserves_bind; [|intros; apply preserves_ret].
    apply preserves_for_fold. intros. apply preserves_module_match_file. }
  intros r. cbv zeta. apply preserves_bind; [|intros; apply preserves_ret].
  apply preserves_for_fold. intros a i. unfold assign_label, Scene.print. preserves_tac.
Qed.

Lemma preserves_module_correct self vols labs :
  preserves selectedModule (correct_volumesLoad self vols labs).
Proof. intros w. by rewrite correct_volumesLoad_world. Qed.

Lemma preserves_module_set_background self iv : preserves selectedModule (set_background self iv).
Proof.
  unfold set_background, py_index, Scene.print, update_view. preserves_tac.
Qed.

Lemma preserves_module_show_segmentation self iv :
  preserves selectedModule (show_segmentation self iv).
Proof.
  unfold show_segmentation, py_index, Scene.print, update_view, Scene.update_segmentation,
    Scene.update_display, Scene.update_node.
  cbv zeta. apply preserves_bind; [preserves_tac|]. intros _.
  apply preserves_bind; [preserves_tac|]. intros segNode.
  apply preserves_bind; [preserves_tac|]. intros vol.
  destruct vol as [vol|]; [|apply preserves_ret].
  destruct segNode as [segNode|].
  - apply preserves_bind; [apply preserves_get|]. intros w.
    apply preserves_bind; [preserves_tac|]. intros _.
    apply preserves_bind; [preserves_tac|]. intros _.
    destruct (Scene.segmentation w segNode ≫= seg_display); preserves_tac.
  - apply preserves_bind; [apply preserves_get|]. intros w.
    apply preserves_bind; [preserves_tac|]. intros _.
    apply preserves_bind; [preserves_tac|]. intros _.
    apply preserves_bind; [intros s; reflexivity|]. intros seg.
    apply preserves_bind; [preserves_tac|]. intros _.
    apply preserves_bind; [preserves_tac|]. intros _.
    apply preserves_bind; [intros s; reflexivity|]. intros disp.
    preserves_tac.
Qed.

Lemma preserves_module_loadImages h self subject :
  preserves selectedModule (_loadImages h self subject).
Proof.
  unfold _loadImages. cbv zeta.
  apply preserves_bind; [apply preserves_module_select|]. intros self1. cbv zeta.
  apply preserves_bind; [apply preserves_module_correct|]. intros vols.
  apply preserves_bind; [apply preserves_get|]. intros w.
  apply preserves_bind;
    [apply preserves_for_each; intros; apply preserves_module_set_background|].
  intros _. apply preserves_bind; [apply preserves_get|]. intros w1.
  apply preserves_bind;
    [apply preserves_for_each; intros; apply preserves_module_show_segmentation|].
  intros _. apply preserves_ret.
Qed.

Lemma select_placeholder_keeps_redirect h self subject_dir :
  triple (fun _ => True) (select_placeholder_for_view h self subject_dir)
    (fun self' _ => redirect self' = redirect self) (fun _ => True).
Proof.
  unfold select_placeholder_for_view, load_data_to_placeholders. cbv zeta.
  eapply triple_bind with (Q := fun r _ => redirect r.1 = redirect self).
  - eapply triple_bind with (Q := fun _ _ => True); [by intros w _; destruct (os_listdir _ _ w) as [[]]|].
    intros listing.
    eapply triple_bind with (Q := fun _ _ => True);
      [by intros w _; destruct (for_fold _ _ _ w) as [[]]|].
    intros rl. by apply triple_ret.
  - intros r. cbv zeta.
    eapply triple_bind with (Q := fun _ _ => redirect r.1 = redirect self).
    + intros w Hr. by destruct (for_fold _ _ _ w) as [[]].
    + intros a. by apply triple_ret.
Qed.

(** X17.  The constructor switches to the Segment Editor exactly when it
    returns and the [redirect] setting is on; when it raises, or with the
    setting off, the selected module is the one it was. *)
Theorem redirect_selects_editor (h : Host) (subject reader : string) (kwargs : Settings)
    (w : World) :
  match new_Case h subject reader kwargs w with
  | (Ok c, w') =>
      redirect c = settings_redirect kwargs /\
      selectedModule w' =
        (if settings_redirect kwargs then "SegmentEditor" else selectedModule w)
  | (Raise _, w') => selectedModule w' = selectedModule w
  end.
Proof.
  unfold new_Case. cbv zeta.
  set (self := mkCase _ _ _ _ _ _ _ _).
  pose proof (preserves_module_loadImages h self subject w) as Hm.
  assert (Hr : triple (fun _ => True) (_loadImages h self subject)
                 (fun r _ => r.2 = true /\ redirect r.1 = redirect self) (fun _ => True)).
  { unfold _loadImages.
    eapply triple_bind; [apply select_placeholder_keeps_redirect|].
    intros self1. cbv zeta. intros w0 Hr0. unfold bind, get.
    destruct (correct_volumesLoad _ _ _ w0) as [[vols|e] w1]; [|done].
    destruct (for_each _ (set_background _) w1) as [[[]|e] w2]; [|done].
    destruct (for_each _ (show_segmentation _) w2) as [[[]|e] w3]; [|done].
    cbn. by split. }
  specialize (Hr w I). unfold bind at 1.
  destruct (_loadImages h self subject w) as [[r|e] w1]; cbn [snd] in Hm; [|exact Hm].
  destruct Hr as [Hr2 Hr1]. rewrite Hr2, Hr1. cbn [redirect self andb].
  unfold bind, get, modify, Scene.logger, ret.
  destruct (settings_redirect kwargs).
  - destruct (String.eqb_spec (selectedModule w1) "SegmentEditor") as [He|He];
      cbn; by split.
  - cbn. by split.
Qed.


(** *** What [correct_volumesLoad] may change *)





(** *** What loading leaves in the scene *)

Section MoreFold.
Context {St : Type}.

Lemma triple_for_fold_in {A B} (Inv : B -> St -> Prop) (body : B -> A -> M St B)
    (E : St -> Prop) (l : list A) (b : B) :
  (forall x b, x ∈ l -> triple (Inv b) (body b x) Inv E) ->
  triple (Inv b) (for_fold l body b) Inv E.
Proof.
  revert b. induction l as [|x l IH]; intros b Hb; cbn [for_fold].
  - by apply triple_ret.
  - eapply triple_bind; [apply Hb; by left|]. intros b'. apply IH.
    intros y b0 Hy. apply Hb. by right.
Qed.

End MoreFold.

Lemma lookup_nodes_app (l l' : list (node_id * Node)) (n : node_id) :
  snd <$> List.find (fun p => Nat.eqb p.1 n) (l ++ l') =
  match snd <$> List.find (fun p => Nat.eqb p.1 n) l with
  | Some x => Some x
  | None => snd <$> List.find (fun p => Nat.eqb p.1 n) l'
  end.
Proof.
  induction l as [|[k x] l IH]; [done|]. cbn [app List.find fst].
  destruct (Nat.eqb k n); [done|exact IH].
Qed.

Lemma lookup_stable (w w' : World) (new : list (node_id * Node)) (n : node_id) (x : Node) :
  nodes w' = nodes w ++ new -> Scene.lookup w n = Some x -> Scene.lookup w' n = Some x.
Proof. unfold Scene.lookup. intros -> H. by rewrite lookup_nodes_app, H. Qed.

Lemma lookup_new (w w' : World) (new : list (node_id * Node)) (n : node_id) :
  fresh w -> nodes w' = nodes w ++ new -> (next_id w <= n)%nat ->
  Scene.lookup w' n = snd <$> List.find (fun p => Nat.eqb p.1 n) new.
Proof.
  intros Hf Hn Hk. pose proof (lookup_fresh_None w n Hf Hk) as H.
  unfold Scene.lookup in *. by rewrite Hn, lookup_nodes_app, H.
Qed.

Lemma loaded_volume_stable (w w' : World) new nc :
  nodes w' = nodes w ++ new -> loaded_volume w nc -> loaded_volume w' nc.
Proof. intros Hn (name & path & H). exists name, path. by apply (lookup_stable w w' new). Qed.

Lemma loaded_label_stable (w w' : World) new nc :
  nodes w' = nodes w ++ new -> loaded_label w nc -> loaded_label w' nc.
Proof.
  intros Hn (j & s & d & Hj & H1 & H2 & H3 & H4 & H5). exists j, s, d.
  repeat split; try done; by apply (lookup_stable w w' new).
Qed.

Lemma loaded_loadVolume w0 h path raws labels count :
  triple (loaded w0 (raws, labels)) (loadVolume h path)
    (fun img => loaded w0 (raws ++ [(img, count)], labels)) (fun _ => False).
Proof.
  intros w (Hf & (added & Hn & Hlen & Hall) & Hr & Hlb).
  unfold loadVolume, Scene.add_node. cbn [fst snd] in *.
  set (nd := ScalarVolumeNode (volume_name_of_file h path) path).
  set (w' := Scene.set_nodes w (nodes w ++ [(next_id w, nd)]) (S (next_id w))).
  assert (Hn' : nodes w' = nodes w ++ [(next_id w, nd)]) by reflexivity.
  split; [|split; [|split]].
  - exact (proj1 (grows_add_node nd w Hf)).
  - exists (added ++ [(next_id w, nd)]). split; [by rewrite Hn', Hn, app_assoc|].
    split; [cbn [fst snd]; rewrite !length_app; cbn [List.length]; lia|].
    apply Forall_app. split; [done|]. constructor; [|constructor].
    unfold is_labelmap. cbn. tauto.
  - apply Forall_app. split.
    + eapply Forall_impl; [exact Hr|]. intros nc.
      by apply (loaded_volume_stable w w' [(next_id w, nd)]).
    + constructor; [|constructor]. exists (volume_name_of_file h path), path. cbn [fst].
      rewrite (lookup_new w w' [(next_id w, nd)] (next_id w) Hf Hn') by lia.
      cbn [List.find fst]. by rewrite Nat.eqb_refl.
  - eapply Forall_impl; [exact Hlb|]. intros nc.
    by apply (loaded_label_stable w w' [(next_id w, nd)]).
Qed.

Lemma loaded_load_label w0 h self path j raws labels count :
  (j, count) ∈ images ->
  triple (loaded w0 (raws, labels)) (load_label h self path j)
    (fun seg => loaded w0 (raws, labels ++ [(seg, count)])) (fun _ => False).
Proof.
  intros Hj w (Hf & (added & Hn & Hlen & Hall) & Hr & Hlb). cbn [fst snd] in *.
  pose proof (triple_load_label (List.length (views w)) [] h self path j w
                (conj Hf (conj eq_refl (Forall_nil_2 _)))) as Hd.
  destruct (load_label_run h self path j w Hf) as (w' & Hrun & Hn' & Hk & _).
  rewrite Hrun in Hd |- *. destruct Hd as (Hf' & _).
  assert (E1 : Nat.eqb (S (next_id w)) (S (S (next_id w))) = false)
    by (apply Nat.eqb_neq; lia).
  split; [done|]. split; [|split].
  - eexists. split; [by rewrite Hn', Hn, <- app_assoc|].
    split; [cbn [fst snd]; rewrite !length_app; cbn [List.length]; lia|].
    apply Forall_app. split; [done|]. constructor; [|constructor; [|constructor]];
      unfold is_labelmap; cbn; tauto.
  - cbn [fst]. eapply Forall_impl; [exact Hr|]. intros nc.
    by apply (loaded_volume_stable w w' _ nc Hn').
  - cbn [snd]. apply Forall_app. split.
    + eapply Forall_impl; [exact Hlb|]. intros nc.
      by apply (loaded_label_stable w w' _ nc Hn').
    + constructor; [|constructor].
      exists j, (mkSegmentation (j +:+ "_segment") (labelmap_segments h path)
                   (Some (S (S (next_id w)))) None), (S (S (next_id w))).
      cbn [fst snd seg_name seg_reference seg_display].
      rewrite !(lookup_new w w' _ _ Hf Hn') by lia.
      cbn [List.find fst]. rewrite !Nat.eqb_refl, E1. by repeat split.
Qed.

Lemma loaded_match_series w0 h self subject_dir i file_name acc jc :
  jc ∈ images ->
  triple (loaded w0 acc) (match_series h self subject_dir i file_name acc jc)
    (loaded w0) (fun _ => False).
Proof.
  intros Hj. destruct acc as [raws labels]. destruct jc as [j count].
  unfold match_series. cbv zeta. cbn [fst snd].
  eapply triple_bind with (Q := fun raws' => loaded w0 (raws', labels)).
  - destruct (PyStr.contains _ _).
    + eapply triple_bind; [apply (loaded_loadVolume w0 h _ raws labels count)|].
      intros img. by apply triple_ret.
    + by apply triple_ret.
  - intros raws'. eapply triple_bind with (Q := fun labels' => loaded w0 (raws', labels')).
    + destruct (PyStr.contains _ _).
      * eapply triple_bind;
          [by apply (loaded_load_label w0 h self _ j raws' labels count)|].
        intros seg. by apply triple_ret.
      * by apply triple_ret.
    + intros labels'. by apply triple_ret.
Qed.

(** X19.  What [load_data_to_placeholders] leaves in a well-formed scene
    when the directory can be listed: it returns; the nodes that were in
    the scene are all there, unchanged and in order; one node was added for
    each volume placeholder and two for each label placeholder, and no
    labelmap volume stays behind; each volume placeholder is a scalar
    volume; each label placeholder is a segmentation named after its series
    with ["_segment"] appended, without a reference volume, whose display
    node is hidden. *)
Theorem loading_leaves_no_labelmap (h : Host) (self : Case) (subject_dir : string)
    (listing : list string) (w : World) :
  listdir h subject_dir = Some listing -> fresh w ->
  exists raws labels w',
    load_data_to_placeholders h self subject_dir w =
      (Ok (set_image_root self subject_dir, (raws, labels)), w') /\
    loaded w (raws, labels) w'.
Proof.
  intros Hl Hf.
  destruct (triple_run (loaded w ([], []))
              (load_data_to_placeholders h self subject_dir)
              (fun r w' => r.1 = set_image_root self subject_dir /\ loaded w r.2 w') w)
    as ([self' [raws labels]] & w' & Hrun & Hself & Hloaded).
  - unfold load_data_to_placeholders, os_listdir. rewrite Hl. cbv zeta.
    apply triple_bind_ret. eapply triple_bind.
    + apply (triple_for_fold_in (loaded w)). intros i acc _.
      unfold match_file. cbv zeta. apply (triple_for_fold_in (loaded w)).
      intros jc acc' Hjc. by apply loaded_match_series.
    + intros rl. apply triple_ret. intros w1 Hw1. by split.
  - split; [done|]. split; [|by split]. exists []. by rewrite app_nil_r.
  - cbn [fst snd] in *. subst self'. by exists raws, labels, w'.
Qed.

Lemma loading_leaves_no_labelmap_witness :
  exists raws labels w',
    load_data_to_placeholders
      (host_of "/data/s1" ["pre_T1_EA.nii.gz"; "pre_T1_EA_tumor_r.nii.gz"])
      (blank_case "/data/s1" "r") "/data/s1" empty_world =
      (Ok (set_image_root (blank_case "/data/s1" "r") "/data/s1", (raws, labels)), w') /\
    loaded empty_world (raws, labels) w'.
Proof.
  apply (loading_leaves_no_labelmap _ _ _ ["pre_T1_EA.nii.gz"; "pre_T1_EA_tumor_r.nii.gz"]).
  - reflexivity.
  - apply Forall_nil. exact I.
Defined.


(** *** The dictionary of new masks *)

Lemma dict_has_key_spec {V} (k : string) (d : list (string * V)) :
  dict_has_key k d = true <-> k ∈ d.*1.
Proof.
  unfold dict_has_key. induction d as [|[k' v] d IH].
  - split; [discriminate|]. intros H. by apply elem_of_nil in H.
  - cbn [existsb fst]. rewrite fmap_cons, elem_of_cons, orb_true_iff, IH. cbn [fst].
    destruct (String.eqb_spec k' k) as [->|Hne].
    + split; auto.
    + split; intros [H|H]; auto; try discriminate; try congruence.
Qed.

Lemma elem_of_dict_set {V} (k : string) (v : V) (d : list (string * V)) k' v' :
  (k', v') ∈ dict_set k v d <-> (k' = k /\ v' = v) \/ (k' <> k /\ (k', v') ∈ d).
Proof.
  unfold dict_set. destruct (existsb _ d) eqn:He.
  - apply (dict_has_key_spec k d) in He. split.
    + intros H. apply list_elem_of_In, in_map_iff in H as ([k1 v1] & Hg & Hin).
      apply list_elem_of_In in Hin. cbn [fst] in Hg.
      destruct (String.eqb_spec k1 k) as [->|Hne]; injection Hg as <- <-; auto.
    + intros [[-> ->]|[Hne Hin]].
      * apply list_elem_of_fmap in He as ([k1 v1] & Hk & Hin). cbn [fst] in Hk. subst k1.
        apply list_elem_of_In, in_map_iff. exists (k, v1).
        split; [cbn [fst]; by rewrite String.eqb_refl | by apply list_elem_of_In].
      * apply list_elem_of_In, in_map_iff. exists (k', v').
        split; [|by apply list_elem_of_In]. cbn [fst].
        by destruct (String.eqb_spec k' k).
  - assert (Hk : k ∉ d.*1).
    { intros H. apply dict_has_key_spec in H. unfold dict_has_key in H. congruence. }
    rewrite elem_of_app, list_elem_of_singleton. split.
    + intros [Hin|[= -> ->]]; [|by left]. right. split; [|done]. intros ->.
      apply Hk. apply list_elem_of_fmap. by exists (k, v').
    + intros [[-> ->]|[_ Hin]]; [by right|by left].
Qed.

Lemma dict_set_keys_NoDup {V} (k : string) (v : V) (d : list (string * V)) :
  NoDup d.*1 -> NoDup (dict_set k v d).*1.
Proof.
  intros Hd. unfold dict_set. destruct (existsb _ d) eqn:He.
  - replace ((List.map (fun p : string * V => if String.eqb p.1 k then (k, v) else p) d).*1)
      with (d.*1); [done|].
    clear. induction d as [|[k1 v1] d IH]; [done|].
    cbn [List.map]. rewrite !fmap_cons, <- IH. cbn [fst].
    by destruct (String.eqb_spec k1 k) as [->|?].
  - rewrite fmap_app. apply NoDup_app. split; [done|]. split; [|apply NoDup_singleton].
    intros x Hx Hx'. apply list_elem_of_singleton in Hx'. cbn [fst] in Hx'. subst x.
    apply dict_has_key_spec in Hx. unfold dict_has_key in Hx. congruence.
Qed.

(** The loop of [closeCase] over the segmentations of the scene (lines
    974-975), from any dictionary with distinct keys: what is in the
    dictionary afterwards. *)
Lemma fold_new_masks (skip : string -> bool) (l : list (node_id * SegmentationData))
    (d : list (string * node_id)) :
  NoDup d.*1 ->
  NoDup (List.fold_left
           (fun d ns => if skip (seg_name ns.2) then d else dict_set (seg_name ns.2) ns.1 d)
           l d).*1 /\
  forall name n,
    (name, n) ∈ List.fold_left
      (fun d ns => if skip (seg_name ns.2) then d else dict_set (seg_name ns.2) ns.1 d) l d <->
    (skip name = false /\
     exists l1 s l2, l = l1 ++ (n, s) :: l2 /\ seg_name s = name /\
                     Forall (fun p => seg_name p.2 <> name) l2) \/
    ((name, n) ∈ d /\ (skip name = true \/ Forall (fun p => seg_name p.2 <> name) l)).
Proof.
  revert d. induction l as [|[n0 s0] l IH]; intros d Hd; cbn [List.fold_left fst snd].
  - split; [done|]. intros name n. split.
    + intros H. right. split; [done|]. right. constructor.
    + intros [(_ & l1 & s & l2 & H & _)|[H _]]; [by destruct l1|done].
  - set (d' := if skip (seg_name s0) then d else dict_set (seg_name s0) n0 d).
    assert (Hd' : NoDup d'.*1).
    { unfold d'. destruct (skip _); [done|by apply dict_set_keys_NoDup]. }
    destruct (IH d' Hd') as [IH1 IH2]. split; [exact IH1|].
    intros name n. rewrite IH2. clear IH IH1 IH2. split.
    + intros [(Hs & l1 & s & l2 & -> & Hn & Hall)|[Hin Hrest]].
      * left. split; [done|]. by exists ((n0, s0) :: l1), s, l2.
      * unfold d' in Hin. destruct (skip (seg_name s0)) eqn:Hs0.
        -- right. split; [done|]. destruct Hrest as [Hs|Hall]; [by left|].
           destruct (skip name) eqn:Hsn; [by left|]. right.
           constructor; [|done]. cbn [snd]. intros E. congruence.
        -- apply elem_of_dict_set in Hin as [[-> ->]|[Hne Hin]].
           ++ left. split; [done|]. destruct Hrest as [Hs|Hall]; [congruence|].
              by exists [], s0, l.
           ++ right. split; [done|]. destruct Hrest as [Hs|Hall]; [by left|].
              right. constructor; [cbn [snd]; congruence|done].
    + intros [(Hs & l1 & s & l2 & Hl & Hn & Hall)|[Hin Hrest]].
      * destruct l1 as [|p l1]; cbn [app] in Hl.
        -- injection Hl as -> -> ->. right. unfold d'. rewrite Hn, Hs.
           split; [apply elem_of_dict_set; by left|by right].
        -- injection Hl as <- ->. left. split; [done|]. by exists l1, s, l2.
      * right. unfold d'. destruct (skip (seg_name s0)) eqn:Hs0.
        -- split; [done|]. destruct Hrest as [Hs|Hall]; [by left|right].
           by inversion Hall.
        -- destruct Hrest as [Hs|Hall].
           ++ split; [|by left]. apply elem_of_dict_set. right. split; [|done].
              intros ->. congruence.
           ++ inversion Hall as [|? ? Hx Hl']; subst. split; [|by right].
              apply elem_of_dict_set. right. split; [|done]. cbn [snd] in Hx. congruence.
Qed.

(** X20.  The dictionary of new masks that [closeCase] builds has one entry
    per name: a segmentation of the scene is in it exactly when its name is
    not the name of a loaded mask and no later segmentation of the scene has
    the same name.  Of several segmentations with one name only the last is
    saved. *)
Theorem same_name_last_wins (w : World) (self : Case) :
  NoDup (new_masks_of w self).*1 /\
  forall name n,
    (name, n) ∈ new_masks_of w self <->
    dict_has_key name (loaded_masks_of w self) = false /\ last_named w name n.
Proof.
  assert (H0 : NoDup (([] : list (string * node_id)).*1)) by constructor.
  destruct (fold_new_masks (fun k => dict_has_key k (loaded_masks_of w self))
              (Scene.segmentation_nodes w) [] H0) as [H1 H2].
  split; [exact H1|]. intros name n. unfold new_masks_of, last_named. rewrite H2. split.
  - intros [H|[H _]]; [done|by apply elem_of_nil in H].
  - intros H. by left.
Qed.


(** *** Cutting a name at a marker *)

Lemma length_take (n : nat) (s : string) :
  (n <= String.length s)%nat -> String.length (PyStr.take n s) = n.
Proof.
  revert s. induction n as [|n IH]; intros s Hn; [done|].
  destruct s as [|c r]; cbn [String.length PyStr.take] in *; [lia|].
  rewrite IH; [done|lia].
Qed.

(** [s.find(pat)] is [-1] when [pat] does not occur, and otherwise the
    length of the shortest prefix of [s] that [pat] follows. *)
Lemma find_spec (pat s : string) :
  (PyStr.contains pat s = false /\ PyStr.find pat s = -1) \/
  (PyStr.contains pat s = true /\
   0 <= PyStr.find pat s <= Z.of_nat (String.length s) /\
   (exists post, s = PyStr.take (Z.to_nat (PyStr.find pat s)) s +:+ pat +:+ post) /\
   forall pre' post', s = pre' +:+ pat +:+ post' ->
                      PyStr.find pat s <= Z.of_nat (String.length pre')).
Proof.
  induction s as [|c r IH].
  - change (PyStr.contains pat "") with (if String.prefix pat "" then true else false).
    change (PyStr.find pat "") with (if String.prefix pat "" then 0 else -1).
    destruct (String.prefix pat "") eqn:Hp; [right|by left].
    apply prefix_occurs in Hp as [post Hp].
    split; [done|]. split; [done|]. split; [by exists post|]. intros; lia.
  - change (PyStr.contains pat (String c r))
      with (if String.prefix pat (String c r) then true else PyStr.contains pat r).
    change (PyStr.find pat (String c r))
      with (if String.prefix pat (String c r) then 0
            else let k := PyStr.find pat r in if k <? 0 then -1 else k + 1).
    destruct (String.prefix pat (String c r)) eqn:Hp.
    + right. apply prefix_occurs in Hp as [post Hp].
      split; [done|]. split; [cbn [String.length]; lia|]. split; [by exists post|].
      intros; lia.
    + cbv zeta. destruct IH as [[Hc Hk]|(Hc & Hk & [post Hpost] & Hmin)].
      * left. rewrite Hk. by split.
      * right. replace (PyStr.find pat r <? 0) with false by (symmetry; apply Z.ltb_ge; lia).
        split; [done|]. split; [cbn [String.length]; lia|]. split.
        -- exists post. replace (Z.to_nat (PyStr.find pat r + 1))
             with (S (Z.to_nat (PyStr.find pat r))) by lia.
           cbn [PyStr.take].
           change (String c r =
                   String c (PyStr.take (Z.to_nat (PyStr.find pat r)) r +:+ pat +:+ post)).
           by rewrite <- Hpost.
        -- intros pre' post' H. destruct pre' as [|c' pre'].
           ++ assert (String.prefix pat (String c r) = true)
                by (apply prefix_occurs; eauto).
              congruence.
           ++ change (String c r = String c' (pre' +:+ pat +:+ post')) in H.
              injection H as -> H.
              apply Hmin in H. cbn [String.length]. lia.
Qed.

Lemma slice_find_absent (pat s : string) :
  ~ PyStr.occurs_in pat s -> PyStr.slice_to s (PyStr.find pat s) = drop_last s.
Proof.
  intros Hn. destruct (find_spec pat s) as [[_ Hk]|[Hc _]].
  - rewrite Hk. unfold PyStr.slice_to, drop_last. cbv zeta.
    replace (-1 <? 0) with true by done. f_equal. lia.
  - by apply contains_occurs in Hc.
Qed.

Lemma slice_find_present (pat s : string) :
  PyStr.occurs_in pat s ->
  (exists post, s = PyStr.slice_to s (PyStr.find pat s) +:+ pat +:+ post) /\
  forall pre' post', s = pre' +:+ pat +:+ post' ->
    (String.length (PyStr.slice_to s (PyStr.find pat s)) <= String.length pre')%nat.
Proof.
  intros Ho. apply contains_occurs in Ho.
  destruct (find_spec pat s) as [[Hc _]|(_ & Hk & Hpost & Hmin)]; [congruence|].
  assert (Hs : PyStr.slice_to s (PyStr.find pat s) =
               PyStr.take (Z.to_nat (PyStr.find pat s)) s).
  { unfold PyStr.slice_to. cbv zeta.
    replace (PyStr.find pat s <? 0) with false by (symmetry; apply Z.ltb_ge; lia).
    f_equal. lia. }
  rewrite Hs. split; [exact Hpost|]. intros pre' post' H. apply Hmin in H.
  rewrite length_take; lia.
Qed.

(** X21.  The names that the code cuts at a marker ([seg_name] at
    ["_segment"] in [correct_volumesLoad], the base name of a file at
    [".nii.gz"] in [getNameVolumeNode]) are cut at the first occurrence of
    the marker; a name without the marker loses its last character. *)
Theorem cut_at_first_marker (s : string) :
  (~ PyStr.occurs_in "_segment" s -> strip_segment s = drop_last s) /\
  (PyStr.occurs_in "_segment" s ->
   (exists post, s = strip_segment s +:+ "_segment" +:+ post) /\
   forall pre' post', s = pre' +:+ "_segment" +:+ post' ->
     (String.length (strip_segment s) <= String.length pre')%nat) /\
  (~ PyStr.occurs_in ".nii.gz" (PyStr.basename s) ->
   getNameVolumeNode s = drop_last (PyStr.basename s)) /\
  (PyStr.occurs_in ".nii.gz" (PyStr.basename s) ->
   (exists post, PyStr.basename s = getNameVolumeNode s +:+ ".nii.gz" +:+ post) /\
   forall pre' post', PyStr.basename s = pre' +:+ ".nii.gz" +:+ post' ->
     (String.length (getNameVolumeNode s) <= String.length pre')%nat).
Proof.
  unfold strip_segment, getNameVolumeNode. cbv zeta.
  split; [apply slice_find_absent|]. split; [apply slice_find_present|].
  split; [apply slice_find_absent|apply slice_find_present].
Qed.


(* ===================================================================== *)
(** ** The outcome of each slice view *)
(* ===================================================================== *)

(** *** Sorting and numbering *)










Section PrefixLoop.
Context {St : Type}.


End PrefixLoop.

(** *** Scenes that differ by added nodes *)













(** *** The placeholders in the scene *)






(** *** The attributes of the case *)








(** *** The first loop: backgrounds *)









(** *** The volumes after the substitution *)


(** *** The second loop: segmentations *)






Section SecondLoop.
Variables (self : Case) (w0 : World) (K : node_id).
Hypothesis Hvl : List.length (volumesLoad self) = 4%nat.
Hypothesis Hll : List.length (labelVolumesLoad self) = 4%nat.
Hypothesis Hvols : forall vol, Some vol ∈ volumesLoad self -> (vol < K)%nat.
Hypothesis Hlabs : forall seg, Some seg ∈ labelVolumesLoad self -> (S seg < K)%nat.
Hypothesis Hdist : forall i j seg,
  labelVolumesLoad self !! i = Some (Some seg) ->
  labelVolumesLoad self !! j = Some (Some seg) -> i = j.




End SecondLoop.


(** *** The four views of [_loadImages] *)





(** The three outcomes side by side: with an early-arterial volume before
    and after treatment and a label for the second only, the first view
    shows the label, the second gets a new segmentation, and the two ADC
    views are left empty. *)
Example three_outcomes_example :
  exists self' w',
    _loadImages
      (host_of "/data/s1"
         ["pre_T1_EA.nii.gz"; "post_T1_EA.nii.gz"; "post_T1_EA_tumor_r.nii.gz"])
      (blank_case "/data/s1" "r") "/data/s1" empty_world = (Ok (self', true), w') /\
    volumesLoad self' = [Some 1%nat; Some 0%nat; None; None] /\
    labelVolumesLoad self' = [Some 3%nat; None; None; None] /\
    view_background <$> sorted_by slice_node_id (views w') =
      [Some 1%nat; Some 0%nat; None; None] /\
    Scene.segmentation w' 3%nat =
      Some (mkSegmentation "post_T1_EA_segment" [mkSegment "Segment_1" (Some [0; 1; 1; 0])]
              (Some 4%nat) (Some 1%nat)) /\
    Scene.display w' 4%nat = Some (mkDisplay true (Some "vtkMRMLSliceNodeRed")) /\
    Scene.segmentation w' 5%nat =
      Some (mkSegmentation "pre_T1_EA_segment"
              [mkSegment "Target" None; mkSegment "Background" None]
              (Some 6%nat) (Some 0%nat)) /\
    Scene.display w' 6%nat = Some (mkDisplay true (Some "vtkMRMLSliceNodeSlice4")) /\
    List.length (nodes w') = 6%nat.
Proof.
  eexists _, _. split; [vm_compute; reflexivity|].
  repeat split; vm_compute; reflexivity.
Qed.
